(** * IAM anomaly detection pipeline: features, rules, detection, risk score

    A shallow embedding of the detection core of the repository
    ([app/services/feature_engineer.py], [app/services/anomaly_engine.py],
    [app/services/risk_scoring.py]) and of its minimal sibling
    ([iam-mvp/detector.py], in [Module Mvp]).

    Numbers.  Python [int] counters are [Z].  Python [float] values are
    exact rationals [Q]: every score constant is a small integer, sums of
    such values are exact in binary64, and a quotient of two counters
    below 2^50 compares with the literals 0.30, 0.20 and 0.40 exactly as
    the rationals do (the quotient is correctly rounded, the literal is the
    binary64 nearest to it, and two distinct quotients with such
    denominators are further apart than the rounding error).
    [ZeroDivisionError] is the [None] of [truediv].

    Strings.  Rule identifiers, detection methods, levels and remediation
    sentences are the source's string literals.

    Time.  A [datetime] is its position on the UTC time line in
    microseconds; [hour] reads the hour of day off it. *)

From Stdlib Require Import ZArith QArith Qround Qminmax List Permutation Sorted Lia Lqa.
From stdpp Require Import gmap strings list fin_maps.

Local Open Scope Z_scope.

(** ** Python primitives *)

(** [bool(s)] for a [str]: the empty string is falsy. *)
Definition str_truthy (s : string) : bool := negb (String.eqb s "").

(** [bool(o)] for a [str | None]. *)
Definition opt_truthy (o : option string) : bool :=
  match o with
  | Some s => str_truthy s
  | None => false
  end.

(** [sum(1 for x in l if p(x))]. *)
Fixpoint count_if {A : Type} (p : A -> bool) (l : list A) : Z :=
  match l with
  | [] => 0
  | x :: l' => (if p x then 1 else 0) + count_if p l'
  end.

(** [a / b] on two [int]s: true division, raising on a zero divisor. *)
Definition truediv (a b : Z) : option Q :=
  if decide (b = 0) then None else Some (inject_Z a / inject_Z b)%Q.

(** [x > y] and [x >= y] on floats. *)
Definition Qgtb (x y : Q) : bool := negb (Qle_bool x y).
Definition Qgeb (x y : Q) : bool := Qle_bool y x.

(** [min(a, b)]: the first argument unless the second is strictly smaller. *)
Definition py_min (a b : Q) : Q := if Qle_bool a b then a else b.

(** Rounding to the nearest integer, ties to even. *)
Definition round_half_even (q : Q) : Z :=
  let f := Qfloor q in
  match (q - inject_Z f ?= 1 # 2)%Q with
  | Lt => f
  | Gt => f + 1
  | Eq => if Z.even f then f else f + 1
  end.

(** [round(q, 2)]. *)
Definition round2 (q : Q) : Q :=
  (inject_Z (round_half_even (q * 100)) / 100)%Q.

(** [Counter(xs)]: occurrences per key. *)
Definition Counter (xs : list string) : gmap string Z :=
  fold_left (fun c x => <[x := default 0 (c !! x) + 1]> c) xs ∅.

(** [min(times) if times else None], [max(times) if times else None]. *)
Definition min_time (times : list Z) : option Z :=
  match times with
  | [] => None
  | t :: ts => Some (fold_left Z.min ts t)
  end.

Definition max_time (times : list Z) : option Z :=
  match times with
  | [] => None
  | t :: ts => Some (fold_left Z.max ts t)
  end.

(** ** Events ([app/models/schemas.py]) *)

(** The fields of [CloudTrailEvent] that the pipeline reads. *)
Record CloudTrailEvent := {
  event_time : Z;
  event_name : string;
  aws_region : string;
  source_ip : string;
  user_arn : string;
  mfa_used : bool;
  error_code : option string;
  is_high_risk : bool;
}.

(** ** Feature engineering ([app/services/feature_engineer.py]) *)

(** [UserFeatures], without [event_name_entropy]: a binary64 logarithm
    that only the opaque ML model reads. *)
Record UserFeatures := {
  uf_user_arn : string;
  total_events : Z;
  unique_event_names : Z;
  unique_ips : Z;
  high_risk_event_count : Z;
  failed_event_count : Z;
  off_hours_event_count : Z;
  consecutive_failures : Z;
  mfa_missing_high_risk : Z;
  admin_action_count : Z;
  unique_regions : Z;
  ip_list : list string;
  event_counts : gmap string Z;
  first_seen : option Z;
  last_seen : option Z;
}.

Definition ADMIN_EVENTS : gset string :=
  list_to_set
    [ "AttachUserPolicy"; "AttachRolePolicy"; "AttachGroupPolicy";
      "PutUserPolicy"; "PutRolePolicy"; "PutGroupPolicy";
      "CreateRole"; "CreateUser"; "CreateAccessKey";
      "AssumeRole"; "GetSessionToken" ].

Definition hour (dt : Z) : Z := (dt / 3600000000) mod 24.

Definition _is_off_hours (dt : Z) : bool :=
  (22 <=? hour dt) || (hour dt <? 6).

(** [sorted(events, key=lambda e: e.event_time)].  Python's sort is
    stable, and a stable sort has one possible result, which insertion
    from the right computes: an event is placed in front of the first
    later event whose time is not smaller. *)
Fixpoint insert_by_time (e : CloudTrailEvent) (l : list CloudTrailEvent)
  : list CloudTrailEvent :=
  match l with
  | [] => [e]
  | y :: l' =>
      if event_time e <=? event_time y then e :: y :: l'
      else y :: insert_by_time e l'
  end.

Definition sorted_by_time (events : list CloudTrailEvent) : list CloudTrailEvent :=
  foldr insert_by_time [] events.

(** The loop state of the failure scan: [(max_seq, current_seq)]. *)
Definition scan_step (st : Z * Z) (failed : bool) : Z * Z :=
  if failed then (Z.max st.1 (st.2 + 1), st.2 + 1) else (st.1, 0).

Definition scan_failures (flags : list bool) : Z :=
  (fold_left scan_step flags (0, 0)).1.

Definition failed (e : CloudTrailEvent) : bool := opt_truthy (error_code e).

Definition _max_consecutive_failures (events : list CloudTrailEvent) : Z :=
  scan_failures (map failed (sorted_by_time events)).

(** [user_events[evt.user_arn].append(evt)] on an insertion-ordered dict. *)
Fixpoint append_event (e : CloudTrailEvent)
    (groups : list (string * list CloudTrailEvent))
  : list (string * list CloudTrailEvent) :=
  match groups with
  | [] => [(user_arn e, [e])]
  | (arn, evts) :: rest =>
      if String.eqb arn (user_arn e) then (arn, evts ++ [e]) :: rest
      else (arn, evts) :: append_event e rest
  end.

Definition group_by_user (events : list CloudTrailEvent)
  : list (string * list CloudTrailEvent) :=
  fold_left (fun groups e => append_event e groups) events [].

(** [{e.source_ip for e in user_evts if e.source_ip}] and the same for
    regions. *)
Definition truthy_set (xs : list string) : gset string :=
  list_to_set (List.filter str_truthy xs).

Definition ip_set (user_evts : list CloudTrailEvent) : gset string :=
  truthy_set (map source_ip user_evts).

Definition region_set (user_evts : list CloudTrailEvent) : gset string :=
  truthy_set (map aws_region user_evts).

(** The body of the per-user loop of [extract_user_features]. *)
Definition user_features (arn : string) (user_evts : list CloudTrailEvent)
  : UserFeatures :=
  let event_name_counter := Counter (map event_name user_evts) in
  let times := map event_time user_evts in
  {| uf_user_arn := arn;
     total_events := Z.of_nat (length user_evts);
     unique_event_names := Z.of_nat (size event_name_counter);
     unique_ips := Z.of_nat (size (ip_set user_evts));
     high_risk_event_count := count_if is_high_risk user_evts;
     failed_event_count := count_if failed user_evts;
     off_hours_event_count :=
       count_if (fun e => _is_off_hours (event_time e)) user_evts;
     consecutive_failures := _max_consecutive_failures user_evts;
     mfa_missing_high_risk :=
       count_if (fun e => is_high_risk e && negb (mfa_used e)) user_evts;
     admin_action_count :=
       count_if (fun e => bool_decide (event_name e ∈ ADMIN_EVENTS)) user_evts;
     unique_regions := Z.of_nat (size (region_set user_evts));
     ip_list := elements (ip_set user_evts);
     event_counts := event_name_counter;
     first_seen := min_time times;
     last_seen := max_time times |}.

Definition extract_user_features (events : list CloudTrailEvent)
  : list UserFeatures :=
  map (fun g => user_features g.1 g.2) (group_by_user events).

(** ** Rule engine ([app/services/anomaly_engine.py]) *)

(** [RuleEngine.evaluate]: every rule is checked, in this order; the
    three quotients are the only operations that can raise. *)
Definition evaluate (uf : UserFeatures) : option (list string) :=
  let triggered := [] in
  let total := Z.max (total_events uf) 1 in
  r01 ← truediv (off_hours_event_count uf) total;
  let triggered :=
    if Qgtb r01 0.30 then triggered ++ ["R01_OFF_HOURS_ACCESS"] else triggered in
  r02 ← truediv (high_risk_event_count uf) total;
  let triggered :=
    if Qgtb r02 0.20 then triggered ++ ["R02_HIGH_RISK_RATIO"] else triggered in
  let triggered :=
    if 1 <=? mfa_missing_high_risk uf
    then triggered ++ ["R03_HIGH_RISK_NO_MFA"] else triggered in
  let triggered :=
    if 3 <=? unique_ips uf
    then triggered ++ ["R04_MULTIPLE_SOURCE_IPS"] else triggered in
  r05 ← truediv (failed_event_count uf) total;
  let triggered :=
    if Qgtb r05 0.40 then triggered ++ ["R05_HIGH_FAILURE_RATE"] else triggered in
  let triggered :=
    if 5 <=? consecutive_failures uf
    then triggered ++ ["R06_CONSECUTIVE_FAILURES"] else triggered in
  let triggered :=
    if 5 <=? admin_action_count uf
    then triggered ++ ["R07_EXCESSIVE_ADMIN_ACTIONS"] else triggered in
  let triggered :=
    if 2 <=? unique_regions uf
    then triggered ++ ["R08_MULTI_REGION_ACTIVITY"] else triggered in
  let triggered :=
    if 100 <? total_events uf
    then triggered ++ ["R09_EVENT_BURST"] else triggered in
  Some triggered.

(** ** ML detector and detection pipeline ([app/services/anomaly_engine.py]) *)

Record DetectionResult := {
  dr_user_arn : string;
  is_anomaly : bool;
  detection_method : string;
  triggered_rules : list string;
  ml_anomaly_score : Q;
  details : list (string * Z);
}.

(** [{uf.user_arn: 0.0 for uf in features_list}]. *)
Definition neutral_scores (features_list : list UserFeatures) : gmap string Q :=
  fold_left (fun m uf => <[uf_user_arn uf := 0%Q]> m) features_list ∅.

Section Engine.

(** The scikit-learn dependency, left abstract: whether its import
    succeeds, and [decision_function contamination features_list i],
    the score that the isolation forest fitted on the standardised
    vectors of [features_list] gives to row [i]. *)
Variable sklearn_available : bool.
Variable decision_function : Q -> list UserFeatures -> nat -> Q.

(** [MLAnomalyDetector.fit_predict]. *)
Definition fit_predict (contamination : Q) (features_list : list UserFeatures)
  : gmap string Q :=
  if negb sklearn_available then neutral_scores features_list
  else if (length features_list <? 2)%nat then neutral_scores features_list
  else
    let scores := decision_function contamination features_list in
    fold_left (fun m iu => <[uf_user_arn iu.2 := scores iu.1]> m)
              (imap (fun i uf => (i, uf)) features_list) ∅.

(** The body of the loop of [AnomalyEngine.detect]. *)
Definition detect_one (ml_threshold : Q) (ml_scores : gmap string Q)
    (uf : UserFeatures) : option DetectionResult :=
  triggered ← evaluate uf;
  let rule_anomaly := (0 <? length triggered)%nat in
  let ml_score := default 0%Q (ml_scores !! uf_user_arn uf) in
  let ml_anomaly := Qle_bool ml_score ml_threshold in
  let method :=
    if rule_anomaly && ml_anomaly then "both"
    else if rule_anomaly then "rule"
    else if ml_anomaly then "ml"
    else "none" in
  Some {| dr_user_arn := uf_user_arn uf;
          is_anomaly := rule_anomaly || ml_anomaly;
          detection_method := method;
          triggered_rules := triggered;
          ml_anomaly_score := ml_score;
          details :=
            [ ("total_events", total_events uf);
              ("high_risk_events", high_risk_event_count uf);
              ("failed_events", failed_event_count uf);
              ("off_hours_events", off_hours_event_count uf);
              ("unique_ips", unique_ips uf);
              ("mfa_missing_high_risk", mfa_missing_high_risk uf) ] |}.

(** [AnomalyEngine(ml_threshold, contamination).detect(features_list)]. *)
Definition detect (ml_threshold contamination : Q)
    (features_list : list UserFeatures) : option (list DetectionResult) :=
  let ml_scores := fit_predict contamination features_list in
  mapM (detect_one ml_threshold ml_scores) features_list.

End Engine.

(** The defaults of [AnomalyEngine.__init__]. *)
Definition default_ml_threshold : Q := 0.0.
Definition default_contamination : Q := 0.10.

(** ** Risk scoring ([app/services/risk_scoring.py]) *)

Record RiskScore := {
  rs_user_arn : string;
  score : Q;
  level : string;
  score_breakdown : gmap string Q;
  recommendations : list string;
}.

Definition RULE_BASE_SCORES : gmap string Q :=
  list_to_map
    [ ("R01_OFF_HOURS_ACCESS", 10.0%Q);
      ("R02_HIGH_RISK_RATIO", 15.0%Q);
      ("R03_HIGH_RISK_NO_MFA", 20.0%Q);
      ("R04_MULTIPLE_SOURCE_IPS", 10.0%Q);
      ("R05_HIGH_FAILURE_RATE", 15.0%Q);
      ("R06_CONSECUTIVE_FAILURES", 20.0%Q);
      ("R07_EXCESSIVE_ADMIN_ACTIONS", 18.0%Q);
      ("R08_MULTI_REGION_ACTIVITY", 8.0%Q);
      ("R09_EVENT_BURST", 10.0%Q) ].

Definition ML_ANOMALY_BONUS : Q := 15.0.
Definition MAX_SCORE : Q := 100.0.

Definition _level (score : Q) : string :=
  if Qgeb score 80 then "CRITICAL"
  else if Qgeb score 60 then "HIGH"
  else if Qgeb score 40 then "MEDIUM"
  else "LOW".

Definition rec_mfa : string := "즉시 해당 계정에 MFA(다단계 인증) 적용 필요".
Definition rec_consecutive : string :=
  "연속 인증 실패 감지 — 계정 잠금 또는 IP 차단 검토".
Definition rec_admin : string :=
  "최소 권한 원칙(PoLP) 재검토 — 불필요한 관리자 정책 제거".
Definition rec_ips : string :=
  "비정상 IP 접근 확인 — VPC 엔드포인트 또는 IP 허용목록 적용 검토".
Definition rec_off_hours : string :=
  "야간 접속 패턴 확인 — 비업무시간 접근 제한 정책 검토".
Definition rec_region : string :=
  "AWS SCP(서비스 제어 정책)로 허용 리전 제한 검토".
Definition rec_ml : string :=
  "ML 모델이 통계적 이상 패턴 감지 — 로그 상세 수동 검토 권고".
Definition rec_urgent : string :=
  "[긴급] 해당 IAM 계정/Role 즉시 비활성화 후 조사 시작".
Definition rec_none : string :=
  "현재 탐지된 이상 없음 — 정기 모니터링 유지".

(** [if rule in result.triggered_rules: recs.append(sentence)]. *)
Definition append_if_triggered (result : DetectionResult)
    (rule sentence : string) (recs : list string) : list string :=
  if bool_decide (rule ∈ triggered_rules result) then recs ++ [sentence]
  else recs.

(** [result.detection_method in ("ml", "both")]. *)
Definition ml_contributed (result : DetectionResult) : bool :=
  bool_decide (detection_method result ∈ ["ml"; "both"]).

Definition _recommendations (result : DetectionResult) (uf : UserFeatures)
    (level : string) : list string :=
  let recs := [] in
  let recs := append_if_triggered result "R03_HIGH_RISK_NO_MFA" rec_mfa recs in
  let recs :=
    append_if_triggered result "R06_CONSECUTIVE_FAILURES" rec_consecutive recs in
  let recs :=
    append_if_triggered result "R07_EXCESSIVE_ADMIN_ACTIONS" rec_admin recs in
  let recs := append_if_triggered result "R04_MULTIPLE_SOURCE_IPS" rec_ips recs in
  let recs := append_if_triggered result "R01_OFF_HOURS_ACCESS" rec_off_hours recs in
  let recs :=
    append_if_triggered result "R08_MULTI_REGION_ACTIVITY" rec_region recs in
  let recs := if ml_contributed result then recs ++ [rec_ml] else recs in
  let recs := if String.eqb level "CRITICAL" then rec_urgent :: recs else recs in
  let recs := if (length recs =? 0)%nat then recs ++ [rec_none] else recs in
  recs.

(** The two accumulators of [calculate_risk_score]. *)
Record ScoreAcc := {
  breakdown : gmap string Q;
  total : Q;
}.

(** Step 1, one iteration: [pts = RULE_BASE_SCORES.get(rule, 5.0)]. *)
Definition rule_points (rule : string) : Q :=
  default 5.0%Q (RULE_BASE_SCORES !! rule).

Definition add_rule (acc : ScoreAcc) (rule : string) : ScoreAcc :=
  let pts := rule_points rule in
  {| breakdown := <[rule := pts]> (breakdown acc);
     total := (total acc + pts)%Q |}.

(** Step 2: the ML bonus. *)
Definition add_ml_bonus (result : DetectionResult) (acc : ScoreAcc) : ScoreAcc :=
  if ml_contributed result then
    {| breakdown := <["ML_ANOMALY" := ML_ANOMALY_BONUS]> (breakdown acc);
       total := (total acc + ML_ANOMALY_BONUS)%Q |}
  else acc.

(** Step 3: the linear penalty for consecutive failures. *)
Definition consec_penalty (uf : UserFeatures) : Q :=
  py_min (inject_Z (consecutive_failures uf) * 1.0) 10.0.

Definition add_consec_penalty (uf : UserFeatures) (acc : ScoreAcc) : ScoreAcc :=
  if Qgtb (consec_penalty uf) 0 then
    {| breakdown := <["CONSECUTIVE_FAIL_PENALTY" := consec_penalty uf]> (breakdown acc);
       total := (total acc + consec_penalty uf)%Q |}
  else acc.

(** Steps 1 to 3 in sequence. *)
Definition accumulate (result : DetectionResult) (uf : UserFeatures) : ScoreAcc :=
  add_consec_penalty uf
    (add_ml_bonus result
       (fold_left add_rule (triggered_rules result)
                  {| breakdown := ∅; total := 0.0%Q |})).

Definition calculate_risk_score (result : DetectionResult) (uf : UserFeatures)
  : RiskScore :=
  let acc := accumulate result uf in
  let final_score := py_min (total acc) MAX_SCORE in
  let level := _level final_score in
  let recs := _recommendations result uf level in
  {| rs_user_arn := dr_user_arn result;
     score := round2 final_score;
     level := level;
     score_breakdown := breakdown acc;
     recommendations := recs |}.

(** ** The minimal detector ([iam-mvp/detector.py]) *)

Module Mvp.

(** [e["user_arn"]] on an event dict. *)
Definition event_arn : CloudTrailEvent -> string := user_arn.

Record UserFeatures := {
  user_arn : string;
  total_events : Z;
  off_hours_events : Z;
  high_risk_events : Z;
  mfa_missing_high_risk : Z;
  unique_ips : Z;
  failed_events : Z;
  consecutive_failures : Z;
  admin_action_count : Z;
  unique_regions : Z;
}.

Definition ADMIN_EVENTS : gset string :=
  list_to_set
    [ "CreateUser"; "DeleteUser"; "AttachUserPolicy"; "DetachUserPolicy";
      "PutUserPolicy"; "CreateRole"; "AttachRolePolicy"; "CreateAccessKey" ].

(** A bucket of [extract_features]: the events of one user in input
    order, and every source IP and region seen, empty strings included. *)
Record Bucket := {
  events : list CloudTrailEvent;
  ips : gset string;
  regions : gset string;
}.

Fixpoint add_to_bucket (e : CloudTrailEvent) (buckets : list (string * Bucket))
  : list (string * Bucket) :=
  match buckets with
  | [] =>
      [(event_arn e,
        {| events := [e]; ips := {[ source_ip e ]}; regions := {[ aws_region e ]} |})]
  | (arn, b) :: rest =>
      if String.eqb arn (event_arn e) then
        (arn, {| events := events b ++ [e];
                 ips := ips b ∪ {[ source_ip e ]};
                 regions := regions b ∪ {[ aws_region e ]} |}) :: rest
      else (arn, b) :: add_to_bucket e rest
  end.

(** The failure scan of [extract_features], over the bucket as it is. *)
Definition max_consec (evts : list CloudTrailEvent) : Z :=
  scan_failures (map failed evts).

Definition bucket_features (arn : string) (b : Bucket) : UserFeatures :=
  let evts := events b in
  {| user_arn := arn;
     total_events := Z.of_nat (length evts);
     off_hours_events :=
       count_if (fun e => (22 <=? hour (event_time e)) || (hour (event_time e) <? 6)) evts;
     high_risk_events := count_if is_high_risk evts;
     mfa_missing_high_risk :=
       count_if (fun e => is_high_risk e && negb (mfa_used e)) evts;
     unique_ips := Z.of_nat (size (ips b));
     failed_events := count_if failed evts;
     consecutive_failures := max_consec evts;
     admin_action_count :=
       count_if (fun e => bool_decide (event_name e ∈ ADMIN_EVENTS)) evts;
     unique_regions := Z.of_nat (size (regions b)) |}.

Definition extract_features (evts : list CloudTrailEvent) : list UserFeatures :=
  map (fun ab => bucket_features ab.1 ab.2)
      (fold_left (fun buckets e => add_to_bucket e buckets) evts []).

(** A quotient compared with a float literal, as the ratio lambdas do. *)
Definition ratio_above (num den : Z) (bound : Q) : option bool :=
  r ← truediv num den; Some (Qgtb r bound).

Definition RULES : list (string * Q * (UserFeatures -> option bool)) :=
  [ ("R01_OFF_HOURS", 10.0%Q,
     fun uf => ratio_above (off_hours_events uf) (Z.max (total_events uf) 1) 0.30);
    ("R02_HIGH_RISK_RATIO", 15.0%Q,
     fun uf => ratio_above (high_risk_events uf) (Z.max (total_events uf) 1) 0.20);
    ("R03_NO_MFA", 20.0%Q, fun uf => Some (1 <=? mfa_missing_high_risk uf));
    ("R04_MULTI_IP", 10.0%Q, fun uf => Some (3 <=? unique_ips uf));
    ("R05_HIGH_FAIL_RATE", 15.0%Q,
     fun uf => ratio_above (failed_events uf) (Z.max (total_events uf) 1) 0.40);
    ("R06_CONSEC_FAIL", 20.0%Q, fun uf => Some (5 <=? consecutive_failures uf));
    ("R07_ADMIN_ABUSE", 18.0%Q, fun uf => Some (5 <=? admin_action_count uf));
    ("R08_MULTI_REGION", 8.0%Q, fun uf => Some (2 <=? unique_regions uf));
    ("R09_EVENT_BURST", 10.0%Q, fun uf => Some (100 <? total_events uf)) ].

(** [[rid for rid, _, check in RULES if check(uf)]]. *)
Fixpoint triggered_of (rules : list (string * Q * (UserFeatures -> option bool)))
    (uf : UserFeatures) : option (list string) :=
  match rules with
  | [] => Some []
  | (rid, _, check) :: rest =>
      hit ← check uf;
      tl ← triggered_of rest uf;
      Some (if (hit : bool) then rid :: tl else tl)
  end.

Definition _risk_level (score : Q) : string :=
  if Qgeb score 80 then "CRITICAL"
  else if Qgeb score 60 then "HIGH"
  else if Qgeb score 40 then "MEDIUM"
  else "LOW".

Definition _score (uf : UserFeatures) (triggered : list string) (ml_anomaly : bool)
  : Q * gmap string Q :=
  let acc :=
    fold_left
      (fun (acc : gmap string Q * Q)
           (rule : string * Q * (UserFeatures -> option bool)) =>
         if bool_decide (rule.1.1 ∈ triggered)
         then (<[rule.1.1 := rule.1.2]> acc.1, (acc.2 + rule.1.2)%Q)
         else acc)
      RULES (∅, 0.0%Q) in
  let acc :=
    if ml_anomaly then (<["ML_ANOMALY" := 15.0%Q]> acc.1, (acc.2 + 15.0)%Q)
    else acc in
  let penalty := py_min (inject_Z (consecutive_failures uf) * 1.0) 10.0 in
  let acc :=
    if Qgtb penalty 0 then (<["CONSEC_PENALTY" := penalty]> acc.1, (acc.2 + penalty)%Q)
    else acc in
  (py_min acc.2 100.0, acc.1).

(** [_ml_anomalies]: the guard on the batch size comes first and then
    the import guard; both answer [False] for every user. *)
Definition _ml_anomalies (sklearn_available : bool)
    (fit_predict : list UserFeatures -> nat -> Z)
    (features_list : list UserFeatures) : gmap string bool :=
  let no_anomaly :=
    fold_left (fun m uf => <[user_arn uf := false]> m) features_list ∅ in
  if (length features_list <? 2)%nat then no_anomaly
  else if negb sklearn_available then no_anomaly
  else
    fold_left (fun m iu => <[user_arn iu.2 := fit_predict features_list iu.1 =? -1]> m)
              (imap (fun i uf => (i, uf)) features_list) ∅.

End Mvp.

(** * Auxiliary definitions for the statements *)

(** The rule catalog: the keys of [RULE_BASE_SCORES], in the order of the
    rule engine. *)
Definition catalog : list string :=
  [ "R01_OFF_HOURS_ACCESS"; "R02_HIGH_RISK_RATIO"; "R03_HIGH_RISK_NO_MFA";
    "R04_MULTIPLE_SOURCE_IPS"; "R05_HIGH_FAILURE_RATE";
    "R06_CONSECUTIVE_FAILURES"; "R07_EXCESSIVE_ADMIN_ACTIONS";
    "R08_MULTI_REGION_ACTIVITY"; "R09_EVENT_BURST" ].

(** The sum of the points of a list of triggered rules. *)
Definition points_sum (rules : list string) : Q :=
  foldr (fun r s => (rule_points r + s)%Q) 0%Q rules.

(** The contribution of the ML signal and of the failure streak. *)
Definition ml_points (result : DetectionResult) : Q :=
  if ml_contributed result then ML_ANOMALY_BONUS else 0%Q.

Definition penalty_points (uf : UserFeatures) : Q :=
  if Qgtb (consec_penalty uf) 0 then consec_penalty uf else 0%Q.

(** The order of the four levels. *)
Definition level_rank (level : string) : Z :=
  if String.eqb level "CRITICAL" then 3
  else if String.eqb level "HIGH" then 2
  else if String.eqb level "MEDIUM" then 1
  else 0.


(** A quotient of two counters with the divisor floored at 1. *)
Definition ratio (num den : Z) : Q := (inject_Z num / inject_Z (Z.max den 1))%Q.

(** The rule catalog as a table: identifier and verdict, in catalog
    order. *)
Definition rule_checks (uf : UserFeatures) : list (string * bool) :=
  [ ("R01_OFF_HOURS_ACCESS",
     Qgtb (ratio (off_hours_event_count uf) (total_events uf)) 0.30);
    ("R02_HIGH_RISK_RATIO",
     Qgtb (ratio (high_risk_event_count uf) (total_events uf)) 0.20);
    ("R03_HIGH_RISK_NO_MFA", 1 <=? mfa_missing_high_risk uf);
    ("R04_MULTIPLE_SOURCE_IPS", 3 <=? unique_ips uf);
    ("R05_HIGH_FAILURE_RATE",
     Qgtb (ratio (failed_event_count uf) (total_events uf)) 0.40);
    ("R06_CONSECUTIVE_FAILURES", 5 <=? consecutive_failures uf);
    ("R07_EXCESSIVE_ADMIN_ACTIONS", 5 <=? admin_action_count uf);
    ("R08_MULTI_REGION_ACTIVITY", 2 <=? unique_regions uf);
    ("R09_EVENT_BURST", 100 <? total_events uf) ].

(** The identifiers of the table whose verdict is true. *)
Definition rules_triggered (uf : UserFeatures) : list string :=
  map fst (List.filter snd (rule_checks uf)).

(** The same table for the minimal detector. *)
Definition mvp_rule_checks (uf : Mvp.UserFeatures) : list (string * bool) :=
  [ ("R01_OFF_HOURS",
     Qgtb (ratio (Mvp.off_hours_events uf) (Mvp.total_events uf)) 0.30);
    ("R02_HIGH_RISK_RATIO",
     Qgtb (ratio (Mvp.high_risk_events uf) (Mvp.total_events uf)) 0.20);
    ("R03_NO_MFA", 1 <=? Mvp.mfa_missing_high_risk uf);
    ("R04_MULTI_IP", 3 <=? Mvp.unique_ips uf);
    ("R05_HIGH_FAIL_RATE",
     Qgtb (ratio (Mvp.failed_events uf) (Mvp.total_events uf)) 0.40);
    ("R06_CONSEC_FAIL", 5 <=? Mvp.consecutive_failures uf);
    ("R07_ADMIN_ABUSE", 5 <=? Mvp.admin_action_count uf);
    ("R08_MULTI_REGION", 2 <=? Mvp.unique_regions uf);
    ("R09_EVENT_BURST", 100 <? Mvp.total_events uf) ].

(** Whether at least one rule triggered, and whether the ML score is at
    or below the threshold: the two signals that [detect] combines. *)
Definition rules_fired (r : DetectionResult) : Prop := triggered_rules r <> [].

Definition outlier_flag (ml_threshold : Q) (r : DetectionResult) : Prop :=
  (ml_anomaly_score r <= ml_threshold)%Q.

(** ** Example inputs *)

Definition noon : Z := 12 * 3600000000.

(** An event of user [arn] at [t] microseconds. *)
Definition event_at (arn : string) (t : Z) (name ip : string)
    (err : option string) (high_risk : bool) : CloudTrailEvent :=
  {| event_time := t; event_name := name; aws_region := "ap-northeast-2";
     source_ip := ip; user_arn := arn; mfa_used := false;
     error_code := err; is_high_risk := high_risk |}.

Definition bob : string := "arn:aws:iam::123456789012:user/bob".
Definition alice : string := "arn:aws:iam::123456789012:user/alice".

(** A batch with one account: three successful read-only calls at noon
    from one address. *)
Definition quiet_batch : list CloudTrailEvent :=
  [ event_at bob noon "DescribeInstances" "10.0.0.5" None false;
    event_at bob (noon + 1000000) "ListBuckets" "10.0.0.5" None false;
    event_at bob (noon + 2000000) "DescribeInstances" "10.0.0.5" None false ].

(** Events in ascending time order. *)
Definition time_le (a b : CloudTrailEvent) : Prop := event_time a <= event_time b.

(** The number of leading failures of a sequence of flags, and the length
    of its longest block of consecutive failures. *)
Fixpoint leading_failures (flags : list bool) : Z :=
  match flags with
  | true :: rest => 1 + leading_failures rest
  | _ => 0
  end.

Fixpoint longest_run (flags : list bool) : Z :=
  match flags with
  | [] => 0
  | true :: rest => Z.max (1 + leading_failures rest) (longest_run rest)
  | false :: rest => longest_run rest
  end.

(** Six events of one account within the same clock tick: five denied
    calls and one success, in two input orders. *)
Definition denied (name : string) : CloudTrailEvent :=
  event_at alice noon name "203.0.113.7" (Some "AccessDenied") false.

Definition allowed (name : string) : CloudTrailEvent :=
  event_at alice noon name "203.0.113.7" None false.

Definition tied_run_of_five : list CloudTrailEvent :=
  [ denied "GetUser"; denied "ListUsers"; denied "ListRoles";
    denied "GetRole"; denied "ListPolicies"; allowed "GetCallerIdentity" ].

Definition tied_run_of_three : list CloudTrailEvent :=
  [ denied "GetUser"; denied "ListUsers"; allowed "GetCallerIdentity";
    denied "ListRoles"; denied "GetRole"; denied "ListPolicies" ].

(** The same six calls one second apart, in time order and with the
    success moved forward in the input. *)
Definition denied_at (t : Z) (name : string) : CloudTrailEvent :=
  event_at alice t name "203.0.113.7" (Some "AccessDenied") false.

Definition spaced_in_order : list CloudTrailEvent :=
  [ denied_at noon "GetUser"; denied_at (noon + 1000000) "ListUsers";
    denied_at (noon + 2000000) "ListRoles"; denied_at (noon + 3000000) "GetRole";
    denied_at (noon + 4000000) "ListPolicies";
    event_at alice (noon + 5000000) "GetCallerIdentity" "203.0.113.7" None false ].

Definition spaced_shuffled : list CloudTrailEvent :=
  [ denied_at noon "GetUser"; denied_at (noon + 1000000) "ListUsers";
    event_at alice (noon + 5000000) "GetCallerIdentity" "203.0.113.7" None false;
    denied_at (noon + 2000000) "ListRoles"; denied_at (noon + 3000000) "GetRole";
    denied_at (noon + 4000000) "ListPolicies" ].

(** Events of a partition that carry the same timestamp agree on whether
    they failed.  Pairwise different timestamps are a special case. *)
Definition ties_agree (events : list CloudTrailEvent) : Prop :=
  forall e1 e2 : CloudTrailEvent,
    e1 ∈ events -> e2 ∈ events ->
    event_time e1 = event_time e2 -> failed e1 = failed e2.

(** What the sort and the scan read of an event: its timestamp and whether
    [error_code] is truthy. *)
Definition time_and_flag (e : CloudTrailEvent) : Z * bool :=
  (event_time e, failed e).

(** The events of a partition stamped [t], in the order of the list. *)
Definition stamped (t : Z) (events : list CloudTrailEvent) : list CloudTrailEvent :=
  List.filter (fun e => event_time e =? t) events.

(** A burst of five denied calls within one clock tick followed, a second
    later, by a successful call; and the same events listed in another
    order. *)
Definition burst_in_order : list CloudTrailEvent :=
  [ denied "GetUser"; denied "ListUsers"; denied "ListRoles";
    denied "GetRole"; denied "ListPolicies";
    event_at alice (noon + 1000000) "GetCallerIdentity" "203.0.113.7" None false ].

Definition burst_shuffled : list CloudTrailEvent :=
  [ event_at alice (noon + 1000000) "GetCallerIdentity" "203.0.113.7" None false;
    denied "ListPolicies"; denied "GetRole"; denied "GetUser";
    denied "ListRoles"; denied "ListUsers" ].

(** ** Recommendations, as a table *)

(** The rules that have a remediation sentence, in the order in which
    [_recommendations] tests them. *)
Definition remediation_table : list (string * string) :=
  [ ("R03_HIGH_RISK_NO_MFA", rec_mfa);
    ("R06_CONSECUTIVE_FAILURES", rec_consecutive);
    ("R07_EXCESSIVE_ADMIN_ACTIONS", rec_admin);
    ("R04_MULTIPLE_SOURCE_IPS", rec_ips);
    ("R01_OFF_HOURS_ACCESS", rec_off_hours);
    ("R08_MULTI_REGION_ACTIVITY", rec_region) ].

(** The sentences of the triggered rules of a table, in table order. *)
Definition sentences_of (table : list (string * string)) (result : DetectionResult)
  : list string :=
  map snd (List.filter (fun p => bool_decide (p.1 ∈ triggered_rules result)) table).

(** The list that would be returned before the empty-list fallback. *)
Definition recommendations_before_fallback (table : list (string * string))
    (result : DetectionResult) (level : string) : list string :=
  (if String.eqb level "CRITICAL" then [rec_urgent] else [])
  ++ sentences_of table result
  ++ (if ml_contributed result then [rec_ml] else []).

Definition recommendations_from (table : list (string * string))
    (result : DetectionResult) (level : string) : list string :=
  match recommendations_before_fallback table result level with
  | [] => [rec_none]
  | recs => recs
  end.

(** The same table in rule catalog order, as the specification words it. *)
Definition remediation_table_catalog_order : list (string * string) :=
  [ ("R01_OFF_HOURS_ACCESS", rec_off_hours);
    ("R03_HIGH_RISK_NO_MFA", rec_mfa);
    ("R04_MULTIPLE_SOURCE_IPS", rec_ips);
    ("R06_CONSECUTIVE_FAILURES", rec_consecutive);
    ("R07_EXCESSIVE_ADMIN_ACTIONS", rec_admin);
    ("R08_MULTI_REGION_ACTIVITY", rec_region) ].

(** A stand-in for the fitted forest in examples: the row [flagged] gets a
    negative score, every other row a positive one. *)
Definition forest_flagging (flagged : nat) : Q -> list UserFeatures -> nat -> Q :=
  fun _ _ i => if (i =? flagged)%nat then (-0.08)%Q else 0.06%Q.

Definition carol : string := "arn:aws:iam::123456789012:user/carol".

(** Two accounts.  Alice creates access keys at 23:00 UTC without MFA;
    Bob is the quiet account of [quiet_batch]. *)
Definition night : Z := 23 * 3600000000.

Definition night_batch : list CloudTrailEvent :=
  [ event_at alice night "CreateAccessKey" "198.51.100.4" None true;
    event_at alice (night + 60000000) "CreateAccessKey" "198.51.100.4" None true ]
  ++ quiet_batch.

(** Two accounts.  Carol signs in four times at noon from one address,
    without MFA; every sign-in is a high-risk action. *)
Definition carol_events : list CloudTrailEvent :=
  [ event_at carol noon "ConsoleLogin" "192.0.2.10" None true;
    event_at carol (noon + 60000000) "ConsoleLogin" "192.0.2.10" None true;
    event_at carol (noon + 120000000) "ConsoleLogin" "192.0.2.10" None true;
    event_at carol (noon + 180000000) "ConsoleLogin" "192.0.2.10" None true ].

Definition signin_batch : list CloudTrailEvent :=
  carol_events
  ++ [ event_at alice night "CreateAccessKey" "198.51.100.4" None true;
       event_at alice (night + 60000000) "CreateAccessKey" "198.51.100.4" None true ].

(** [result] with another list of triggered rules. *)
Definition with_rules (result : DetectionResult) (rules : list string)
  : DetectionResult :=
  {| dr_user_arn := dr_user_arn result;
     is_anomaly := is_anomaly result;
     detection_method := detection_method result;
     triggered_rules := rules;
     ml_anomaly_score := ml_anomaly_score result;
     details := details result |}.

(** A feature record with the given counters and nothing else. *)
Definition features_of_counts (arn : string)
    (n_total n_high_risk n_failed n_streak : Z) : UserFeatures :=
  {| uf_user_arn := arn; total_events := n_total; unique_event_names := 1;
     unique_ips := 1; high_risk_event_count := n_high_risk;
     failed_event_count := n_failed; off_hours_event_count := 0;
     consecutive_failures := n_streak; mfa_missing_high_risk := 0;
     admin_action_count := 0; unique_regions := 1; ip_list := ["10.0.0.5"];
     event_counts := {[ "DescribeInstances" := n_total ]};
     first_seen := Some noon; last_seen := Some noon |}.

(** A detection result that carries a rule identifier outside the catalog. *)
Definition custom_rule_result : DetectionResult :=
  {| dr_user_arn := bob; is_anomaly := true; detection_method := "rule";
     triggered_rules := ["R03_HIGH_RISK_NO_MFA"; "R42_CUSTOM_RULE"];
     ml_anomaly_score := 0.06%Q; details := [] |}.

(** A result that lists the nine catalog rules and then an identifier
    outside the catalog; and a result that lists that identifier twice. *)
Definition saturated_result : DetectionResult :=
  with_rules custom_rule_result (catalog ++ ["R42_CUSTOM_RULE"]).

Definition repeated_rule_result : DetectionResult :=
  with_rules custom_rule_result ["R42_CUSTOM_RULE"; "R42_CUSTOM_RULE"].

(** The features of an account with three plain calls and no failure. *)
Definition quiet_features : UserFeatures := features_of_counts bob 3 0 0 0.

(** The feature records of two accounts and a detection result for each,
    in the same order. *)
Definition two_features : list UserFeatures :=
  [ quiet_features; features_of_counts alice 11 0 5 5 ].

Definition two_results : list DetectionResult :=
  [ custom_rule_result;
    {| dr_user_arn := alice; is_anomaly := true; detection_method := "rule";
       triggered_rules := ["R06_CONSECUTIVE_FAILURES"];
       ml_anomaly_score := 0.06%Q; details := [] |} ].

(** The events of one user, in input order. *)
Definition events_of (arn : string) (events : list CloudTrailEvent)
  : list CloudTrailEvent :=
  filter (fun e => user_arn e = arn) events.

(** A batch in which one of Bob's calls carries no source address and no
    region. *)
Definition blank_fields_batch : list CloudTrailEvent :=
  [ {| event_time := noon; event_name := "GetObject"; aws_region := "";
       source_ip := ""; user_arn := bob; mfa_used := false;
       error_code := None; is_high_risk := false |};
    event_at bob (noon + 1000000) "GetObject" "10.0.0.5" None false;
    event_at bob (noon + 2000000) "GetObject" "10.0.0.6" None false ].

(** * The rest of the pipeline *)

(** ** Ranking ([app/services/risk_scoring.py], [iam-mvp/detector.py]) *)

(** [sorted(l, key=key, reverse=True)] and [l.sort(key=key, reverse=True)].
    The sort is stable also in reverse: an element is placed in front of
    the first later element whose key is not larger. *)
Fixpoint insert_desc {A : Type} (key : A -> Q) (x : A) (l : list A) : list A :=
  match l with
  | [] => [x]
  | y :: l' =>
      if Qle_bool (key y) (key x) then x :: y :: l'
      else y :: insert_desc key x l'
  end.

Definition sort_desc {A : Type} (key : A -> Q) (l : list A) : list A :=
  foldr (insert_desc key) [] l.

(** [rank_users]. *)
Definition rank_users (risk_scores : list RiskScore) : list RiskScore :=
  sort_desc score risk_scores.

(** ** The scoring step of the callers ([app/api/detect.py],
    [tests/test_anomaly.py]) *)

(** [{uf.user_arn: uf for uf in features_list}]. *)
Definition features_map (features_list : list UserFeatures)
  : gmap string UserFeatures :=
  fold_left (fun m uf => <[uf_user_arn uf := uf]> m) features_list ∅.

(** The scoring step: the dict by user and the list comprehension over the
    detection results.  [features_map[dr.user_arn]] raises [KeyError] on a
    missing key, which ends the comprehension. *)
Definition score_results (features_list : list UserFeatures)
    (detection_results : list DetectionResult) : option (list RiskScore) :=
  let features_map := features_map features_list in
  mapM (fun dr => uf ← features_map !! dr_user_arn dr;
                  Some (calculate_risk_score dr uf))
       detection_results.

(** [sum(1 for r in results if r.is_anomaly)], where [results] holds one
    entry for each pair of [zip(detection_results, risk_scores)], with the
    [is_anomaly] of the detection result. *)
Definition anomaly_count (detection_results : list DetectionResult)
    (risk_scores : list RiskScore) : Z :=
  count_if (fun p : DetectionResult * RiskScore => is_anomaly p.1)
           (zip detection_results risk_scores).

(** ** The detection of the minimal detector ([iam-mvp/detector.py]) *)

Module MvpDetect.

(** [to_vector]. *)
Definition to_vector (uf : Mvp.UserFeatures) : option (list Q) :=
  let total := Z.max (Mvp.total_events uf) 1 in
  off ← truediv (Mvp.off_hours_events uf) total;
  high ← truediv (Mvp.high_risk_events uf) total;
  fail ← truediv (Mvp.failed_events uf) total;
  Some [ inject_Z (Mvp.total_events uf); off; high;
         inject_Z (Mvp.mfa_missing_high_risk uf);
         inject_Z (Mvp.unique_ips uf); fail;
         inject_Z (Mvp.consecutive_failures uf);
         inject_Z (Mvp.admin_action_count uf);
         inject_Z (Mvp.unique_regions uf) ].

(** One entry of the output of [detect]. *)
Record Output := {
  user_arn : string;
  is_anomaly : bool;
  risk_score : Q;
  risk_level : string;
  detection_method : string;
  triggered_rules : list string;
  score_breakdown : gmap string Q;
  stats : list (string * Z);
}.

(** The body of the loop of [detect]. *)
Definition detect_one (ml_result : gmap string bool) (uf : Mvp.UserFeatures)
  : option Output :=
  triggered ← Mvp.triggered_of Mvp.RULES uf;
  let rule_hit := (0 <? length triggered)%nat in
  let ml_hit := default false (ml_result !! Mvp.user_arn uf) in
  let sb := Mvp._score uf triggered ml_hit in
  let level := Mvp._risk_level sb.1 in
  let method :=
    if rule_hit && ml_hit then "both"
    else if rule_hit then "rule"
    else if ml_hit then "ml"
    else "none" in
  Some {| user_arn := Mvp.user_arn uf;
          is_anomaly := rule_hit || ml_hit;
          risk_score := round2 sb.1;
          risk_level := level;
          detection_method := method;
          triggered_rules := triggered;
          score_breakdown := sb.2;
          stats :=
            [ ("total_events", Mvp.total_events uf);
              ("high_risk", Mvp.high_risk_events uf);
              ("failed", Mvp.failed_events uf);
              ("unique_ips", Mvp.unique_ips uf);
              ("off_hours", Mvp.off_hours_events uf) ] |}.

(** [detect]: nothing for an empty batch, otherwise the entries sorted by
    risk score, highest first. *)
Definition detect (sklearn_available : bool)
    (fit_predict : list Mvp.UserFeatures -> nat -> Z)
    (events : list CloudTrailEvent) : option (list Output) :=
  let features_list := Mvp.extract_features events in
  match features_list with
  | [] => Some []
  | _ =>
      let ml_result := Mvp._ml_anomalies sklearn_available fit_predict features_list in
      output ← mapM (detect_one ml_result) features_list;
      Some (sort_desc risk_score output)
  end.

End MvpDetect.

(** * Auxiliary definitions for the further statements *)

(** A block of [n] consecutive failures somewhere in a sequence of flags. *)
Definition has_block (flags : list bool) (n : nat) : Prop :=
  exists before after : list bool, flags = before ++ repeat true n ++ after.

(** The sum of the entries of a score breakdown. *)
Definition breakdown_sum (m : gmap string Q) : Q :=
  foldr (fun kv s => (kv.2 + s)%Q) 0%Q (map_to_list m).

(** Scores in non-increasing order. *)
Definition score_ge {A : Type} (key : A -> Q) (a b : A) : Prop :=
  (key b <= key a)%Q.

(** The bucket that the minimal detector holds for a list of events. *)
Definition bucket_of (evts : list CloudTrailEvent) : Mvp.Bucket :=
  {| Mvp.events := evts;
     Mvp.ips := list_to_set (map source_ip evts);
     Mvp.regions := list_to_set (map aws_region evts) |}.

(** * Properties *)

(** ** Rational arithmetic of the Python primitives *)

Section QFacts.

Local Open Scope Q_scope.

Lemma Qgtb_true (x y : Q) : Qgtb x y = true <-> y < x.
Proof.
  unfold Qgtb. rewrite negb_true_iff.
  destruct (Qle_bool x y) eqn:E.
  - apply Qle_bool_iff in E. split; [discriminate | intros H; lra].
  - split; [intros _ | reflexivity].
    apply Qnot_le_lt. intros H. apply Qle_bool_iff in H. congruence.
Qed.

Lemma Qgtb_false (x y : Q) : Qgtb x y = false <-> x <= y.
Proof.
  unfold Qgtb. rewrite negb_false_iff. apply Qle_bool_iff.
Qed.

Lemma Qgeb_true (x y : Q) : Qgeb x y = true <-> y <= x.
Proof. unfold Qgeb. apply Qle_bool_iff. Qed.

Lemma Qgeb_false (x y : Q) : Qgeb x y = false <-> x < y.
Proof.
  unfold Qgeb. destruct (Qle_bool y x) eqn:E.
  - apply Qle_bool_iff in E. split; [discriminate | intros H; lra].
  - split; [intros _ | reflexivity].
    apply Qnot_le_lt. intros H. apply Qle_bool_iff in H. congruence.
Qed.

Lemma py_min_spec (a b : Q) :
  (a <= b /\ py_min a b = a) \/ (b < a /\ py_min a b = b).
Proof.
  unfold py_min. destruct (Qle_bool a b) eqn:E.
  - left. split; [now apply Qle_bool_iff | reflexivity].
  - right. split; [| reflexivity].
    apply Qnot_le_lt. intros H. apply Qle_bool_iff in H. congruence.
Qed.

Lemma py_min_le_r (a b : Q) : py_min a b <= b.
Proof. destruct (py_min_spec a b) as [[H ->] | [H ->]]; lra. Qed.

Lemma py_min_le_l (a b : Q) : py_min a b <= a.
Proof. destruct (py_min_spec a b) as [[H ->] | [H ->]]; lra. Qed.

Lemma py_min_glb (a b c : Q) : c <= a -> c <= b -> c <= py_min a b.
Proof. intros. destruct (py_min_spec a b) as [[H' ->] | [H' ->]]; lra. Qed.

Lemma py_min_id (a b : Q) : a <= b -> py_min a b = a.
Proof. intros H. destruct (py_min_spec a b) as [[_ ->] | [H' _]]; [reflexivity | lra]. Qed.

(** Rounding stays between any two integers that enclose the argument. *)
Lemma round_half_even_lower (a : Z) (q : Q) :
  inject_Z a <= q -> (a <= round_half_even q)%Z.
Proof.
  intros H. unfold round_half_even.
  assert (Hf : (a <= Qfloor q)%Z).
  { rewrite <- (Qfloor_Z a). now apply Qfloor_resp_le. }
  destruct (q - inject_Z (Qfloor q) ?= 1 # 2); [destruct (Z.even _) | |]; lia.
Qed.

Lemma round_half_even_upper (b : Z) (q : Q) :
  q <= inject_Z b -> (round_half_even q <= b)%Z.
Proof.
  intros H. unfold round_half_even.
  assert (Hf : (Qfloor q <= b)%Z).
  { rewrite <- (Qfloor_Z b). now apply Qfloor_resp_le. }
  pose proof (Qfloor_le q) as Hle.
  destruct (Z.eq_dec (Qfloor q) b) as [Heq | Hne].
  - destruct (Qcompare_spec (q - inject_Z (Qfloor q)) (1 # 2)) as [E | E | E];
      [destruct (Z.even _) | |]; try lia; exfalso; rewrite Heq in *; lra.
  - destruct (q - inject_Z (Qfloor q) ?= 1 # 2); [destruct (Z.even _) | |]; lia.
Qed.

Lemma round_half_even_int (z : Z) : round_half_even (inject_Z z) = z.
Proof.
  apply Z.le_antisymm.
  - apply round_half_even_upper. lra.
  - apply round_half_even_lower. lra.
Qed.

Lemma round_half_even_comp (p q : Q) :
  p == q -> round_half_even p = round_half_even q.
Proof.
  intros H. unfold round_half_even.
  rewrite (Qfloor_comp _ _ H).
  assert (E : p - inject_Z (Qfloor q) == q - inject_Z (Qfloor q)) by (rewrite H; reflexivity).
  now rewrite (Qcompare_comp _ _ E _ _ (Qeq_refl _)).
Qed.

Lemma round2_lower (a : Z) (q : Q) : inject_Z a <= q -> inject_Z a <= round2 q.
Proof.
  intros H. unfold round2.
  apply Qle_shift_div_l; [reflexivity |].
  assert (Hr : (a * 100 <= round_half_even (q * 100))%Z).
  { apply round_half_even_lower. rewrite inject_Z_mult. 
    change (inject_Z 100) with 100. lra. }
  rewrite Zle_Qle, inject_Z_mult in Hr. exact Hr.
Qed.

Lemma round2_upper (b : Z) (q : Q) : q <= inject_Z b -> round2 q <= inject_Z b.
Proof.
  intros H. unfold round2.
  apply Qle_shift_div_r; [reflexivity |].
  assert (Hr : (round_half_even (q * 100) <= b * 100)%Z).
  { apply round_half_even_upper. rewrite inject_Z_mult.
    change (inject_Z 100) with 100. lra. }
  rewrite Zle_Qle, inject_Z_mult in Hr. exact Hr.
Qed.

Lemma round2_comp (p q : Q) : p == q -> round2 p == round2 q.
Proof.
  intros H. unfold round2.
  rewrite (round_half_even_comp (p * 100) (q * 100)); [reflexivity |].
  now rewrite H.
Qed.

(** A whole number of points is its own rounding. *)
Lemma round2_int (z : Z) (q : Q) : q == inject_Z z -> round2 q == inject_Z z.
Proof.
  intros H. apply Qle_antisym.
  - apply round2_upper. lra.
  - apply round2_lower. lra.
Qed.

End QFacts.

(** ** The risk score: bounds and level thresholds *)

Section ScoreFacts.

Local Open Scope Q_scope.

Lemma rule_points_known (r : string) (pts : Q) :
  RULE_BASE_SCORES !! r = Some pts -> r ∈ catalog /\ 8 <= pts <= 20.
Proof.
  unfold RULE_BASE_SCORES. intros E.
  apply elem_of_list_to_map_2 in E.
  unfold catalog.
  repeat (apply elem_of_cons in E as [E | E];
          [ inversion E; subst; split; [set_solver | split; lra] | ]).
  inversion E.
Qed.

Lemma rule_points_unknown (r : string) :
  r ∉ catalog -> rule_points r = 5.0.
Proof.
  intros Hr. unfold rule_points.
  destruct (RULE_BASE_SCORES !! r) eqn:E; [| reflexivity].
  apply rule_points_known in E as [E _]. contradiction.
Qed.

Lemma rule_points_pos (r : string) : 5 <= rule_points r <= 20.
Proof.
  unfold rule_points.
  destruct (RULE_BASE_SCORES !! r) eqn:E; simpl.
  - apply rule_points_known in E as [_ E]. lra.
  - lra.
Qed.

Lemma points_sum_nonneg (l : list string) : 0 <= points_sum l.
Proof.
  induction l as [| r l IH]; simpl; [lra |].
  pose proof (rule_points_pos r). lra.
Qed.

Lemma points_sum_app (l1 l2 : list string) :
  points_sum (l1 ++ l2) == points_sum l1 + points_sum l2.
Proof.
  induction l1 as [| r l1 IH]; simpl; [lra | rewrite IH; lra].
Qed.

Lemma total_fold_add_rule (l : list string) (acc : ScoreAcc) :
  total (fold_left add_rule l acc) == total acc + points_sum l.
Proof.
  revert acc. induction l as [| r l IH]; intros acc; simpl; [lra |].
  rewrite IH. simpl. lra.
Qed.

Lemma total_add_ml_bonus (result : DetectionResult) (acc : ScoreAcc) :
  total (add_ml_bonus result acc) == total acc + ml_points result.
Proof.
  unfold add_ml_bonus, ml_points. destruct (ml_contributed result); simpl; lra.
Qed.

Lemma total_add_consec_penalty (uf : UserFeatures) (acc : ScoreAcc) :
  total (add_consec_penalty uf acc) == total acc + penalty_points uf.
Proof.
  unfold add_consec_penalty, penalty_points.
  destruct (Qgtb (consec_penalty uf) 0); simpl; lra.
Qed.

(** The uncapped total is the sum of the three contributions. *)
Lemma total_accumulate (result : DetectionResult) (uf : UserFeatures) :
  total (accumulate result uf)
  == points_sum (triggered_rules result) + ml_points result + penalty_points uf.
Proof.
  unfold accumulate.
  rewrite total_add_consec_penalty, total_add_ml_bonus, total_fold_add_rule.
  simpl. lra.
Qed.

Lemma ml_points_range (result : DetectionResult) : 0 <= ml_points result <= 15.
Proof. unfold ml_points, ML_ANOMALY_BONUS. destruct (ml_contributed result); lra. Qed.

Lemma penalty_points_range (uf : UserFeatures) : 0 <= penalty_points uf <= 10.
Proof.
  unfold penalty_points.
  destruct (Qgtb (consec_penalty uf) 0) eqn:E; [| lra].
  apply Qgtb_true in E. split; [lra |].
  unfold consec_penalty.
  pose proof (py_min_le_r (inject_Z (consecutive_failures uf) * 1.0) 10.0). lra.
Qed.

Lemma total_accumulate_nonneg (result : DetectionResult) (uf : UserFeatures) :
  0 <= total (accumulate result uf).
Proof.
  rewrite total_accumulate.
  pose proof (points_sum_nonneg (triggered_rules result)).
  pose proof (ml_points_range result). pose proof (penalty_points_range uf). lra.
Qed.

Lemma py_min_comp (a a' b : Q) : a == a' -> py_min a b == py_min a' b.
Proof.
  intros H. unfold py_min. rewrite (Qleb_comp _ _ H b b (Qeq_refl b)).
  destruct (Qle_bool a' b); [exact H | reflexivity].
Qed.

Lemma _level_comp (s s' : Q) : s == s' -> _level s = _level s'.
Proof.
  intros H. unfold _level, Qgeb.
  now rewrite !(Qleb_comp _ _ (Qeq_refl _) _ _ H).
Qed.

Lemma _level_cases (s : Q) :
  (80 <= s /\ _level s = "CRITICAL") \/
  (60 <= s < 80 /\ _level s = "HIGH") \/
  (40 <= s < 60 /\ _level s = "MEDIUM") \/
  (s < 40 /\ _level s = "LOW").
Proof.
  unfold _level.
  destruct (Qgeb s 80) eqn:E1; [apply Qgeb_true in E1; auto | apply Qgeb_false in E1].
  destruct (Qgeb s 60) eqn:E2; [apply Qgeb_true in E2; auto | apply Qgeb_false in E2].
  destruct (Qgeb s 40) eqn:E3; [apply Qgeb_true in E3 | apply Qgeb_false in E3]; auto 6.
Qed.

Lemma _level_monotone (s1 s2 : Q) :
  s1 <= s2 -> (level_rank (_level s1) <= level_rank (_level s2))%Z.
Proof.
  intros H.
  destruct (_level_cases s1) as [[? ->] | [[? ->] | [[? ->] | [? ->]]]];
    destruct (_level_cases s2) as [[? ->] | [[? ->] | [[? ->] | [? ->]]]];
    cbn; try lia; exfalso; lra.
Qed.

End ScoreFacts.

(** C1.  The score that [calculate_risk_score] returns is the uncapped
    sum of rule points, ML bonus and failure penalty, capped at 100 and
    rounded to two decimals, and lies between 0 and 100; the level is
    [_level] of the capped score, which is CRITICAL from 80, HIGH from 60,
    MEDIUM from 40 and LOW below, never decreases when the score grows, and
    depends on the value of the score only. *)
Theorem C1_score_in_range_level_by_threshold :
  forall (result : DetectionResult) (uf : UserFeatures),
    let rs := calculate_risk_score result uf in
    let raw :=
      (points_sum (triggered_rules result) + ml_points result + penalty_points uf)%Q in
    let capped := py_min raw MAX_SCORE in
    (0 <= score rs <= 100)%Q /\
    (score rs == round2 capped)%Q /\
    (0 <= capped <= 100)%Q /\
    level rs = _level capped /\
    (forall s : Q,
        ((80 <= s)%Q <-> _level s = "CRITICAL") /\
        ((60 <= s < 80)%Q <-> _level s = "HIGH") /\
        ((40 <= s < 60)%Q <-> _level s = "MEDIUM") /\
        ((s < 40)%Q <-> _level s = "LOW")) /\
    (forall s1 s2 : Q,
        (s1 <= s2)%Q -> level_rank (_level s1) <= level_rank (_level s2)) /\
    (forall s1 s2 : Q, (s1 == s2)%Q -> _level s1 = _level s2).
Proof.
  intros result uf rs raw capped.
  assert (Hraw : (total (accumulate result uf) == raw)%Q) by apply total_accumulate.
  assert (Hcap : (py_min (total (accumulate result uf)) MAX_SCORE == capped)%Q)
    by (apply py_min_comp, Hraw).
  assert (Hrange : (0 <= capped <= 100)%Q).
  { split.
    - apply py_min_glb; [| unfold MAX_SCORE; lra].
      rewrite <- Hraw. apply total_accumulate_nonneg.
    - unfold capped. pose proof (py_min_le_r raw MAX_SCORE) as H.
      unfold MAX_SCORE in *. lra. }
  assert (Hscore : (score rs == round2 capped)%Q).
  { unfold rs, calculate_risk_score; simpl. now apply round2_comp. }
  repeat split.
  - rewrite Hscore. apply (round2_lower 0). change (inject_Z 0) with 0%Q. tauto.
  - rewrite Hscore. apply (round2_upper 100). change (inject_Z 100) with 100%Q. tauto.
  - exact Hscore.
  - tauto.
  - tauto.
  - unfold rs, calculate_risk_score; simpl. now apply _level_comp.
  - intros H. destruct (_level_cases s) as [[? E] | [[? E] | [[? E] | [? E]]]];
      try exact E; exfalso; lra.
  - intros H. destruct (_level_cases s) as [[? E] | [[? E] | [[? E] | [? E]]]];
      rewrite E in H; try discriminate; lra.
  - intros H. destruct (_level_cases s) as [[? E] | [[? E] | [[? E] | [? E]]]];
      try exact E; exfalso; lra.
  - destruct (_level_cases s) as [[? E] | [[? E] | [[? E] | [? E]]]];
      rewrite E in H; try discriminate; lra.
  - destruct (_level_cases s) as [[? E] | [[? E] | [[? E] | [? E]]]];
      rewrite E in H; try discriminate; lra.
  - intros H. destruct (_level_cases s) as [[? E] | [[? E] | [[? E] | [? E]]]];
      try exact E; exfalso; lra.
  - destruct (_level_cases s) as [[? E] | [[? E] | [[? E] | [? E]]]];
      rewrite E in H; try discriminate; lra.
  - destruct (_level_cases s) as [[? E] | [[? E] | [[? E] | [? E]]]];
      rewrite E in H; try discriminate; lra.
  - intros H. destruct (_level_cases s) as [[? E] | [[? E] | [[? E] | [? E]]]];
      try exact E; exfalso; lra.
  - intros H. destruct (_level_cases s) as [[? E] | [[? E] | [[? E] | [? E]]]];
      rewrite E in H; try discriminate; lra.
  - apply _level_monotone.
  - apply _level_comp.
Qed.

(** ** The rule engine: total, with floored divisors *)

Section RuleFacts.

Lemma max_floor_pos (t : Z) : 1 <= Z.max t 1.
Proof. lia. Qed.

Lemma truediv_floored (a t : Z) : truediv a (Z.max t 1) = Some (ratio a t).
Proof.
  unfold truediv, ratio. destruct (decide (Z.max t 1 = 0)); [lia | reflexivity].
Qed.

Lemma truediv_zero (a : Z) : truediv a 0 = None.
Proof. reflexivity. Qed.

Lemma ratio_zero (t : Z) : (ratio 0 t == 0)%Q.
Proof. unfold ratio, Qdiv. rewrite Qmult_0_l. reflexivity. Qed.

Lemma ratio_zero_not_above (t : Z) (bound : Q) :
  (0 <= bound)%Q -> Qgtb (ratio 0 t) bound = false.
Proof. intros H. apply Qgtb_false. rewrite ratio_zero. exact H. Qed.

(** The source's sequence of appends computes the table's selection. *)
Lemma evaluate_eq (uf : UserFeatures) : evaluate uf = Some (rules_triggered uf).
Proof.
  unfold evaluate, rules_triggered, rule_checks.
  rewrite !truediv_floored. cbn [mbind option_bind].
  destruct (Qgtb (ratio (off_hours_event_count uf) (total_events uf)) 0.30),
    (Qgtb (ratio (high_risk_event_count uf) (total_events uf)) 0.20),
    (1 <=? mfa_missing_high_risk uf), (3 <=? unique_ips uf),
    (Qgtb (ratio (failed_event_count uf) (total_events uf)) 0.40),
    (5 <=? consecutive_failures uf), (5 <=? admin_action_count uf),
    (2 <=? unique_regions uf), (100 <? total_events uf); reflexivity.
Qed.

Lemma elem_of_selected (checks : list (string * bool)) (r : string) :
  r ∈ map fst (List.filter snd checks) <-> (r, true) ∈ checks.
Proof.
  induction checks as [| [k b] checks IH]; simpl.
  - split; intros H; inversion H.
  - destruct b; simpl.
    + rewrite !elem_of_cons, IH. split.
      * intros [-> | H]; [left; reflexivity | right; exact H].
      * intros [H | H]; [left; congruence | right; exact H].
    + rewrite IH, elem_of_cons. split.
      * intros H. right. exact H.
      * intros [H | H]; [discriminate | exact H].
Qed.

Lemma elem_of_rules_triggered (uf : UserFeatures) (r : string) :
  r ∈ rules_triggered uf <-> (r, true) ∈ rule_checks uf.
Proof. apply elem_of_selected. Qed.

Lemma mvp_ratio_above_floored (a t : Z) (bound : Q) :
  Mvp.ratio_above a (Z.max t 1) bound = Some (Qgtb (ratio a t) bound).
Proof. unfold Mvp.ratio_above. rewrite truediv_floored. reflexivity. Qed.

Lemma mvp_triggered_eq (uf : Mvp.UserFeatures) :
  Mvp.triggered_of Mvp.RULES uf
  = Some (map fst (List.filter snd (mvp_rule_checks uf))).
Proof.
  unfold Mvp.RULES, mvp_rule_checks. cbn [Mvp.triggered_of].
  rewrite !mvp_ratio_above_floored. cbn [mbind option_bind].
  destruct (Qgtb (ratio (Mvp.off_hours_events uf) (Mvp.total_events uf)) 0.30),
    (Qgtb (ratio (Mvp.high_risk_events uf) (Mvp.total_events uf)) 0.20),
    (1 <=? Mvp.mfa_missing_high_risk uf), (3 <=? Mvp.unique_ips uf),
    (Qgtb (ratio (Mvp.failed_events uf) (Mvp.total_events uf)) 0.40),
    (5 <=? Mvp.consecutive_failures uf), (5 <=? Mvp.admin_action_count uf),
    (2 <=? Mvp.unique_regions uf), (100 <? Mvp.total_events uf); reflexivity.
Qed.

End RuleFacts.

(** Membership of a literal pair in a literal table. *)
Ltac solve_check_membership :=
  repeat
    match goal with
    | H : _ ∈ [] |- _ => inversion H
    | H : _ ∈ _ :: _ |- _ =>
        apply elem_of_cons in H as [H | H]; [inversion H; subst; clear H |]
    | |- (?k, _) ∈ (?k, _) :: _ => apply list_elem_of_here
    | |- _ ∈ _ :: _ => apply list_elem_of_further
    end.

Section RuleMembership.

Variable uf : UserFeatures.

Lemma triggered_R01 :
  "R01_OFF_HOURS_ACCESS" ∈ rules_triggered uf
  <-> (0.30 < ratio (off_hours_event_count uf) (total_events uf))%Q.
Proof.
  rewrite elem_of_rules_triggered, <- Qgtb_true. unfold rule_checks. split.
  - intros H. solve_check_membership. congruence.
  - intros ->. solve_check_membership.
Qed.

Lemma triggered_R02 :
  "R02_HIGH_RISK_RATIO" ∈ rules_triggered uf
  <-> (0.20 < ratio (high_risk_event_count uf) (total_events uf))%Q.
Proof.
  rewrite elem_of_rules_triggered, <- Qgtb_true. unfold rule_checks. split.
  - intros H. solve_check_membership. congruence.
  - intros ->. solve_check_membership.
Qed.

Lemma triggered_R03 :
  "R03_HIGH_RISK_NO_MFA" ∈ rules_triggered uf <-> 1 <= mfa_missing_high_risk uf.
Proof.
  rewrite elem_of_rules_triggered, <- Z.leb_le. unfold rule_checks. split.
  - intros H. solve_check_membership. congruence.
  - intros ->. solve_check_membership.
Qed.

Lemma triggered_R04 :
  "R04_MULTIPLE_SOURCE_IPS" ∈ rules_triggered uf <-> 3 <= unique_ips uf.
Proof.
  rewrite elem_of_rules_triggered, <- Z.leb_le. unfold rule_checks. split.
  - intros H. solve_check_membership. congruence.
  - intros ->. solve_check_membership.
Qed.

Lemma triggered_R05 :
  "R05_HIGH_FAILURE_RATE" ∈ rules_triggered uf
  <-> (0.40 < ratio (failed_event_count uf) (total_events uf))%Q.
Proof.
  rewrite elem_of_rules_triggered, <- Qgtb_true. unfold rule_checks. split.
  - intros H. solve_check_membership. congruence.
  - intros ->. solve_check_membership.
Qed.

Lemma triggered_R06 :
  "R06_CONSECUTIVE_FAILURES" ∈ rules_triggered uf <-> 5 <= consecutive_failures uf.
Proof.
  rewrite elem_of_rules_triggered, <- Z.leb_le. unfold rule_checks. split.
  - intros H. solve_check_membership. congruence.
  - intros ->. solve_check_membership.
Qed.

Lemma triggered_R08 :
  "R08_MULTI_REGION_ACTIVITY" ∈ rules_triggered uf <-> 2 <= unique_regions uf.
Proof.
  rewrite elem_of_rules_triggered, <- Z.leb_le. unfold rule_checks. split.
  - intros H. solve_check_membership. congruence.
  - intros ->. solve_check_membership.
Qed.

(** Only catalog identifiers are ever triggered. *)
Lemma rules_triggered_in_catalog (r : string) :
  r ∈ rules_triggered uf -> r ∈ catalog.
Proof.
  rewrite elem_of_rules_triggered. unfold rule_checks, catalog. intros H.
  repeat (apply elem_of_cons in H as [H | H]; [inversion H; subst; set_solver |]).
  inversion H.
Qed.

End RuleMembership.

Section MvpRuleMembership.

Variable uf : Mvp.UserFeatures.

Lemma mvp_triggered_R01 :
  "R01_OFF_HOURS" ∈ map fst (List.filter snd (mvp_rule_checks uf))
  <-> (0.30 < ratio (Mvp.off_hours_events uf) (Mvp.total_events uf))%Q.
Proof.
  rewrite elem_of_selected, <- Qgtb_true.
  unfold mvp_rule_checks. split.
  - intros H. solve_check_membership. congruence.
  - intros ->. solve_check_membership.
Qed.

Lemma mvp_triggered_R02 :
  "R02_HIGH_RISK_RATIO" ∈ map fst (List.filter snd (mvp_rule_checks uf))
  <-> (0.20 < ratio (Mvp.high_risk_events uf) (Mvp.total_events uf))%Q.
Proof.
  rewrite elem_of_selected, <- Qgtb_true.
  unfold mvp_rule_checks. split.
  - intros H. solve_check_membership. congruence.
  - intros ->. solve_check_membership.
Qed.

Lemma mvp_triggered_R05 :
  "R05_HIGH_FAIL_RATE" ∈ map fst (List.filter snd (mvp_rule_checks uf))
  <-> (0.40 < ratio (Mvp.failed_events uf) (Mvp.total_events uf))%Q.
Proof.
  rewrite elem_of_selected, <- Qgtb_true.
  unfold mvp_rule_checks. split.
  - intros H. solve_check_membership. congruence.
  - intros ->. solve_check_membership.
Qed.

End MvpRuleMembership.

(** C7.  Every ratio rule divides by [max(total_events, 1)], which is at
    least 1, so the three quotients are defined and [evaluate] returns a
    verdict for every feature record (while a division by the unfloored
    total of a zero-event account would raise); OFF_HOURS_ACCESS,
    HIGH_RISK_RATIO and HIGH_FAILURE_RATE trigger exactly when the floored
    quotient exceeds 0.30, 0.20 and 0.40; and with a numerator of 0, as for
    an account with no event, none of them triggers.  The same holds for
    the rule table of the minimal detector. *)
Theorem C7_ratio_rules_divisor_floored :
  forall (uf : UserFeatures) (muf : Mvp.UserFeatures),
    (1 <= Z.max (total_events uf) 1 /\
     truediv (off_hours_event_count uf) 0 = None /\
     truediv (off_hours_event_count uf) (Z.max (total_events uf) 1)
       = Some (ratio (off_hours_event_count uf) (total_events uf)) /\
     truediv (high_risk_event_count uf) (Z.max (total_events uf) 1)
       = Some (ratio (high_risk_event_count uf) (total_events uf)) /\
     truediv (failed_event_count uf) (Z.max (total_events uf) 1)
       = Some (ratio (failed_event_count uf) (total_events uf)) /\
     evaluate uf = Some (rules_triggered uf) /\
     ("R01_OFF_HOURS_ACCESS" ∈ rules_triggered uf
      <-> (0.30 < ratio (off_hours_event_count uf) (total_events uf))%Q) /\
     ("R02_HIGH_RISK_RATIO" ∈ rules_triggered uf
      <-> (0.20 < ratio (high_risk_event_count uf) (total_events uf))%Q) /\
     ("R05_HIGH_FAILURE_RATE" ∈ rules_triggered uf
      <-> (0.40 < ratio (failed_event_count uf) (total_events uf))%Q) /\
     (off_hours_event_count uf = 0 -> "R01_OFF_HOURS_ACCESS" ∉ rules_triggered uf) /\
     (high_risk_event_count uf = 0 -> "R02_HIGH_RISK_RATIO" ∉ rules_triggered uf) /\
     (failed_event_count uf = 0 -> "R05_HIGH_FAILURE_RATE" ∉ rules_triggered uf))
    /\
    (let triggered := map fst (List.filter snd (mvp_rule_checks muf)) in
     1 <= Z.max (Mvp.total_events muf) 1 /\
     Mvp.triggered_of Mvp.RULES muf = Some triggered /\
     ("R01_OFF_HOURS" ∈ triggered
      <-> (0.30 < ratio (Mvp.off_hours_events muf) (Mvp.total_events muf))%Q) /\
     ("R02_HIGH_RISK_RATIO" ∈ triggered
      <-> (0.20 < ratio (Mvp.high_risk_events muf) (Mvp.total_events muf))%Q) /\
     ("R05_HIGH_FAIL_RATE" ∈ triggered
      <-> (0.40 < ratio (Mvp.failed_events muf) (Mvp.total_events muf))%Q) /\
     (Mvp.off_hours_events muf = 0 -> "R01_OFF_HOURS" ∉ triggered) /\
     (Mvp.high_risk_events muf = 0 -> "R02_HIGH_RISK_RATIO" ∉ triggered) /\
     (Mvp.failed_events muf = 0 -> "R05_HIGH_FAIL_RATE" ∉ triggered)).
Proof.
  intros uf muf. split.
  - split; [apply max_floor_pos |].
    split; [apply truediv_zero |].
    repeat (split; [apply truediv_floored |]).
    split; [apply evaluate_eq |].
    split; [apply triggered_R01 |].
    split; [apply triggered_R02 |].
    split; [apply triggered_R05 |].
    repeat split.
    + intros H0. rewrite triggered_R01, H0, ratio_zero. lra.
    + intros H0. rewrite triggered_R02, H0, ratio_zero. lra.
    + intros H0. rewrite triggered_R05, H0, ratio_zero. lra.
  - cbv zeta.
    split; [apply max_floor_pos |].
    split; [apply mvp_triggered_eq |].
    split; [apply mvp_triggered_R01 |].
    split; [apply mvp_triggered_R02 |].
    split; [apply mvp_triggered_R05 |].
    repeat split.
    + intros H0. rewrite mvp_triggered_R01, H0, ratio_zero. lra.
    + intros H0. rewrite mvp_triggered_R02, H0, ratio_zero. lra.
    + intros H0. rewrite mvp_triggered_R05, H0, ratio_zero. lra.
Qed.

(** ** The detection pipeline: method and anomaly flag *)

Section DetectFacts.

(** The record that one iteration of the loop appends. *)
Lemma detect_one_eq (ml_threshold : Q) (ml_scores : gmap string Q)
    (uf : UserFeatures) :
  exists r : DetectionResult,
    detect_one ml_threshold ml_scores uf = Some r /\
    dr_user_arn r = uf_user_arn uf /\
    triggered_rules r = rules_triggered uf /\
    ml_anomaly_score r = default 0%Q (ml_scores !! uf_user_arn uf) /\
    is_anomaly r
    = (0 <? length (triggered_rules r))%nat
      || Qle_bool (ml_anomaly_score r) ml_threshold /\
    detection_method r
    = (if (0 <? length (triggered_rules r))%nat
          && Qle_bool (ml_anomaly_score r) ml_threshold then "both"
       else if (0 <? length (triggered_rules r))%nat then "rule"
       else if Qle_bool (ml_anomaly_score r) ml_threshold then "ml"
       else "none").
Proof.
  unfold detect_one. rewrite evaluate_eq. cbn [mbind option_bind].
  eexists. split; [reflexivity |]. cbn. repeat split; reflexivity.
Qed.

Lemma rules_fired_length (r : DetectionResult) :
  (0 <? length (triggered_rules r))%nat = true <-> rules_fired r.
Proof.
  unfold rules_fired. destruct (triggered_rules r); cbn; split; intros H;
    congruence || reflexivity.
Qed.

Lemma outlier_flag_leb (ml_threshold : Q) (r : DetectionResult) :
  Qle_bool (ml_anomaly_score r) ml_threshold = true <-> outlier_flag ml_threshold r.
Proof. apply Qle_bool_iff. Qed.

(** What the conditional chain of [detect] decides. *)
Lemma method_consistent (ml_threshold : Q) (r : DetectionResult) :
  is_anomaly r
  = (0 <? length (triggered_rules r))%nat
    || Qle_bool (ml_anomaly_score r) ml_threshold ->
  detection_method r
  = (if (0 <? length (triggered_rules r))%nat
        && Qle_bool (ml_anomaly_score r) ml_threshold then "both"
     else if (0 <? length (triggered_rules r))%nat then "rule"
     else if Qle_bool (ml_anomaly_score r) ml_threshold then "ml"
     else "none") ->
  (detection_method r = "both"
   <-> rules_fired r /\ outlier_flag ml_threshold r) /\
  (detection_method r = "rule"
   <-> rules_fired r /\ ~ outlier_flag ml_threshold r) /\
  (detection_method r = "ml"
   <-> ~ rules_fired r /\ outlier_flag ml_threshold r) /\
  (detection_method r = "none"
   <-> ~ rules_fired r /\ ~ outlier_flag ml_threshold r) /\
  (is_anomaly r = true <-> detection_method r <> "none").
Proof.
  intros Ha Hm.
  rewrite <- rules_fired_length, <- (outlier_flag_leb ml_threshold).
  rewrite Ha, Hm.
  destruct (0 <? length (triggered_rules r))%nat,
    (Qle_bool (ml_anomaly_score r) ml_threshold); cbn;
    repeat split; intros; try congruence; try tauto; try discriminate;
    intuition congruence.
Qed.

End DetectFacts.

(** C2.  [AnomalyEngine.detect] returns one result per feature record, in
    order, with the rules that [evaluate] triggers and the ML score looked
    up for the account; in each result the method is "both" exactly when a
    rule triggered and the score is at or below the threshold, "rule"
    exactly when only a rule triggered, "ml" exactly when only the score is
    at or below the threshold, "none" exactly when neither holds; and
    [is_anomaly] is true exactly when the method is not "none". *)
Theorem C2_detection_method_consistent :
  forall (sklearn_available : bool)
         (decision_function : Q -> list UserFeatures -> nat -> Q)
         (ml_threshold contamination : Q) (features_list : list UserFeatures),
    exists results : list DetectionResult,
      detect sklearn_available decision_function ml_threshold contamination
             features_list = Some results /\
      Forall2
        (fun uf r =>
           dr_user_arn r = uf_user_arn uf /\
           evaluate uf = Some (triggered_rules r) /\
           ml_anomaly_score r
           = default 0%Q
               (fit_predict sklearn_available decision_function contamination
                            features_list !! uf_user_arn uf))
        features_list results /\
      Forall
        (fun r =>
           (detection_method r = "both"
            <-> rules_fired r /\ outlier_flag ml_threshold r) /\
           (detection_method r = "rule"
            <-> rules_fired r /\ ~ outlier_flag ml_threshold r) /\
           (detection_method r = "ml"
            <-> ~ rules_fired r /\ outlier_flag ml_threshold r) /\
           (detection_method r = "none"
            <-> ~ rules_fired r /\ ~ outlier_flag ml_threshold r) /\
           (is_anomaly r = true <-> detection_method r <> "none"))
        results.
Proof.
  intros sk df thr cont features_list. unfold detect.
  generalize (fit_predict sk df cont features_list) as ml_scores. intros ml_scores.
  induction features_list as [| uf l IH].
  - exists []. repeat split; constructor.
  - destruct IH as (results & Hl & Hpair & Hall).
    destruct (detect_one_eq thr ml_scores uf) as (r & Hr & Harn & Hrules & Hscore & Ha & Hm).
    exists (r :: results). split; [| split].
    + cbn. rewrite Hr. cbn. rewrite Hl. reflexivity.
    + constructor; [| exact Hpair].
      repeat split; [exact Harn | rewrite Hrules; apply evaluate_eq | exact Hscore].
    + constructor; [| exact Hall]. now apply method_consistent.
Qed.

(** ** Batches too small for the ML model *)

(** A dict comprehension with a constant value: every key of the list is
    bound to it. *)
Lemma constant_dict_lookup {A V : Type} (key : A -> string) (v : V)
    (l : list A) (m : gmap string V) (k : string) :
  fold_left (fun m x => <[key x := v]> m) l m !! k
  = if decide (k ∈ map key l) then Some v else m !! k.
Proof.
  revert m. induction l as [| x l IH]; intros m; cbn.
  - destruct (decide (k ∈ [])) as [H | _]; [inversion H | reflexivity].
  - rewrite IH.
    destruct (decide (k ∈ map key l)) as [Hin | Hout].
    + rewrite decide_True; [reflexivity | now apply list_elem_of_further].
    + destruct (decide (k = key x)) as [-> | Hne].
      * rewrite decide_True; [apply lookup_insert_eq | apply list_elem_of_here].
      * rewrite decide_False.
        -- now apply lookup_insert_ne.
        -- intros H. apply elem_of_cons in H as [H | H]; contradiction.
Qed.

Section SmallBatch.

Variable sklearn_available : bool.
Variable decision_function : Q -> list UserFeatures -> nat -> Q.

(** The neutral score of every account of the batch is 0.0. *)
Lemma neutral_scores_lookup (l : list UserFeatures) (uf : UserFeatures) :
  uf ∈ l -> neutral_scores l !! uf_user_arn uf = Some 0%Q.
Proof.
  intros H. unfold neutral_scores. rewrite constant_dict_lookup.
  rewrite decide_True; [reflexivity |].
  apply list_elem_of_fmap. now exists uf.
Qed.

Lemma fit_predict_small (contamination : Q) (l : list UserFeatures) :
  sklearn_available = false \/ (length l < 2)%nat ->
  fit_predict sklearn_available decision_function contamination l
  = neutral_scores l.
Proof.
  intros H. unfold fit_predict.
  destruct sklearn_available; [| reflexivity].
  destruct H as [H | H]; [discriminate |].
  apply Nat.ltb_lt in H. cbn [negb]. now rewrite H.
Qed.

(** With the default threshold 0.0 the neutral score 0.0 satisfies
    [ml_score <= ml_threshold]: every account of such a batch comes out
    of [detect] flagged by the ML signal. *)
Lemma small_batch_flagged (contamination : Q) (l : list UserFeatures) :
  sklearn_available = false \/ (length l < 2)%nat ->
  exists results : list DetectionResult,
    detect sklearn_available decision_function default_ml_threshold
           contamination l = Some results /\
    length results = length l /\
    Forall (fun r => (ml_anomaly_score r == 0)%Q /\
                     is_anomaly r = true /\
                     ml_contributed r = true) results.
Proof.
  intros Hsmall. unfold detect. rewrite (fit_predict_small _ _ Hsmall).
  assert (Hsub : forall uf, uf ∈ l -> uf ∈ l) by auto.
  revert Hsub. generalize l at 1 4 5 as k.
  induction k as [| uf k IH]; intros Hsub.
  - exists []. repeat split. constructor.
  - destruct IH as (results & Hres & Hlen & Hall).
    { intros u Hu. apply Hsub. now apply list_elem_of_further. }
    destruct (detect_one_eq default_ml_threshold (neutral_scores l) uf)
      as (r & Hr & _ & _ & Hscore & Ha & Hm).
    rewrite neutral_scores_lookup in Hscore by (apply Hsub, list_elem_of_here).
    cbn in Hscore.
    exists (r :: results). split; [| split].
    + cbn [mapM]. rewrite Hr. cbn [mbind option_bind].
      rewrite Hres. reflexivity.
    + cbn [length]. now rewrite Hlen.
    + constructor; [| exact Hall].
      unfold ml_contributed. rewrite Ha, Hm, Hscore.
      change (Qle_bool 0 default_ml_threshold) with true.
      rewrite orb_true_r, andb_true_r.
      split; [reflexivity | split; [reflexivity |]].
      destruct (0 <? length (triggered_rules r))%nat; reflexivity.
Qed.

End SmallBatch.

(** The minimal detector answers [False] for every user of such a batch. *)
Lemma mvp_small_batch_not_flagged (sklearn_available : bool)
    (fit_predict : list Mvp.UserFeatures -> nat -> Z)
    (l : list Mvp.UserFeatures) (uf : Mvp.UserFeatures) :
  sklearn_available = false \/ (length l < 2)%nat ->
  uf ∈ l ->
  Mvp._ml_anomalies sklearn_available fit_predict l !! Mvp.user_arn uf = Some false.
Proof.
  intros Hsmall Hin. unfold Mvp._ml_anomalies.
  assert (Hno : fold_left (fun m u => <[Mvp.user_arn u := false]> m) l
                  (∅ : gmap string bool) !! Mvp.user_arn uf = Some false).
  { rewrite constant_dict_lookup. rewrite decide_True; [reflexivity |].
    apply list_elem_of_fmap. now exists uf. }
  destruct Hsmall as [-> | H].
  - destruct (length l <? 2)%nat; exact Hno.
  - apply Nat.ltb_lt in H. rewrite H. exact Hno.
Qed.

(** C3, on the code.  For a batch with a single account that triggers no
    rule, [fit_predict] returns the neutral score 0.0, and [detect] with the
    default threshold flags the account: the score 0.0 is at the threshold,
    so the method is "ml", [is_anomaly] is true and the ML bonus of 15
    points is all of its risk score. *)
Theorem C3_single_account_batch_is_flagged :
  forall (sklearn_available : bool)
         (decision_function : Q -> list UserFeatures -> nat -> Q),
    let features_list := extract_user_features quiet_batch in
    length features_list = 1%nat /\
    fit_predict sklearn_available decision_function default_contamination
                features_list !! bob = Some 0%Q /\
    exists r : DetectionResult,
      detect sklearn_available decision_function default_ml_threshold
             default_contamination features_list = Some [r] /\
      triggered_rules r = [] /\
      ml_anomaly_score r = 0%Q /\
      is_anomaly r = true /\
      detection_method r = "ml" /\
      (score (calculate_risk_score r (user_features bob quiet_batch)) == 15)%Q /\
      score_breakdown (calculate_risk_score r (user_features bob quiet_batch)) !! "ML_ANOMALY"
      = Some ML_ANOMALY_BONUS.
Proof.
  intros sk df features_list.
  assert (Hfit : fit_predict sk df default_contamination features_list
                 = neutral_scores features_list).
  { apply fit_predict_small. right. vm_compute. lia. }
  split; [reflexivity |].
  split; [rewrite Hfit; vm_compute; reflexivity |].
  unfold detect. rewrite Hfit.
  eexists. split; [vm_compute; reflexivity |].
  cbn [triggered_rules ml_anomaly_score is_anomaly detection_method].
  repeat split; vm_compute; reflexivity || (intros; discriminate).
Qed.

(** ** The longest run of consecutive failures *)

Section SortFacts.

Lemma insert_by_time_perm (e : CloudTrailEvent) (l : list CloudTrailEvent) :
  Permutation (insert_by_time e l) (e :: l).
Proof.
  induction l as [| y l IH]; cbn; [reflexivity |].
  destruct (event_time e <=? event_time y); [reflexivity |].
  rewrite IH. apply perm_swap.
Qed.

Lemma sorted_by_time_cons (e : CloudTrailEvent) (l : list CloudTrailEvent) :
  sorted_by_time (e :: l) = insert_by_time e (sorted_by_time l).
Proof. reflexivity. Qed.

Lemma sorted_by_time_perm (l : list CloudTrailEvent) :
  Permutation (sorted_by_time l) l.
Proof.
  induction l as [| e l IH]; [reflexivity |].
  rewrite sorted_by_time_cons, insert_by_time_perm. now apply perm_skip.
Qed.

Lemma insert_by_time_sorted (e : CloudTrailEvent) (l : list CloudTrailEvent) :
  StronglySorted time_le l -> StronglySorted time_le (insert_by_time e l).
Proof.
  induction 1 as [| y l Hs IH Hy]; cbn.
  - repeat constructor.
  - destruct (event_time e <=? event_time y) eqn:E.
    + apply Z.leb_le in E. constructor; [now constructor |].
      constructor; [exact E |].
      eapply Forall_impl; [exact Hy |]. unfold time_le. intros; cbn in *; lia.
    + apply Z.leb_gt in E. constructor; [exact IH |].
      rewrite (insert_by_time_perm e l). constructor; [| exact Hy].
      unfold time_le. lia.
Qed.

Lemma sorted_by_time_sorted (l : list CloudTrailEvent) :
  StronglySorted time_le (sorted_by_time l).
Proof.
  induction l as [| e l IH]; [constructor |].
  rewrite sorted_by_time_cons. now apply insert_by_time_sorted.
Qed.

(** The sort is stable: a sequence already in time order, ties included,
    is left as it is. *)
Lemma sorted_by_time_stable (l : list CloudTrailEvent) :
  StronglySorted time_le l -> sorted_by_time l = l.
Proof.
  induction 1 as [| e l Hs IH He]; [reflexivity |].
  rewrite sorted_by_time_cons, IH. destruct l as [| y l]; cbn; [reflexivity |].
  inversion He as [| ? ? Hy _]; subst. unfold time_le in Hy.
  apply Z.leb_le in Hy. now rewrite Hy.
Qed.

(** Two insertions at different times commute. *)
Lemma insert_by_time_comm (x y : CloudTrailEvent) (l : list CloudTrailEvent) :
  event_time x <> event_time y ->
  insert_by_time x (insert_by_time y l) = insert_by_time y (insert_by_time x l).
Proof.
  intros Hne. induction l as [| z l IH]; cbn.
  - destruct (event_time x <=? event_time y) eqn:Exy,
      (event_time y <=? event_time x) eqn:Eyx; try reflexivity;
      rewrite ?Z.leb_le, ?Z.leb_gt in *; lia.
  - destruct (event_time y <=? event_time z) eqn:Eyz,
      (event_time x <=? event_time z) eqn:Exz; cbn;
      rewrite ?Eyz, ?Exz;
      destruct (event_time x <=? event_time y) eqn:Exy,
        (event_time y <=? event_time x) eqn:Eyx; cbn; rewrite ?Eyz, ?Exz;
      try reflexivity;
      try (rewrite ?Z.leb_le, ?Z.leb_gt in *; lia).
    all: now rewrite IH.
Qed.

(** With pairwise different times the sorted sequence depends on the
    events only, not on their input order. *)
Lemma sorted_by_time_perm_invariant (l l' : list CloudTrailEvent) :
  Permutation l l' ->
  NoDup (map event_time l) ->
  sorted_by_time l = sorted_by_time l'.
Proof.
  induction 1 as [| x l l' Hp IH | x y l | l l' l'' Hp1 IH1 Hp2 IH2]; intros Hnd.
  - reflexivity.
  - rewrite !sorted_by_time_cons, IH; [reflexivity |].
    cbn in Hnd. now apply NoDup_cons_1_2 in Hnd.
  - rewrite !sorted_by_time_cons. apply insert_by_time_comm.
    cbn in Hnd. apply NoDup_cons in Hnd as [Hx _].
    intros E. apply Hx. rewrite E. apply list_elem_of_here.
  - rewrite IH1 by exact Hnd. apply IH2.
    assert (Hm : Permutation (map event_time l) (map event_time l'))
      by now apply Permutation_map.
    now rewrite <- Hm.
Qed.

Lemma leading_failures_nonneg (flags : list bool) : 0 <= leading_failures flags.
Proof. induction flags as [| [] flags IH]; cbn [leading_failures]; lia. Qed.

Lemma leading_le_longest (flags : list bool) :
  leading_failures flags <= longest_run flags.
Proof.
  induction flags as [| [] flags IH]; cbn [leading_failures longest_run]; try lia.
  pose proof (leading_failures_nonneg flags). lia.
Qed.

(** The loop from any state with [0 <= current_seq <= max_seq]. *)
Lemma scan_fold (flags : list bool) (best cur : Z) :
  0 <= cur <= best ->
  (fold_left scan_step flags (best, cur)).1
  = Z.max best (Z.max (cur + leading_failures flags) (longest_run flags)).
Proof.
  revert best cur. induction flags as [| [] flags IH]; intros best cur H;
    cbn [fold_left leading_failures longest_run].
  - cbn. lia.
  - unfold scan_step at 2. cbn [fst snd]. rewrite IH by lia.
    pose proof (leading_failures_nonneg flags). lia.
  - unfold scan_step at 2. cbn [fst snd]. rewrite IH by lia.
    pose proof (leading_le_longest flags).
    pose proof (leading_failures_nonneg flags). lia.
Qed.

(** The loop computes the longest block of consecutive failures. *)
Lemma scan_failures_longest (flags : list bool) :
  scan_failures flags = longest_run flags.
Proof.
  unfold scan_failures. rewrite scan_fold by lia.
  pose proof (leading_le_longest flags).
  pose proof (leading_failures_nonneg flags). lia.
Qed.

(** The sort keeps the input order of the events that share a timestamp. *)
Lemma insert_by_time_stamped (t : Z) (e : CloudTrailEvent) (l : list CloudTrailEvent) :
  stamped t (insert_by_time e l) = stamped t (e :: l).
Proof.
  unfold stamped. induction l as [| y l IH]; [reflexivity |].
  cbn [insert_by_time].
  destruct (event_time e <=? event_time y) eqn:E; [reflexivity |].
  apply Z.leb_gt in E. cbn [List.filter] in *. rewrite IH.
  destruct (event_time e =? t) eqn:Et, (event_time y =? t) eqn:Ey;
    try reflexivity.
  apply Z.eqb_eq in Et, Ey. lia.
Qed.

Lemma sorted_by_time_stamped (t : Z) (l : list CloudTrailEvent) :
  stamped t (sorted_by_time l) = stamped t l.
Proof.
  induction l as [| e l IH]; [reflexivity |].
  rewrite sorted_by_time_cons, insert_by_time_stamped.
  unfold stamped in *. cbn [List.filter]. now rewrite IH.
Qed.

(** Where an event is inserted, and what the scan then reads, depends on
    the timestamps and failure flags only. *)
Lemma insert_by_time_reads (x : CloudTrailEvent) (l l' : list CloudTrailEvent) :
  map time_and_flag l = map time_and_flag l' ->
  map time_and_flag (insert_by_time x l) = map time_and_flag (insert_by_time x l').
Proof.
  revert l'. induction l as [| y l IH]; intros [| y' l'] H; try discriminate.
  - reflexivity.
  - cbn [map] in H.
    assert (Hy : time_and_flag y = time_and_flag y') by congruence.
    assert (Hl : map time_and_flag l = map time_and_flag l') by congruence.
    assert (Et : event_time y = event_time y')
      by (unfold time_and_flag in Hy; congruence).
    cbn [insert_by_time]. rewrite <- Et.
    destruct (event_time x <=? event_time y); cbn [map].
    + now rewrite Hy, Hl.
    + now rewrite Hy, (IH l' Hl).
Qed.

(** Two insertions commute, as far as the scan can tell, unless the two
    events share a timestamp and differ in whether they failed. *)
Lemma insert_by_time_flags_comm (x y : CloudTrailEvent) (l : list CloudTrailEvent) :
  (event_time x = event_time y -> failed x = failed y) ->
  map time_and_flag (insert_by_time x (insert_by_time y l))
  = map time_and_flag (insert_by_time y (insert_by_time x l)).
Proof.
  intros Hxy. destruct (Z.eq_dec (event_time x) (event_time y)) as [Et | Hne].
  2: now rewrite insert_by_time_comm.
  assert (Hk : time_and_flag x = time_and_flag y)
    by (unfold time_and_flag; now rewrite Et, (Hxy Et)).
  assert (Exy : (event_time x <=? event_time y) = true)
    by (apply Z.leb_le; lia).
  assert (Eyx : (event_time y <=? event_time x) = true)
    by (apply Z.leb_le; lia).
  induction l as [| z l IH]; cbn [insert_by_time].
  - rewrite Exy, Eyx. cbn [map]. now rewrite Hk.
  - assert (Ez : (event_time x <=? event_time z) = (event_time y <=? event_time z))
      by now rewrite Et.
    rewrite Ez. destruct (event_time y <=? event_time z) eqn:Eyz;
      cbn [insert_by_time]; rewrite ?Exy, ?Eyx, ?Ez, ?Eyz; cbn [map].
    + now rewrite Hk.
    + now rewrite IH.
Qed.

Lemma ties_agree_cons (x : CloudTrailEvent) (l : list CloudTrailEvent) :
  ties_agree (x :: l) -> ties_agree l.
Proof.
  intros H e1 e2 H1 H2. apply H; now apply list_elem_of_further.
Qed.

Lemma ties_agree_perm (l l' : list CloudTrailEvent) :
  Permutation l l' -> ties_agree l -> ties_agree l'.
Proof.
  intros Hp H e1 e2 H1 H2. apply H; now rewrite Hp.
Qed.

(** Pairwise different timestamps leave no tie to disagree on. *)
Lemma NoDup_times_ties_agree (l : list CloudTrailEvent) :
  NoDup (map event_time l) -> ties_agree l.
Proof.
  induction l as [| x l IH]; intros Hnd e1 e2 H1 H2 Et.
  - now apply elem_of_nil in H1.
  - cbn [map] in Hnd. apply NoDup_cons in Hnd as [Hx Hnd].
    apply elem_of_cons in H1 as [-> | H1], H2 as [-> | H2].
    + reflexivity.
    + exfalso. apply Hx. rewrite Et. now apply list_elem_of_In, in_map, list_elem_of_In.
    + exfalso. apply Hx. rewrite <- Et. now apply list_elem_of_In, in_map, list_elem_of_In.
    + now apply (IH Hnd e1 e2).
Qed.

(** When tied events agree on failure, what the scan reads after the sort
    does not depend on the input order. *)
Lemma sorted_by_time_reads_invariant (l l' : list CloudTrailEvent) :
  Permutation l l' ->
  ties_agree l ->
  map time_and_flag (sorted_by_time l) = map time_and_flag (sorted_by_time l').
Proof.
  induction 1 as [| x l l' Hp IH | x y l | l l' l'' Hp1 IH1 Hp2 IH2]; intros Ht.
  - reflexivity.
  - rewrite !sorted_by_time_cons. apply insert_by_time_reads, IH.
    now apply ties_agree_cons in Ht.
  - rewrite !sorted_by_time_cons. apply insert_by_time_flags_comm.
    apply Ht; [apply list_elem_of_here |].
    apply list_elem_of_further, list_elem_of_here.
  - rewrite IH1 by exact Ht. apply IH2. now apply (ties_agree_perm l).
Qed.

Lemma failed_of_reads (l : list CloudTrailEvent) :
  map failed l = map snd (map time_and_flag l).
Proof. induction l as [| e l IH]; cbn; [reflexivity | now rewrite IH]. Qed.

Lemma run_perm_invariant (l l' : list CloudTrailEvent) :
  Permutation l l' ->
  ties_agree l ->
  _max_consecutive_failures l' = _max_consecutive_failures l.
Proof.
  intros Hp Ht. unfold _max_consecutive_failures.
  now rewrite !failed_of_reads, (sorted_by_time_reads_invariant l l' Hp Ht).
Qed.

End SortFacts.

(** The minimal detector scans the bucket without sorting it: the same
    events, one second apart, give a run of 5 in time order and of 3 when
    the input lists the success earlier. *)
Lemma mvp_scan_follows_input_order :
  Permutation spaced_in_order spaced_shuffled /\
  Mvp.max_consec spaced_in_order = 5 /\
  Mvp.max_consec spaced_shuffled = 3 /\
  _max_consecutive_failures spaced_shuffled = 5.
Proof.
  split; [| repeat split; vm_compute; reflexivity].
  unfold spaced_in_order, spaced_shuffled. do 2 apply perm_skip.
  symmetry. apply (Permutation_cons_append [_; _; _]).
Qed.

(** C4 as stated fails on ties.  Six events of one account carry the same
    timestamp; the stable sort keeps their input order, so one input order
    gives a run of 5 and triggers CONSECUTIVE_FAILURES while a permutation
    of it gives a run of 3 and does not. *)
Lemma C4_counterexample_tied_timestamps :
  Permutation tied_run_of_five tied_run_of_three /\
  _max_consecutive_failures tied_run_of_five = 5 /\
  _max_consecutive_failures tied_run_of_three = 3 /\
  "R06_CONSECUTIVE_FAILURES" ∈ rules_triggered (user_features alice tied_run_of_five) /\
  "R06_CONSECUTIVE_FAILURES" ∉ rules_triggered (user_features alice tied_run_of_three).
Proof.
  split.
  { unfold tied_run_of_five, tied_run_of_three. do 2 apply perm_skip.
    symmetry. apply (Permutation_cons_append [_; _; _]). }
  split; [vm_compute; reflexivity |].
  split; [vm_compute; reflexivity |].
  rewrite !triggered_R06.
  change (consecutive_failures (user_features alice tied_run_of_five))
    with (_max_consecutive_failures tied_run_of_five).
  change (consecutive_failures (user_features alice tied_run_of_three))
    with (_max_consecutive_failures tied_run_of_three).
  split; [vm_compute; discriminate | vm_compute; intros H; apply H; reflexivity].
Qed.

(** C4, amended.  For every partition, [_max_consecutive_failures] sorts
    the events by timestamp ascending with a stable sort (the result is a
    rearrangement of the input in time order in which the events of one
    timestamp keep their input order, and an input already in time order is
    left as it is), then scans the sorted sequence once with the streak
    counter, which yields the longest block of consecutive failures of the
    sorted sequence; CONSECUTIVE_FAILURES triggers exactly when that run is
    at least 5.  Whenever the events that share a timestamp agree on whether
    they failed (pairwise different timestamps being a special case), every
    permutation of the input gives the same run and the same verdict of the
    rule. *)
Theorem C4_failure_run_sorted_scan :
  forall events events' : list CloudTrailEvent,
    Permutation (sorted_by_time events) events /\
    StronglySorted time_le (sorted_by_time events) /\
    (forall t : Z, stamped t (sorted_by_time events) = stamped t events) /\
    (StronglySorted time_le events -> sorted_by_time events = events) /\
    _max_consecutive_failures events
    = longest_run (map failed (sorted_by_time events)) /\
    (forall arn : string,
        "R06_CONSECUTIVE_FAILURES" ∈ rules_triggered (user_features arn events)
        <-> 5 <= longest_run (map failed (sorted_by_time events))) /\
    (NoDup (map event_time events) -> ties_agree events) /\
    (Permutation events events' ->
     ties_agree events ->
     map failed (sorted_by_time events') = map failed (sorted_by_time events) /\
     _max_consecutive_failures events' = _max_consecutive_failures events /\
     (forall arn : string,
         "R06_CONSECUTIVE_FAILURES" ∈ rules_triggered (user_features arn events')
         <-> "R06_CONSECUTIVE_FAILURES" ∈ rules_triggered (user_features arn events))).
Proof.
  intros events events'.
  split; [apply sorted_by_time_perm |].
  split; [apply sorted_by_time_sorted |].
  split; [intros t; apply sorted_by_time_stamped |].
  split; [apply sorted_by_time_stable |].
  split; [apply scan_failures_longest |].
  split.
  { intros arn. rewrite triggered_R06.
    change (consecutive_failures (user_features arn events))
      with (_max_consecutive_failures events).
    unfold _max_consecutive_failures. now rewrite scan_failures_longest. }
  split; [apply NoDup_times_ties_agree |].
  intros Hperm Ht.
  split.
  { now rewrite !failed_of_reads, (sorted_by_time_reads_invariant events events' Hperm Ht). }
  split; [now apply run_perm_invariant |].
  intros arn. rewrite !triggered_R06.
  change (consecutive_failures (user_features arn events'))
    with (_max_consecutive_failures events').
  change (consecutive_failures (user_features arn events))
    with (_max_consecutive_failures events).
  now rewrite (run_perm_invariant events events' Hperm Ht).
Qed.

(** The amended statement at a same-second burst: five denied calls share
    one timestamp, so the two input orders differ in ties only, and both
    give the run 5 and trigger the rule. *)
Lemma C4_witness_same_second_burst :
  Permutation burst_in_order burst_shuffled /\
  ties_agree burst_in_order /\
  _max_consecutive_failures burst_shuffled = 5 /\
  _max_consecutive_failures burst_in_order = 5 /\
  "R06_CONSECUTIVE_FAILURES" ∈ rules_triggered (user_features alice burst_shuffled).
Proof.
  assert (Hperm : Permutation burst_in_order burst_shuffled).
  { unfold burst_in_order, burst_shuffled.
    apply Permutation_sym, Permutation_cons_app with (l1 := [_; _; _; _; _]) (l2 := []).
    cbn [app]. apply Permutation_sym.
    apply Permutation_cons_app with (l1 := [_; _]) (l2 := [_; _]). cbn [app].
    apply Permutation_cons_app with (l1 := [_; _; _]) (l2 := []). cbn [app].
    apply Permutation_cons_app with (l1 := [_; _]) (l2 := []). cbn [app].
    apply perm_swap. }
  assert (Ht : ties_agree burst_in_order).
  { intros e1 e2 H1 H2 Et. unfold burst_in_order in H1, H2.
    repeat (apply elem_of_cons in H1 as [-> | H1]);
      repeat (apply elem_of_cons in H2 as [-> | H2]);
      try reflexivity;
      try (now apply elem_of_nil in H1); try (now apply elem_of_nil in H2).
    all: exfalso; vm_compute in Et; discriminate. }
  destruct (C4_failure_run_sorted_scan burst_in_order burst_shuffled)
    as (_ & _ & _ & _ & _ & Hrule & _ & Hinv).
  destruct (Hinv Hperm Ht) as (_ & Hsame & Hsame_rule).
  assert (Hfive : _max_consecutive_failures burst_in_order = 5)
    by (vm_compute; reflexivity).
  split; [exact Hperm |]. split; [exact Ht |].
  split; [now rewrite Hsame |]. split; [exact Hfive |].
  apply Hsame_rule, Hrule.
  rewrite <- scan_failures_longest.
  change (scan_failures (map failed (sorted_by_time burst_in_order)))
    with (_max_consecutive_failures burst_in_order).
  rewrite Hfive. lia.
Defined.

(** ** Recommendations *)

Section RecommendationFacts.

Variable result : DetectionResult.

Lemma append_if_triggered_eq (rule sentence : string) (recs : list string) :
  append_if_triggered result rule sentence recs
  = recs ++ sentences_of [(rule, sentence)] result.
Proof.
  unfold append_if_triggered, sentences_of. cbn.
  destruct (bool_decide (rule ∈ triggered_rules result)); cbn;
    [reflexivity | now rewrite app_nil_r].
Qed.

Lemma sentences_of_app (t1 t2 : list (string * string)) :
  sentences_of (t1 ++ t2) result = sentences_of t1 result ++ sentences_of t2 result.
Proof. unfold sentences_of. now rewrite List.filter_app, map_app. Qed.

Lemma remediation_table_sentences :
  sentences_of remediation_table result
  = sentences_of [("R03_HIGH_RISK_NO_MFA", rec_mfa)] result
    ++ sentences_of [("R06_CONSECUTIVE_FAILURES", rec_consecutive)] result
    ++ sentences_of [("R07_EXCESSIVE_ADMIN_ACTIONS", rec_admin)] result
    ++ sentences_of [("R04_MULTIPLE_SOURCE_IPS", rec_ips)] result
    ++ sentences_of [("R01_OFF_HOURS_ACCESS", rec_off_hours)] result
    ++ sentences_of [("R08_MULTI_REGION_ACTIVITY", rec_region)] result.
Proof. rewrite <- !sentences_of_app. reflexivity. Qed.

Lemma fallback_eq (recs : list string) :
  (if (length recs =? 0)%nat then recs ++ [rec_none] else recs)
  = match recs with [] => [rec_none] | s :: l => s :: l end.
Proof. destruct recs; reflexivity. Qed.

(** The sequence of tests of [_recommendations] is the table lookup. *)
Lemma _recommendations_eq (uf : UserFeatures) (level : string) :
  _recommendations result uf level
  = recommendations_from remediation_table result level.
Proof.
  unfold _recommendations, recommendations_from, recommendations_before_fallback.
  cbv zeta. rewrite fallback_eq, !append_if_triggered_eq, remediation_table_sentences.
  destruct (String.eqb level "CRITICAL"), (ml_contributed result);
    cbn [app]; rewrite <- ?app_assoc, ?app_nil_r; reflexivity.
Qed.

End RecommendationFacts.

Lemma elem_of_sentences_of (table : list (string * string))
    (result : DetectionResult) (sentence : string) :
  sentence ∈ sentences_of table result
  <-> exists rule : string, (rule, sentence) ∈ table /\ rule ∈ triggered_rules result.
Proof.
  unfold sentences_of. induction table as [| [k s] table IH]; cbn.
  - split; [intros H; inversion H | intros (rule & H & _); inversion H].
  - destruct (bool_decide (k ∈ triggered_rules result)) eqn:E; cbn.
    + apply bool_decide_eq_true in E. rewrite elem_of_cons, IH. split.
      * intros [-> | (rule & H1 & H2)].
        -- exists k. split; [apply list_elem_of_here | exact E].
        -- exists rule. split; [now apply list_elem_of_further | exact H2].
      * intros (rule & H1 & H2). apply elem_of_cons in H1 as [H1 | H1].
        -- left. congruence.
        -- right. now exists rule.
    + apply bool_decide_eq_false in E. rewrite IH. split.
      * intros (rule & H1 & H2). exists rule.
        split; [now apply list_elem_of_further | exact H2].
      * intros (rule & H1 & H2). apply elem_of_cons in H1 as [H1 | H1].
        -- inversion H1; subst. contradiction.
        -- now exists rule.
Qed.

(** C6 as stated fails on the order.  In a batch of two accounts Alice
    triggers OFF_HOURS_ACCESS, HIGH_RISK_RATIO and HIGH_RISK_NO_MFA; her
    recommendations list the MFA sentence before the off-hours sentence,
    while the rule catalog lists OFF_HOURS_ACCESS first. *)
Lemma C6_counterexample_not_catalog_order :
  exists (uf_alice uf_bob : UserFeatures) (r_alice r_bob : DetectionResult),
    extract_user_features night_batch = [uf_alice; uf_bob] /\
    detect true (forest_flagging 1) default_ml_threshold default_contamination
           [uf_alice; uf_bob] = Some [r_alice; r_bob] /\
    triggered_rules r_alice
    = ["R01_OFF_HOURS_ACCESS"; "R02_HIGH_RISK_RATIO"; "R03_HIGH_RISK_NO_MFA"] /\
    detection_method r_alice = "rule" /\
    level (calculate_risk_score r_alice uf_alice) = "MEDIUM" /\
    recommendations (calculate_risk_score r_alice uf_alice)
    = [rec_mfa; rec_off_hours] /\
    recommendations_from remediation_table_catalog_order r_alice "MEDIUM"
    = [rec_off_hours; rec_mfa] /\
    recommendations (calculate_risk_score r_alice uf_alice)
    <> recommendations_from remediation_table_catalog_order r_alice "MEDIUM".
Proof.
  do 4 eexists.
  split; [vm_compute; reflexivity |].
  split; [vm_compute; reflexivity |].
  repeat split; try (vm_compute; reflexivity).
  vm_compute. discriminate.
Qed.

(** C6, amended.  The recommendations are the sentences of the triggered
    rules among HIGH_RISK_NO_MFA, CONSECUTIVE_FAILURES,
    EXCESSIVE_ADMIN_ACTIONS, MULTIPLE_SOURCE_IPS, OFF_HOURS_ACCESS and
    MULTI_REGION_ACTIVITY, one per rule and in this fixed order, followed
    by the ML sentence when the method is "ml" or "both", with the urgent
    directive in front when the level is CRITICAL; when that list is empty
    the result is the single "no action needed" sentence, and otherwise
    it is that list. *)
Theorem C6_recommendations_fixed_order :
  forall (result : DetectionResult) (uf : UserFeatures) (level : string),
    let recs := _recommendations result uf level in
    let before := recommendations_before_fallback remediation_table result level in
    recs = recommendations_from remediation_table result level /\
    before
    = (if String.eqb level "CRITICAL" then [rec_urgent] else [])
      ++ sentences_of remediation_table result
      ++ (if ml_contributed result then [rec_ml] else []) /\
    (forall sentence : string,
        sentence ∈ sentences_of remediation_table result
        <-> exists rule : string,
            (rule, sentence) ∈ remediation_table /\ rule ∈ triggered_rules result) /\
    (level = "CRITICAL" -> exists rest : list string, recs = rec_urgent :: rest) /\
    (before = [] <-> recs = [rec_none]) /\
    (before <> [] -> recs = before).
Proof.
  intros result uf level recs before.
  assert (Heq : recs = recommendations_from remediation_table result level)
    by apply _recommendations_eq.
  split; [exact Heq |].
  split; [reflexivity |].
  split; [intros sentence; apply elem_of_sentences_of |].
  rewrite Heq. unfold recommendations_from. fold before.
  split; [| split].
  - intros ->. unfold before, recommendations_before_fallback. cbn.
    eexists. reflexivity.
  - destruct before as [| s l] eqn:E; split; try congruence.
    intros H. inversion H; subst.
    assert (Hin : rec_none ∈ before) by (rewrite E; apply list_elem_of_here).
    unfold before, recommendations_before_fallback in Hin.
    rewrite !elem_of_app, elem_of_sentences_of in Hin.
    destruct Hin as [Hin | [(rule & Hin & _) | Hin]].
    + destruct (String.eqb level "CRITICAL"); [| inversion Hin].
      apply list_elem_of_singleton in Hin. vm_compute in Hin. discriminate.
    + unfold remediation_table in Hin.
      repeat (apply elem_of_cons in Hin as [Hin | Hin];
              [vm_compute in Hin; discriminate |]).
      inversion Hin.
    + destruct (ml_contributed result); [| inversion Hin].
      apply list_elem_of_singleton in Hin. vm_compute in Hin. discriminate.
  - destruct before; congruence.
Qed.

(** ** The score breakdown *)

Section BreakdownFacts.

Local Open Scope Q_scope.

Lemma breakdown_fold_add_rule (l : list string) (acc : ScoreAcc) (r : string) :
  breakdown (fold_left add_rule l acc) !! r
  = if decide (r ∈ l) then Some (rule_points r) else breakdown acc !! r.
Proof.
  revert acc. induction l as [| x l IH]; intros acc; cbn [fold_left].
  - destruct (decide (r ∈ [])) as [H | _]; [inversion H | reflexivity].
  - rewrite IH. destruct (decide (r ∈ l)) as [Hin | Hout].
    + rewrite decide_True; [reflexivity | now apply list_elem_of_further].
    + cbn. destruct (decide (r = x)) as [-> | Hne].
      * rewrite decide_True; [apply lookup_insert_eq | apply list_elem_of_here].
      * rewrite decide_False.
        -- apply lookup_insert_ne. congruence.
        -- intros H. apply elem_of_cons in H as [H | H]; contradiction.
Qed.

Lemma breakdown_add_ml_bonus (result : DetectionResult) (acc : ScoreAcc) (r : string) :
  r <> "ML_ANOMALY" ->
  breakdown (add_ml_bonus result acc) !! r = breakdown acc !! r.
Proof.
  intros Hne. unfold add_ml_bonus. destruct (ml_contributed result); [| reflexivity].
  cbn. apply lookup_insert_ne. congruence.
Qed.

Lemma breakdown_add_consec_penalty (uf : UserFeatures) (acc : ScoreAcc) (r : string) :
  r <> "CONSECUTIVE_FAIL_PENALTY" ->
  breakdown (add_consec_penalty uf acc) !! r = breakdown acc !! r.
Proof.
  intros Hne. unfold add_consec_penalty.
  destruct (Qgtb (consec_penalty uf) 0); [| reflexivity].
  cbn. apply lookup_insert_ne. congruence.
Qed.

(** Later steps may overwrite a key but never remove one. *)
Lemma breakdown_add_ml_bonus_keeps (result : DetectionResult) (acc : ScoreAcc)
    (r : string) :
  is_Some (breakdown acc !! r) -> is_Some (breakdown (add_ml_bonus result acc) !! r).
Proof.
  intros H. unfold add_ml_bonus. destruct (ml_contributed result); [| exact H].
  cbn. rewrite lookup_insert. case_decide; [eauto | exact H].
Qed.

Lemma breakdown_add_consec_penalty_keeps (uf : UserFeatures) (acc : ScoreAcc)
    (r : string) :
  is_Some (breakdown acc !! r) -> is_Some (breakdown (add_consec_penalty uf acc) !! r).
Proof.
  intros H. unfold add_consec_penalty.
  destruct (Qgtb (consec_penalty uf) 0); [| exact H].
  cbn. rewrite lookup_insert. case_decide; [eauto | exact H].
Qed.

(** A streak below the cap is its own penalty. *)
Lemma consec_penalty_small (uf : UserFeatures) :
  (consecutive_failures uf <= 10)%Z ->
  consec_penalty uf == inject_Z (consecutive_failures uf).
Proof.
  intros H. unfold consec_penalty.
  rewrite py_min_id.
  - ring.
  - rewrite Zle_Qle in H. change (inject_Z 10) with 10 in H. lra.
Qed.

End BreakdownFacts.

(** C8.  An account whose longest failure streak is between 1 and 4, that
    triggers no rule and whose ML score is above the threshold, comes out
    of [detect] with method "none" and [is_anomaly] false, and still gets a
    positive risk score, equal to the streak: the penalty is the only entry
    of its breakdown. *)
Theorem C8_penalty_without_detection :
  forall (uf : UserFeatures) (ml_threshold : Q) (ml_scores : gmap string Q),
    1 <= consecutive_failures uf <= 4 ->
    evaluate uf = Some [] ->
    (ml_threshold < default 0 (ml_scores !! uf_user_arn uf))%Q ->
    exists r : DetectionResult,
      detect_one ml_threshold ml_scores uf = Some r /\
      triggered_rules r = [] /\
      ~ outlier_flag ml_threshold r /\
      detection_method r = "none" /\
      is_anomaly r = false /\
      (score (calculate_risk_score r uf) == inject_Z (consecutive_failures uf))%Q /\
      (0 < score (calculate_risk_score r uf))%Q /\
      level (calculate_risk_score r uf) = "LOW" /\
      score_breakdown (calculate_risk_score r uf)
      = {[ "CONSECUTIVE_FAIL_PENALTY" := consec_penalty uf ]}.
Proof.
  intros uf thr scores Hcf Hrules Hml.
  rewrite evaluate_eq in Hrules. injection Hrules as Hrules.
  destruct (detect_one_eq thr scores uf) as (r & Hr & _ & Htr & Hscore & Ha & Hm).
  rewrite Hrules in Htr.
  assert (Hflag : Qle_bool (ml_anomaly_score r) thr = false).
  { destruct (Qle_bool (ml_anomaly_score r) thr) eqn:E; [| reflexivity].
    apply Qle_bool_iff in E. rewrite Hscore in E. lra. }
  rewrite Htr, Hflag in Ha, Hm. cbn in Ha, Hm.
  assert (Hnoml : ml_contributed r = false).
  { unfold ml_contributed. rewrite Hm. reflexivity. }
  assert (Hpen : (consec_penalty uf == inject_Z (consecutive_failures uf))%Q)
    by (apply consec_penalty_small; lia).
  assert (Hpos : (0 < inject_Z (consecutive_failures uf))%Q).
  { change 0%Q with (inject_Z 0). rewrite <- Zlt_Qlt. lia. }
  assert (Hle : (inject_Z (consecutive_failures uf) <= 4)%Q).
  { change 4%Q with (inject_Z 4). rewrite <- Zle_Qle. lia. }
  assert (Hgt : Qgtb (consec_penalty uf) 0 = true).
  { apply Qgtb_true. rewrite Hpen. exact Hpos. }
  assert (Htotal : (total (accumulate r uf) == inject_Z (consecutive_failures uf))%Q).
  { rewrite total_accumulate, Htr. unfold ml_points, penalty_points.
    rewrite Hnoml, Hgt, Hpen. cbn [points_sum foldr]. lra. }
  assert (Hcap : (py_min (total (accumulate r uf)) MAX_SCORE
                  == inject_Z (consecutive_failures uf))%Q).
  { rewrite (py_min_comp _ _ _ Htotal), py_min_id; [reflexivity |].
    unfold MAX_SCORE. lra. }
  assert (Hfinal : (score (calculate_risk_score r uf)
                    == inject_Z (consecutive_failures uf))%Q).
  { unfold calculate_risk_score. cbn [score]. now apply round2_int. }
  exists r. split; [exact Hr |]. split; [exact Htr |].
  split; [unfold outlier_flag; intros H; apply Qle_bool_iff in H; congruence |].
  split; [exact Hm |]. split; [exact Ha |]. split; [exact Hfinal |].
  split; [rewrite Hfinal; exact Hpos |].
  split.
  - unfold calculate_risk_score. cbn [level].
    rewrite (_level_comp _ _ Hcap).
    destruct (_level_cases (inject_Z (consecutive_failures uf)))
      as [[? E] | [[? E] | [[? E] | [? E]]]]; try exact E; exfalso; lra.
  - unfold calculate_risk_score, accumulate, add_consec_penalty, add_ml_bonus.
    cbn [score_breakdown]. rewrite Hnoml, Htr, Hgt. reflexivity.
Qed.

Lemma C8_witness_two_failures :
  exists r : DetectionResult,
    detect_one default_ml_threshold {[ bob := 0.06%Q ]}
               (features_of_counts bob 10 0 2 2) = Some r /\
    detection_method r = "none" /\
    (score (calculate_risk_score r (features_of_counts bob 10 0 2 2)) == 2)%Q.
Proof.
  assert (Hcf : 1 <= consecutive_failures (features_of_counts bob 10 0 2 2) <= 4)
    by (cbn; lia).
  assert (Hrules : evaluate (features_of_counts bob 10 0 2 2) = Some [])
    by (vm_compute; reflexivity).
  assert (Hml : (default_ml_threshold
                 < default 0 (({[ bob := 0.06 ]} : gmap string Q)
                                !! uf_user_arn (features_of_counts bob 10 0 2 2)))%Q)
    by (vm_compute; reflexivity).
  destruct (C8_penalty_without_detection (features_of_counts bob 10 0 2 2)
              default_ml_threshold {[ bob := 0.06%Q ]} Hcf Hrules Hml)
    as (r & Hr & _ & _ & Hm & _ & Hs & _).
  exists r. split; [exact Hr |]. split; [exact Hm | exact Hs].
Defined.

(** ** Feature extraction *)

Section GroupFacts.

Lemma count_if_all {A : Type} (p : A -> bool) (l : list A) :
  Forall (fun x => p x = true) l -> count_if p l = Z.of_nat (length l).
Proof.
  induction 1 as [| x l Hx _ IH]; cbn [count_if length]; [reflexivity |].
  rewrite Hx, IH. lia.
Qed.

Lemma count_if_range {A : Type} (p : A -> bool) (l : list A) :
  0 <= count_if p l <= Z.of_nat (length l).
Proof.
  induction l as [| x l IH]; cbn [count_if length]; [lia |].
  destruct (p x); lia.
Qed.

(** Events of a single user fill a single group, in input order. *)
Lemma group_single_fold (arn : string) (es acc : list CloudTrailEvent) :
  Forall (fun e => user_arn e = arn) es ->
  fold_left (fun groups e => append_event e groups) es [(arn, acc)]
  = [(arn, acc ++ es)].
Proof.
  intros H. revert acc. induction H as [| e es He _ IH]; intros acc; cbn.
  - now rewrite app_nil_r.
  - rewrite He, String.eqb_refl, IH, <- app_assoc. reflexivity.
Qed.

Lemma group_single (arn : string) (es : list CloudTrailEvent) :
  es <> [] ->
  Forall (fun e => user_arn e = arn) es ->
  group_by_user es = [(arn, es)].
Proof.
  intros Hne H. destruct H as [| e es He Hes]; [congruence |].
  unfold group_by_user. cbn. rewrite He. now apply group_single_fold.
Qed.

End GroupFacts.

Section TwoRules.

Local Open Scope Q_scope.

Lemma points_sum_member (r : string) (l : list string) :
  r ∈ l -> rule_points r <= points_sum l.
Proof.
  induction l as [| x l IH]; intros H; [inversion H |].
  change (points_sum (x :: l)) with (rule_points x + points_sum l).
  pose proof (points_sum_nonneg l). pose proof (rule_points_pos x).
  apply elem_of_cons in H as [-> | H]; [lra | specialize (IH H); lra].
Qed.

Lemma points_sum_two_members (r1 r2 : string) (l : list string) :
  r1 <> r2 -> r1 ∈ l -> r2 ∈ l ->
  rule_points r1 + rule_points r2 <= points_sum l.
Proof.
  intros Hne. induction l as [| x l IH]; intros H1 H2; [inversion H1 |].
  change (points_sum (x :: l)) with (rule_points x + points_sum l).
  pose proof (rule_points_pos x).
  apply elem_of_cons in H1 as [-> | H1]; apply elem_of_cons in H2 as [E | H2];
    try congruence.
  - pose proof (points_sum_member r2 l H2). lra.
  - subst x. pose proof (points_sum_member r1 l H1). lra.
  - specialize (IH H1 H2). lra.
Qed.

End TwoRules.

(** C5 as stated fails on the level.  Carol has exactly four events, all
    high-privilege, none with MFA, from one source IP, in a batch where the
    ML model flags another account: HIGH_RISK_RATIO and HIGH_RISK_NO_MFA
    trigger, the score is 35 and the level is LOW, which ranks below
    MEDIUM. *)
Lemma C5_counterexample_score_35_is_low :
  length carol_events = 4%nat /\
  Forall (fun e => user_arn e = carol /\ is_high_risk e = true /\ mfa_used e = false)
         carol_events /\
  size (ip_set carol_events) = 1%nat /\
  exists (uf_carol uf_alice : UserFeatures) (r_carol r_alice : DetectionResult),
    extract_user_features signin_batch = [uf_carol; uf_alice] /\
    uf_carol = user_features carol carol_events /\
    detect true (forest_flagging 1) default_ml_threshold default_contamination
           [uf_carol; uf_alice] = Some [r_carol; r_alice] /\
    triggered_rules r_carol = ["R02_HIGH_RISK_RATIO"; "R03_HIGH_RISK_NO_MFA"] /\
    (score (calculate_risk_score r_carol uf_carol) == 35)%Q /\
    level (calculate_risk_score r_carol uf_carol) = "LOW" /\
    level_rank "LOW" < level_rank "MEDIUM".
Proof.
  split; [reflexivity |].
  split; [repeat constructor |].
  split; [vm_compute; reflexivity |].
  do 4 eexists.
  split; [vm_compute; reflexivity |].
  split; [vm_compute; reflexivity |].
  split; [vm_compute; reflexivity |].
  repeat split; vm_compute; reflexivity.
Qed.

(** C5, amended.  For an account with exactly four events, all
    high-privilege, none with MFA, from one source IP, the features hold
    four high-risk events without MFA; HIGH_RISK_NO_MFA and HIGH_RISK_RATIO
    trigger and MULTIPLE_SOURCE_IPS does not; the score is at least 35; and
    the level is LOW exactly when the uncapped total is below 40, so at
    least MEDIUM exactly from 40 on. *)
Theorem C5_four_privileged_events_without_mfa :
  forall (events : list CloudTrailEvent) (arn : string)
         (ml_threshold : Q) (ml_scores : gmap string Q),
    length events = 4%nat ->
    Forall (fun e => user_arn e = arn /\ is_high_risk e = true /\ mfa_used e = false)
           events ->
    size (ip_set events) = 1%nat ->
    let uf := user_features arn events in
    extract_user_features events = [uf] /\
    total_events uf = 4 /\
    high_risk_event_count uf = 4 /\
    mfa_missing_high_risk uf = 4 /\
    unique_ips uf = 1 /\
    exists r : DetectionResult,
      detect_one ml_threshold ml_scores uf = Some r /\
      "R03_HIGH_RISK_NO_MFA" ∈ triggered_rules r /\
      "R02_HIGH_RISK_RATIO" ∈ triggered_rules r /\
      ("R04_MULTIPLE_SOURCE_IPS" ∉ triggered_rules r) /\
      (35 <= score (calculate_risk_score r uf))%Q /\
      (level (calculate_risk_score r uf) = "LOW"
       <-> (total (accumulate r uf) < 40)%Q) /\
      (level_rank "MEDIUM" <= level_rank (level (calculate_risk_score r uf))
       <-> (40 <= total (accumulate r uf))%Q).
Proof.
  intros events arn thr scores Hlen Hall Hip uf.
  assert (Harn : Forall (fun e => user_arn e = arn) events)
    by (eapply Forall_impl; [exact Hall | cbn; tauto]).
  assert (Hhr : Forall (fun e => is_high_risk e = true) events)
    by (eapply Forall_impl; [exact Hall | cbn; tauto]).
  assert (Hmfa : Forall (fun e => is_high_risk e && negb (mfa_used e) = true) events).
  { eapply Forall_impl; [exact Hall |]. cbn. intros e (_ & -> & ->). reflexivity. }
  assert (Hne : events <> []) by (destruct events; [discriminate | congruence]).
  assert (Htot : total_events uf = 4) by (cbn; rewrite Hlen; reflexivity).
  assert (Hcount : high_risk_event_count uf = 4).
  { cbn. rewrite (count_if_all _ _ Hhr), Hlen. reflexivity. }
  assert (Hmiss : mfa_missing_high_risk uf = 4).
  { cbn. rewrite (count_if_all _ _ Hmfa), Hlen. reflexivity. }
  assert (Hips : unique_ips uf = 1) by (cbn; rewrite Hip; reflexivity).
  split.
  { unfold extract_user_features. rewrite (group_single arn events Hne Harn).
    reflexivity. }
  do 4 (split; [assumption |]).
  destruct (detect_one_eq thr scores uf) as (r & Hr & _ & Htr & _).
  assert (H03 : "R03_HIGH_RISK_NO_MFA" ∈ triggered_rules r).
  { rewrite Htr, triggered_R03, Hmiss. lia. }
  assert (H02 : "R02_HIGH_RISK_RATIO" ∈ triggered_rules r).
  { rewrite Htr, triggered_R02, Hcount, Htot. reflexivity. }
  assert (Hraw : (35 <= total (accumulate r uf))%Q).
  { rewrite total_accumulate.
    pose proof (points_sum_two_members "R02_HIGH_RISK_RATIO" "R03_HIGH_RISK_NO_MFA"
                  (triggered_rules r) ltac:(discriminate) H02 H03) as Hsum.
    replace (rule_points "R02_HIGH_RISK_RATIO") with 15.0%Q in Hsum
      by (vm_compute; reflexivity).
    replace (rule_points "R03_HIGH_RISK_NO_MFA") with 20.0%Q in Hsum
      by (vm_compute; reflexivity).
    pose proof (ml_points_range r). pose proof (penalty_points_range uf). lra. }
  assert (Hcap : (py_min (total (accumulate r uf)) MAX_SCORE < 40)%Q
                 <-> (total (accumulate r uf) < 40)%Q).
  { destruct (py_min_spec (total (accumulate r uf)) MAX_SCORE) as [[H ->] | [H ->]];
      unfold MAX_SCORE in *; split; intros; lra. }
  exists r. split; [exact Hr |]. split; [exact H03 |]. split; [exact H02 |].
  split; [rewrite Htr, triggered_R04, Hips; lia |].
  split; [| split].
  - unfold calculate_risk_score. cbn [score].
    apply (round2_lower 35). change (inject_Z 35) with 35%Q.
    apply py_min_glb; [exact Hraw | unfold MAX_SCORE; lra].
  - unfold calculate_risk_score. cbn [level]. rewrite <- Hcap.
    destruct (_level_cases (py_min (total (accumulate r uf)) MAX_SCORE))
      as [[? E] | [[? E] | [[? E] | [? E]]]]; rewrite E;
      split; intros; try discriminate; try reflexivity; try lra; tauto.
  - unfold calculate_risk_score. cbn [level].
    assert (Hcap' : (40 <= py_min (total (accumulate r uf)) MAX_SCORE)%Q
                    <-> (40 <= total (accumulate r uf))%Q).
    { destruct (py_min_spec (total (accumulate r uf)) MAX_SCORE) as [[H ->] | [H ->]];
        unfold MAX_SCORE in *; split; intros; lra. }
    rewrite <- Hcap'.
    destruct (_level_cases (py_min (total (accumulate r uf)) MAX_SCORE))
      as [[? E] | [[? E] | [[? E] | [? E]]]]; rewrite E; cbn;
      split; intros; try lia; try lra.
Qed.

Lemma C5_witness_carol :
  exists r : DetectionResult,
    detect_one default_ml_threshold {[ carol := 0.06%Q ]}
               (user_features carol carol_events) = Some r /\
    "R03_HIGH_RISK_NO_MFA" ∈ triggered_rules r /\
    "R02_HIGH_RISK_RATIO" ∈ triggered_rules r /\
    (35 <= score (calculate_risk_score r (user_features carol carol_events)))%Q.
Proof.
  assert (Hlen : length carol_events = 4%nat) by reflexivity.
  assert (Hall : Forall (fun e => user_arn e = carol /\ is_high_risk e = true
                                  /\ mfa_used e = false) carol_events)
    by (repeat constructor).
  assert (Hip : size (ip_set carol_events) = 1%nat) by (vm_compute; reflexivity).
  destruct (C5_four_privileged_events_without_mfa carol_events carol
              default_ml_threshold {[ carol := 0.06%Q ]} Hlen Hall Hip)
    as (_ & _ & _ & _ & _ & r & Hr & H03 & H02 & _ & Hs & _).
  exists r. split; [exact Hr |]. split; [exact H03 |]. split; [exact H02 | exact Hs].
Defined.

Section GroupByUser.

Lemma group_by_user_snoc (l : list CloudTrailEvent) (e : CloudTrailEvent) :
  group_by_user (l ++ [e]) = append_event e (group_by_user l).
Proof. unfold group_by_user. now rewrite fold_left_app. Qed.

Lemma append_event_keys (e : CloudTrailEvent)
    (g : list (string * list CloudTrailEvent)) :
  (append_event e g).*1
  = if decide (user_arn e ∈ g.*1) then g.*1 else g.*1 ++ [user_arn e].
Proof.
  induction g as [| [k ks] g IH]; cbn.
  - destruct (decide (user_arn e ∈ [])) as [H | _]; [inversion H | reflexivity].
  - destruct (String.eqb_spec k (user_arn e)) as [-> | Hne]; cbn.
    + rewrite decide_True; [reflexivity | apply list_elem_of_here].
    + rewrite IH. destruct (decide (user_arn e ∈ g.*1)) as [Hin | Hout].
      * rewrite decide_True; [reflexivity | now apply list_elem_of_further].
      * rewrite decide_False; [reflexivity |].
        intros H. apply elem_of_cons in H as [H | H]; congruence.
Qed.

(** The groups after one more event: the group of its user grows at the
    end, or a new group is opened; the other groups are untouched. *)
Lemma append_event_elem (e : CloudTrailEvent)
    (g : list (string * list CloudTrailEvent)) (a : string)
    (es : list CloudTrailEvent) :
  NoDup g.*1 ->
  (a, es) ∈ append_event e g ->
  (a = user_arn e /\
   ((exists es0, (a, es0) ∈ g /\ es = es0 ++ [e]) \/ ((a ∉ g.*1) /\ es = [e])))
  \/ (a <> user_arn e /\ (a, es) ∈ g).
Proof.
  induction g as [| [k ks] g IH]; cbn; intros Hnd H.
  - apply list_elem_of_singleton in H. inversion H; subst.
    left. split; [reflexivity |]. right. split; [| reflexivity].
    intros H'. inversion H'.
  - apply NoDup_cons in Hnd as [Hk Hnd].
    destruct (String.eqb_spec k (user_arn e)) as [-> | Hne].
    + apply elem_of_cons in H as [H | H].
      * inversion H; subst. left. split; [reflexivity |]. left.
        exists ks. split; [apply list_elem_of_here | reflexivity].
      * right. split; [| now apply list_elem_of_further].
        intros ->. apply Hk. apply list_elem_of_fmap. now exists (user_arn e, es).
    + apply elem_of_cons in H as [H | H].
      * inversion H; subst. right. split; [exact Hne | apply list_elem_of_here].
      * destruct (IH Hnd H) as [[-> [(es0 & H0 & ->) | [Hout ->]]] | [Ha H0]].
        -- left. split; [reflexivity |]. left. exists es0.
           split; [now apply list_elem_of_further | reflexivity].
        -- left. split; [reflexivity |]. right. split; [| reflexivity].
           intros H'. apply elem_of_cons in H' as [H' | H']; congruence.
        -- right. split; [exact Ha | now apply list_elem_of_further].
Qed.

(** The groups of [extract_user_features]: one per user, holding the
    events of that user in input order, never empty. *)
Lemma group_by_user_spec (events : list CloudTrailEvent) :
  NoDup (group_by_user events).*1 /\
  (forall a es, (a, es) ∈ group_by_user events ->
                es = events_of a events /\ es <> []) /\
  (forall e, e ∈ events -> user_arn e ∈ (group_by_user events).*1).
Proof.
  induction events as [| e l (Hnd & Hgrp & Hkeys)] using rev_ind.
  - cbn. split; [constructor |].
    split; [intros a es H; inversion H | intros e H; inversion H].
  - rewrite group_by_user_snoc. split; [| split].
    + rewrite append_event_keys. case_decide; [exact Hnd |].
      apply NoDup_app. split; [exact Hnd |]. split.
      * intros x Hx Hx'. apply list_elem_of_singleton in Hx'. congruence.
      * apply NoDup_singleton.
    + intros a es H. unfold events_of. rewrite filter_app.
      destruct (append_event_elem e _ a es Hnd H)
        as [[-> [(es0 & H0 & ->) | [Hout ->]]] | [Ha H0]].
      * destruct (Hgrp _ _ H0) as [-> _].
        rewrite filter_cons_True by reflexivity.
        split; [reflexivity | intros E; now apply app_eq_nil in E as [_ E]].
      * rewrite filter_cons_True by reflexivity.
        assert (Hnone : filter (fun e0 => user_arn e0 = user_arn e) l = []).
        { destruct (filter (fun e0 => user_arn e0 = user_arn e) l) as [| y ys] eqn:E;
            [reflexivity |].
          assert (Hy : y ∈ filter (fun e0 => user_arn e0 = user_arn e) l)
            by (rewrite E; apply list_elem_of_here).
          apply list_elem_of_filter in Hy as [Hay Hy].
          exfalso. apply Hout. rewrite <- Hay. now apply Hkeys. }
        rewrite Hnone. split; [reflexivity | discriminate].
      * destruct (Hgrp _ _ H0) as [-> Hne].
        rewrite filter_cons_False by congruence.
        rewrite filter_nil, app_nil_r. split; [reflexivity | exact Hne].
    + intros x Hx. rewrite append_event_keys.
      apply elem_of_app in Hx as [Hx | Hx].
      * specialize (Hkeys x Hx). case_decide; [exact Hkeys |].
        apply elem_of_app. now left.
      * apply list_elem_of_singleton in Hx as ->.
        case_decide; [assumption |]. apply elem_of_app. right.
        apply list_elem_of_here.
Qed.

Lemma str_truthy_true (s : string) : str_truthy s = true <-> s <> "".
Proof. unfold str_truthy. rewrite negb_true_iff. apply String.eqb_neq. Qed.

Lemma elem_of_truthy_set (xs : list string) (x : string) :
  x ∈ truthy_set xs <-> x <> "" /\ x ∈ xs.
Proof.
  unfold truthy_set. rewrite elem_of_list_to_set.
  induction xs as [| y xs IH]; cbn.
  - split; [intros H; inversion H | intros [_ H]; inversion H].
  - destruct (str_truthy y) eqn:E.
    + apply str_truthy_true in E. rewrite !elem_of_cons, IH. split.
      * intros [-> | [H1 H2]]; [split; [exact E | now left] | split; [exact H1 | now right]].
      * intros [H1 [-> | H2]]; [now left | right; now split].
    + rewrite IH, elem_of_cons. split.
      * intros [H1 H2]. split; [exact H1 | now right].
      * intros [H1 [-> | H2]]; [| now split].
        apply str_truthy_true in H1. congruence.
Qed.

Lemma elem_of_map {A B : Type} (f : A -> B) (l : list A) (x : B) :
  x ∈ map f l <-> exists y : A, x = f y /\ y ∈ l.
Proof. apply list_elem_of_fmap. Qed.

(** Dropping the values that are empty strings leaves the set as it is. *)
Lemma truthy_set_drop_empty {A : Type} (f : A -> string) (l : list A) :
  truthy_set (map f l) = truthy_set (map f (filter (fun x => f x <> "") l)).
Proof.
  apply set_eq. intros x. rewrite !elem_of_truthy_set, !elem_of_map. split.
  - intros [Hx (y & -> & Hy)]. split; [exact Hx |]. exists y.
    split; [reflexivity |]. apply list_elem_of_filter. now split.
  - intros [Hx (y & -> & Hy)]. split; [exact Hx |]. exists y.
    split; [reflexivity |]. now apply list_elem_of_filter in Hy as [_ Hy].
Qed.

End GroupByUser.

(** The empty string is counted by the minimal detector, where the sets
    take every value, and not by [extract_user_features]. *)
Lemma blank_fields_counted_by_mvp_only :
  map unique_ips (extract_user_features blank_fields_batch) = [2] /\
  map unique_regions (extract_user_features blank_fields_batch) = [1] /\
  map Mvp.unique_ips (Mvp.extract_features blank_fields_batch) = [3] /\
  map Mvp.unique_regions (Mvp.extract_features blank_fields_batch) = [2].
Proof. repeat split; vm_compute; reflexivity. Qed.

(** C10.  [extract_user_features] yields a feature record for the user of
    every event, and each record is computed from the events of its user:
    its source-IP count is the size of the set of non-empty source IPs of
    those events and its region count the size of the set of their
    non-empty regions, so an event whose source IP (region) is the empty
    string changes neither set, and MULTIPLE_SOURCE_IPS and
    MULTI_REGION_ACTIVITY trigger exactly when there are at least 3
    distinct non-empty IPs and at least 2 distinct non-empty regions. *)
Theorem C10_empty_strings_not_counted :
  forall events : list CloudTrailEvent,
    (forall e : CloudTrailEvent,
        e ∈ events ->
        exists uf : UserFeatures,
          uf ∈ extract_user_features events /\ uf_user_arn uf = user_arn e) /\
    Forall
      (fun uf =>
         let user_evts := events_of (uf_user_arn uf) events in
         uf = user_features (uf_user_arn uf) user_evts /\
         unique_ips uf = Z.of_nat (size (ip_set user_evts)) /\
         unique_regions uf = Z.of_nat (size (region_set user_evts)) /\
         (forall ip : string,
             ip ∈ ip_set user_evts
             <-> ip <> "" /\ exists e, e ∈ user_evts /\ source_ip e = ip) /\
         (forall region : string,
             region ∈ region_set user_evts
             <-> region <> "" /\ exists e, e ∈ user_evts /\ aws_region e = region) /\
         ip_set user_evts
         = ip_set (filter (fun e => source_ip e <> "") user_evts) /\
         region_set user_evts
         = region_set (filter (fun e => aws_region e <> "") user_evts) /\
         ("R04_MULTIPLE_SOURCE_IPS" ∈ rules_triggered uf
          <-> (3 <= size (ip_set user_evts))%nat) /\
         ("R08_MULTI_REGION_ACTIVITY" ∈ rules_triggered uf
          <-> (2 <= size (region_set user_evts))%nat))
      (extract_user_features events).
Proof.
  intros events.
  destruct (group_by_user_spec events) as (_ & Hgrp & Hkeys).
  split.
  - intros e He. specialize (Hkeys e He).
    apply list_elem_of_fmap in Hkeys as ([a es] & Ha & Hin). cbn in Ha.
    exists (user_features a es). split; [| cbn; congruence].
    unfold extract_user_features. apply elem_of_map.
    exists (a, es). split; [reflexivity | exact Hin].
  - apply Forall_forall. intros uf Huf.
    unfold extract_user_features in Huf.
    apply elem_of_map in Huf as ([a es] & -> & Hin). cbn [fst snd].
    destruct (Hgrp a es Hin) as [Hes _].
    cbn [uf_user_arn user_features]. rewrite <- Hes.
    split; [reflexivity |]. split; [reflexivity |]. split; [reflexivity |].
    split.
    { intros ip. unfold ip_set. rewrite elem_of_truthy_set, elem_of_map.
      split; intros [H1 (e & H2 & H3)]; (split; [exact H1 |]); exists e; split;
        congruence || assumption. }
    split.
    { intros rg. unfold region_set. rewrite elem_of_truthy_set, elem_of_map.
      split; intros [H1 (e & H2 & H3)]; (split; [exact H1 |]); exists e; split;
        congruence || assumption. }
    split; [apply truthy_set_drop_empty |].
    split; [apply truthy_set_drop_empty |].
    split.
    + rewrite triggered_R04. cbn [unique_ips user_features]. lia.
    + rewrite triggered_R08. cbn [unique_regions user_features]. lia.
Qed.

(** * Further properties *)

(** ** Ranking *)

Section SortDesc.

Context {A : Type} (key : A -> Q).

Lemma sort_desc_cons (x : A) (l : list A) :
  sort_desc key (x :: l) = insert_desc key x (sort_desc key l).
Proof. reflexivity. Qed.

Lemma insert_desc_perm (x : A) (l : list A) :
  Permutation (insert_desc key x l) (x :: l).
Proof.
  induction l as [| y l IH]; cbn; [reflexivity |].
  destruct (Qle_bool (key y) (key x)); [reflexivity |].
  rewrite IH. apply perm_swap.
Qed.

Lemma sort_desc_perm (l : list A) : Permutation (sort_desc key l) l.
Proof.
  induction l as [| x l IH]; [reflexivity |].
  rewrite sort_desc_cons, insert_desc_perm. now apply perm_skip.
Qed.

Lemma insert_desc_sorted (x : A) (l : list A) :
  StronglySorted (score_ge key) l ->
  StronglySorted (score_ge key) (insert_desc key x l).
Proof.
  induction 1 as [| y l Hs IH Hy]; cbn.
  - repeat constructor.
  - destruct (Qle_bool (key y) (key x)) eqn:E.
    + apply Qle_bool_iff in E. constructor; [now constructor |].
      constructor; [exact E |].
      eapply Forall_impl; [exact Hy |]. unfold score_ge. cbn. intros z Hz. lra.
    + constructor; [exact IH |].
      rewrite (insert_desc_perm x l). constructor; [| exact Hy].
      unfold score_ge.
      destruct (Qlt_le_dec (key y) (key x)) as [Hlt | Hle]; [| exact Hle].
      apply Qlt_le_weak, Qle_bool_iff in Hlt. congruence.
Qed.

Lemma sort_desc_sorted (l : list A) : StronglySorted (score_ge key) (sort_desc key l).
Proof.
  induction l as [| x l IH]; [constructor |].
  rewrite sort_desc_cons. now apply insert_desc_sorted.
Qed.

(** An insertion passes only elements with a strictly larger key, so it
    does not reorder the elements of any one key. *)
Lemma insert_desc_filter (s : Q) (x : A) (l : list A) :
  List.filter (fun a => Qeq_bool (key a) s) (insert_desc key x l)
  = List.filter (fun a => Qeq_bool (key a) s) (x :: l).
Proof.
  induction l as [| y l IH]; [reflexivity |].
  cbn [insert_desc]. destruct (Qle_bool (key y) (key x)) eqn:E; [reflexivity |].
  cbn [List.filter] in *. rewrite IH.
  destruct (Qeq_bool (key x) s) eqn:Ex, (Qeq_bool (key y) s) eqn:Ey; try reflexivity.
  apply Qeq_bool_iff in Ex, Ey.
  assert (Hle : (key y <= key x)%Q) by (rewrite Ex, Ey; apply Qle_refl).
  apply Qle_bool_iff in Hle. congruence.
Qed.

Lemma sort_desc_stable (s : Q) (l : list A) :
  List.filter (fun a => Qeq_bool (key a) s) (sort_desc key l)
  = List.filter (fun a => Qeq_bool (key a) s) l.
Proof.
  induction l as [| x l IH]; [reflexivity |].
  rewrite sort_desc_cons, insert_desc_filter. cbn [List.filter]. now rewrite IH.
Qed.

(** A list already in non-increasing order is returned as it is. *)
Lemma sort_desc_sorted_id (l : list A) :
  StronglySorted (score_ge key) l -> sort_desc key l = l.
Proof.
  induction 1 as [| x l Hs IH Hx]; [reflexivity |].
  rewrite sort_desc_cons, IH. destruct l as [| y l]; [reflexivity |].
  inversion Hx as [| ? ? Hy _]; subst. unfold score_ge in Hy.
  apply Qle_bool_iff in Hy. cbn. now rewrite Hy.
Qed.

Lemma sort_desc_idempotent (l : list A) :
  sort_desc key (sort_desc key l) = sort_desc key l.
Proof. apply sort_desc_sorted_id, sort_desc_sorted. Qed.

(** The first element of the sorted list has the largest key. *)
Lemma sort_desc_head_max (l : list A) (top x : A) :
  head (sort_desc key l) = Some top -> x ∈ l -> (key x <= key top)%Q.
Proof.
  intros Hhead Hx.
  pose proof (sort_desc_sorted l) as Hs. pose proof (sort_desc_perm l) as Hp.
  rewrite <- Hp in Hx.
  destruct (sort_desc key l) as [| y k]; [discriminate |].
  injection Hhead as ->. inversion Hs as [| ? ? _ Hall]; subst.
  apply elem_of_cons in Hx as [-> | Hx]; [apply Qle_refl |].
  rewrite Forall_forall in Hall. now apply Hall.
Qed.

End SortDesc.

(** X1.  [rank_users] rearranges the assessments without adding or dropping
    one; the result is in non-increasing order of score, its first element
    has the highest score of the batch, and ranking a ranked list changes
    nothing. *)
Theorem X1_rank_users_sorted_permutation :
  forall risk_scores : list RiskScore,
    Permutation (rank_users risk_scores) risk_scores /\
    length (rank_users risk_scores) = length risk_scores /\
    StronglySorted (fun a b => (score b <= score a)%Q) (rank_users risk_scores) /\
    (forall top : RiskScore,
        head (rank_users risk_scores) = Some top ->
        forall r : RiskScore, r ∈ risk_scores -> (score r <= score top)%Q) /\
    (rank_users risk_scores = [] <-> risk_scores = []) /\
    rank_users (rank_users risk_scores) = rank_users risk_scores.
Proof.
  intros l. unfold rank_users.
  split; [apply sort_desc_perm |].
  split; [apply Permutation_length, sort_desc_perm |].
  split; [apply sort_desc_sorted |].
  split; [intros top Hh r Hr; now apply (sort_desc_head_max score l top r) |].
  split; [| apply sort_desc_idempotent].
  split.
  - intros E. pose proof (sort_desc_perm score l) as Hp. rewrite E in Hp.
    now apply Permutation_nil in Hp.
  - intros ->. reflexivity.
Qed.

(** X2.  [rank_users] is stable: the assessments of any one score appear
    in the ranking in their input order. *)
Theorem X2_rank_users_stable :
  forall (risk_scores : list RiskScore) (s : Q),
    List.filter (fun r => Qeq_bool (score r) s) (rank_users risk_scores)
    = List.filter (fun r => Qeq_bool (score r) s) risk_scores.
Proof.
  intros l s. unfold rank_users.
  induction l as [| r l IH]; [reflexivity |].
  rewrite sort_desc_cons, insert_desc_filter. cbn [List.filter].
  now rewrite IH.
Qed.

(** ** Feature extraction: partition and counters *)

Section CounterFacts.

Lemma count_if_app {A : Type} (p : A -> bool) (l1 l2 : list A) :
  count_if p (l1 ++ l2) = count_if p l1 + count_if p l2.
Proof. induction l1 as [| x l1 IH]; cbn [count_if app]; [lia | rewrite IH; lia]. Qed.

Lemma count_if_perm {A : Type} (p : A -> bool) (l1 l2 : list A) :
  Permutation l1 l2 -> count_if p l1 = count_if p l2.
Proof. induction 1; cbn [count_if]; lia. Qed.

Lemma count_if_le {A : Type} (p q : A -> bool) (l : list A) :
  (forall x, p x = true -> q x = true) -> count_if p l <= count_if q l.
Proof.
  intros Hpq. induction l as [| x l IH]; cbn [count_if]; [lia |].
  destruct (p x) eqn:E; [rewrite (Hpq x E); lia | destruct (q x); lia].
Qed.

Lemma count_if_map {A B : Type} (f : A -> B) (p : B -> bool) (l : list A) :
  count_if p (map f l) = count_if (fun x => p (f x)) l.
Proof. induction l as [| x l IH]; cbn [count_if map]; [reflexivity | now rewrite IH]. Qed.

(** The loop of [Counter] from any starting dict. *)
Lemma Counter_fold (xs : list string) (c : gmap string Z) (k : string) :
  fold_left (fun c x => <[x := default 0 (c !! x) + 1]> c) xs c !! k
  = if decide (k ∈ xs)
    then Some (default 0 (c !! k) + count_if (String.eqb k) xs)
    else c !! k.
Proof.
  revert c. induction xs as [| x xs IH]; intros c; cbn [fold_left count_if].
  - destruct (decide (k ∈ [])) as [H | _]; [inversion H | reflexivity].
  - rewrite IH. destruct (String.eqb_spec k x) as [-> | Hne].
    + rewrite lookup_insert_eq. cbn [default]. unfold id.
      rewrite (decide_True (P := x ∈ x :: xs)) by apply list_elem_of_here.
      destruct (decide (x ∈ xs)) as [Hin | Hout].
      * f_equal. lia.
      * f_equal.
        assert (Hz : count_if (String.eqb x) xs = 0).
        { clear IH. induction xs as [| y ys IHy]; [reflexivity |].
          cbn [count_if]. destruct (String.eqb_spec x y) as [-> | _].
          - exfalso. apply Hout, list_elem_of_here.
          - rewrite IHy; [reflexivity |]. intros H. apply Hout.
            now apply list_elem_of_further. }
        lia.
    + rewrite lookup_insert_ne by congruence.
      destruct (decide (k ∈ xs)) as [Hin | Hout].
      * rewrite decide_True by now apply list_elem_of_further.
        f_equal.
      * rewrite decide_False; [reflexivity |].
        intros H. apply elem_of_cons in H as [H | H]; contradiction.
Qed.

Lemma count_if_eqb_pos (k : string) (xs : list string) :
  k ∈ xs -> 1 <= count_if (String.eqb k) xs.
Proof.
  induction xs as [| x xs IH]; intros H; [inversion H |]. cbn [count_if].
  pose proof (count_if_range (String.eqb k) xs).
  apply elem_of_cons in H as [-> | H].
  - rewrite String.eqb_refl. lia.
  - specialize (IH H). destruct (String.eqb k x); lia.
Qed.

Lemma Counter_lookup (xs : list string) (k : string) :
  Counter xs !! k
  = if decide (k ∈ xs) then Some (count_if (String.eqb k) xs) else None.
Proof.
  unfold Counter. rewrite Counter_fold, lookup_empty. cbn [default].
  destruct (decide (k ∈ xs)); reflexivity.
Qed.

Lemma Counter_dom (xs : list string) : dom (Counter xs) = list_to_set xs.
Proof.
  apply set_eq. intros k. rewrite elem_of_dom, Counter_lookup, elem_of_list_to_set.
  destruct (decide (k ∈ xs)) as [H | H]; split; intros H'.
  - exact H.
  - eauto.
  - now destruct H' as [? H'].
  - contradiction.
Qed.

Lemma size_list_to_set_le (xs : list string) :
  (size (list_to_set xs : gset string) <= length xs)%nat.
Proof.
  induction xs as [| x xs IH]; cbn [list_to_set length foldr].
  - rewrite size_empty. lia.
  - rewrite size_union_alt, size_singleton.
    assert (Hdiff : (size ((list_to_set xs : gset string) ∖ {[x]})
                     <= size (list_to_set xs : gset string))%nat).
    { apply subseteq_size. apply subseteq_difference_l. reflexivity. }
    lia.
Qed.

Lemma size_list_to_set_pos (xs : list string) :
  xs <> [] -> (1 <= size (list_to_set xs : gset string))%nat.
Proof.
  destruct xs as [| x xs]; [congruence | intros _].
  assert (Hx : x ∈ (list_to_set (x :: xs) : gset string))
    by (apply elem_of_list_to_set, list_elem_of_here).
  destruct (decide (size (list_to_set (x :: xs) : gset string) = 0%nat)) as [E | E]; [| lia].
  apply size_empty_iff in E. rewrite E in Hx. now apply not_elem_of_empty in Hx.
Qed.

Lemma filter_length_le {A : Type} (p : A -> bool) (l : list A) :
  (length (List.filter p l) <= length l)%nat.
Proof. induction l as [| x l IH]; cbn; [lia | destruct (p x); cbn; lia]. Qed.

Lemma truthy_set_size_le (xs : list string) :
  (size (truthy_set xs) <= length xs)%nat.
Proof.
  unfold truthy_set. etransitivity; [apply size_list_to_set_le |].
  apply filter_length_le.
Qed.

End CounterFacts.

Section RunFacts.

Lemma leading_le_count (flags : list bool) :
  leading_failures flags <= count_if id flags.
Proof.
  induction flags as [| [] flags IH]; cbn [leading_failures count_if id]; try lia.
  pose proof (count_if_range id flags). lia.
Qed.

(** A run of failures is made of failures. *)
Lemma longest_run_le_count (flags : list bool) :
  longest_run flags <= count_if id flags.
Proof.
  induction flags as [| [] flags IH]; cbn [longest_run count_if id]; try lia.
  pose proof (leading_le_count flags). lia.
Qed.

Lemma longest_run_nonneg (flags : list bool) : 0 <= longest_run flags.
Proof.
  pose proof (leading_le_longest flags). pose proof (leading_failures_nonneg flags). lia.
Qed.

Lemma _max_consecutive_failures_range (events : list CloudTrailEvent) :
  0 <= _max_consecutive_failures events <= count_if failed events.
Proof.
  unfold _max_consecutive_failures. rewrite scan_failures_longest.
  split; [apply longest_run_nonneg |].
  etransitivity; [apply longest_run_le_count |].
  rewrite count_if_map. unfold id.
  apply Z.eq_le_incl, count_if_perm, sorted_by_time_perm.
Qed.

Lemma leading_block (flags : list bool) :
  exists after : list bool,
    flags = repeat true (Z.to_nat (leading_failures flags)) ++ after.
Proof.
  induction flags as [| [] flags (after & IH)]; cbn [leading_failures].
  - exists []. reflexivity.
  - exists after. pose proof (leading_failures_nonneg flags).
    replace (Z.to_nat (1 + leading_failures flags))
      with (S (Z.to_nat (leading_failures flags))) by lia.
    cbn. now rewrite <- IH.
  - exists (false :: flags). reflexivity.
Qed.

Lemma longest_run_block (flags : list bool) :
  has_block flags (Z.to_nat (longest_run flags)).
Proof.
  induction flags as [| [] flags (before & after & IH)]; cbn [longest_run].
  - exists [], []. reflexivity.
  - pose proof (leading_failures_nonneg flags).
    destruct (Z.max_spec (1 + leading_failures flags) (longest_run flags))
      as [[_ ->] | [_ ->]].
    + exists (true :: before), after. cbn. now rewrite <- IH.
    + destruct (leading_block flags) as (rest & Hrest). exists [], rest.
      replace (Z.to_nat (1 + leading_failures flags))
        with (S (Z.to_nat (leading_failures flags))) by lia.
      cbn. now rewrite <- Hrest.
  - exists (false :: before), after. cbn. now rewrite <- IH.
Qed.

Lemma prefix_block_le_leading (flags after : list bool) (n : nat) :
  flags = repeat true n ++ after -> Z.of_nat n <= leading_failures flags.
Proof.
  revert flags. induction n as [| n IH]; intros flags ->; cbn [repeat app leading_failures].
  - apply leading_failures_nonneg.
  - specialize (IH _ eq_refl). lia.
Qed.

Lemma block_le_longest_run (flags : list bool) (n : nat) :
  has_block flags n -> Z.of_nat n <= longest_run flags.
Proof.
  intros (before & after & ->).
  induction before as [| b before IH]; cbn [app].
  - etransitivity; [eapply prefix_block_le_leading; reflexivity |].
    apply leading_le_longest.
  - destruct b; cbn [longest_run]; lia.
Qed.

End RunFacts.

Section ExtractFacts.

Lemma extract_arns (events : list CloudTrailEvent) :
  map uf_user_arn (extract_user_features events) = (group_by_user events).*1.
Proof.
  unfold extract_user_features. generalize (group_by_user events) as g.
  induction g as [| [a es] g IH]; cbn; [reflexivity | now rewrite IH].
Qed.

(** Every record is computed from the events of its own user, and there
    is at least one such event. *)
Lemma extract_user_features_spec (events : list CloudTrailEvent) :
  Forall (fun uf =>
            uf = user_features (uf_user_arn uf) (events_of (uf_user_arn uf) events) /\
            events_of (uf_user_arn uf) events <> [])
         (extract_user_features events).
Proof.
  destruct (group_by_user_spec events) as (_ & Hgrp & _).
  apply Forall_forall. intros uf Huf. unfold extract_user_features in Huf.
  apply elem_of_map in Huf as ([a es] & -> & Hin). cbn [fst snd uf_user_arn user_features].
  destruct (Hgrp a es Hin) as [<- Hne]. split; [reflexivity | exact Hne].
Qed.

(** The keys of an insertion-ordered dict: first appearances, in order. *)
Lemma group_by_user_keys (events : list CloudTrailEvent) :
  (group_by_user events).*1 = reverse (remove_dups (reverse (map user_arn events))).
Proof.
  induction events as [| e l IH] using rev_ind; [reflexivity |].
  rewrite group_by_user_snoc, append_event_keys, IH, map_app, reverse_app.
  cbn [map]. change (reverse [user_arn e]) with [user_arn e].
  cbn [app remove_dups].
  destruct (decide_rel elem_of (user_arn e) (reverse (map user_arn l))) as [Hin | Hout].
  - rewrite decide_True; [reflexivity |].
    rewrite elem_of_reverse, elem_of_remove_dups. exact Hin.
  - rewrite decide_False.
    + now rewrite reverse_cons.
    + intros H. apply Hout. now rewrite elem_of_reverse, elem_of_remove_dups in H.
Qed.

Lemma append_event_sizes (e : CloudTrailEvent)
    (g : list (string * list CloudTrailEvent)) :
  foldr Z.add 0 (map (fun p => Z.of_nat (length p.2)) (append_event e g))
  = foldr Z.add 0 (map (fun p => Z.of_nat (length p.2)) g) + 1.
Proof.
  induction g as [| [k ks] g IH]; cbn; [reflexivity |].
  destruct (String.eqb k (user_arn e)); cbn.
  - rewrite length_app. cbn. lia.
  - rewrite IH. lia.
Qed.

Lemma group_by_user_sizes (events : list CloudTrailEvent) :
  foldr Z.add 0 (map (fun p => Z.of_nat (length p.2)) (group_by_user events))
  = Z.of_nat (length events).
Proof.
  induction events as [| e l IH] using rev_ind; [reflexivity |].
  rewrite group_by_user_snoc, append_event_sizes, IH, length_app. cbn. lia.
Qed.

Lemma fold_min_spec (ts : list Z) (t : Z) :
  let m := fold_left Z.min ts t in
  m ∈ t :: ts /\ Forall (fun x => m <= x) (t :: ts).
Proof.
  revert t. induction ts as [| x ts IH]; intros t; cbn [fold_left].
  - split; [apply list_elem_of_here | repeat constructor; lia].
  - destruct (IH (Z.min t x)) as [Hin Hall]. cbv zeta. split.
    + apply elem_of_cons in Hin as [Hin | Hin].
      * rewrite Hin. destruct (Z.min_spec t x) as [[_ ->] | [_ ->]];
          [apply list_elem_of_here | apply list_elem_of_further, list_elem_of_here].
      * now do 2 apply list_elem_of_further.
    + inversion Hall as [| ? ? Hm Hrest]; subst.
      constructor; [lia |]. constructor; [lia | exact Hrest].
Qed.

Lemma fold_max_spec (ts : list Z) (t : Z) :
  let m := fold_left Z.max ts t in
  m ∈ t :: ts /\ Forall (fun x => x <= m) (t :: ts).
Proof.
  revert t. induction ts as [| x ts IH]; intros t; cbn [fold_left].
  - split; [apply list_elem_of_here | repeat constructor; lia].
  - destruct (IH (Z.max t x)) as [Hin Hall]. cbv zeta. split.
    + apply elem_of_cons in Hin as [Hin | Hin].
      * rewrite Hin. destruct (Z.max_spec t x) as [[_ ->] | [_ ->]];
          [apply list_elem_of_further, list_elem_of_here | apply list_elem_of_here].
      * now do 2 apply list_elem_of_further.
    + inversion Hall as [| ? ? Hm Hrest]; subst.
      constructor; [lia |]. constructor; [lia | exact Hrest].
Qed.

End ExtractFacts.

(** X3.  [extract_user_features] returns one record per distinct
    [user_arn], in the order in which the users first appear in the batch;
    the records partition the events ([total_events] adds up to the size
    of the batch), and the result is empty only for an empty batch. *)
Theorem X3_extract_one_record_per_user :
  forall events : list CloudTrailEvent,
    let arns := map uf_user_arn (extract_user_features events) in
    arns = reverse (remove_dups (reverse (map user_arn events))) /\
    NoDup arns /\
    (forall arn : string, arn ∈ arns <-> arn ∈ map user_arn events) /\
    foldr Z.add 0 (map total_events (extract_user_features events))
    = Z.of_nat (length events) /\
    (extract_user_features events = [] <-> events = []).
Proof.
  intros events arns.
  assert (Harns : arns = reverse (remove_dups (reverse (map user_arn events)))).
  { unfold arns. rewrite extract_arns. apply group_by_user_keys. }
  assert (Hsum : foldr Z.add 0 (map total_events (extract_user_features events))
                 = Z.of_nat (length events)).
  { rewrite <- group_by_user_sizes. unfold extract_user_features.
    generalize (group_by_user events) as g.
    induction g as [| [a es] g IH]; cbn; [reflexivity | now rewrite IH]. }
  split; [exact Harns |].
  split; [rewrite Harns, reverse_Permutation; apply NoDup_remove_dups |].
  split.
  { intros arn. rewrite Harns, elem_of_reverse, elem_of_remove_dups.
    apply elem_of_reverse. }
  split; [exact Hsum |].
  split.
  - intros E. rewrite E in Hsum. cbn in Hsum.
    destruct events; [reflexivity | cbn in Hsum; lia].
  - intros ->. reflexivity.
Qed.

(** X4.  The counters of every extracted record are consistent: there is
    at least one event; the high-risk events without MFA are among the
    high-risk events; the longest failure streak is at most the number of
    failed events; every counter, the numbers of distinct source IPs and
    regions included, is between 0 and the number of events; and at least
    one event name is seen. *)
Theorem X4_extracted_counters_consistent :
  forall events : list CloudTrailEvent,
    Forall
      (fun uf =>
         1 <= total_events uf /\
         0 <= mfa_missing_high_risk uf <= high_risk_event_count uf /\
         high_risk_event_count uf <= total_events uf /\
         0 <= consecutive_failures uf <= failed_event_count uf /\
         failed_event_count uf <= total_events uf /\
         0 <= off_hours_event_count uf <= total_events uf /\
         0 <= admin_action_count uf <= total_events uf /\
         0 <= unique_ips uf <= total_events uf /\
         0 <= unique_regions uf <= total_events uf /\
         1 <= unique_event_names uf <= total_events uf)
      (extract_user_features events).
Proof.
  intros events.
  eapply Forall_impl; [apply extract_user_features_spec |].
  intros uf [Huf Hne]. cbv beta.
  set (evts := events_of (uf_user_arn uf) events) in *.
  rewrite Huf. cbn [total_events mfa_missing_high_risk high_risk_event_count
                    consecutive_failures failed_event_count off_hours_event_count
                    admin_action_count unique_ips unique_regions unique_event_names
                    user_features].
  assert (Hlen : (1 <= length evts)%nat) by (destruct evts; [congruence | cbn; lia]).
  pose proof (count_if_range is_high_risk evts).
  pose proof (count_if_range failed evts).
  pose proof (count_if_range (fun e => _is_off_hours (event_time e)) evts).
  pose proof (count_if_range (fun e => is_high_risk e && negb (mfa_used e)) evts).
  pose proof (count_if_range (fun e => bool_decide (event_name e ∈ ADMIN_EVENTS)) evts).
  pose proof (count_if_le (fun e => is_high_risk e && negb (mfa_used e)) is_high_risk evts)
    as Hmfa.
  pose proof (_max_consecutive_failures_range evts).
  pose proof (truthy_set_size_le (map source_ip evts)) as Hips.
  pose proof (truthy_set_size_le (map aws_region evts)) as Hregions.
  rewrite length_map in Hips, Hregions.
  assert (Hnames : (1 <= size (Counter (map event_name evts)) <= length evts)%nat).
  { rewrite <- size_dom, Counter_dom. split.
    - apply size_list_to_set_pos. destruct evts; [congruence | discriminate].
    - etransitivity; [apply size_list_to_set_le |]. now rewrite length_map. }
  unfold ip_set, region_set.
  repeat split; try lia.
  apply Hmfa. intros e He. now apply andb_true_iff in He as [He _].
Qed.

(** X5.  [event_counts] of an extracted record maps each event name of
    the user to the number of the user's events with that name and has no
    other key, and [unique_event_names] is the number of distinct names. *)
Theorem X5_event_counts_are_occurrences :
  forall events : list CloudTrailEvent,
    Forall
      (fun uf =>
         let evts := events_of (uf_user_arn uf) events in
         (forall name : string,
             event_counts uf !! name
             = if decide (name ∈ map event_name evts)
               then Some (count_if (fun e => String.eqb name (event_name e)) evts)
               else None) /\
         (forall (name : string) (n : Z),
             event_counts uf !! name = Some n -> 1 <= n <= total_events uf) /\
         unique_event_names uf
         = Z.of_nat (size (list_to_set (map event_name evts) : gset string)))
      (extract_user_features events).
Proof.
  intros events.
  eapply Forall_impl; [apply extract_user_features_spec |].
  intros uf [Huf _]. cbv beta zeta.
  set (evts := events_of (uf_user_arn uf) events) in *.
  assert (Hlookup : forall name : string,
             event_counts uf !! name
             = if decide (name ∈ map event_name evts)
               then Some (count_if (fun e => String.eqb name (event_name e)) evts)
               else None).
  { intros name. rewrite Huf. cbn [event_counts user_features].
    rewrite Counter_lookup, count_if_map. reflexivity. }
  split; [exact Hlookup |]. split.
  - intros name n Hn. rewrite Hlookup in Hn.
    destruct (decide (name ∈ map event_name evts)) as [Hin | Hout]; [| discriminate].
    injection Hn as <-. rewrite <- count_if_map. split.
    + now apply count_if_eqb_pos.
    + pose proof (count_if_range (String.eqb name) (map event_name evts)) as Hr.
      rewrite length_map in Hr. rewrite Huf. cbn [total_events user_features]. lia.
  - rewrite Huf. cbn [unique_event_names user_features].
    now rewrite <- size_dom, Counter_dom.
Qed.

(** X6.  [first_seen] and [last_seen] of an extracted record are never
    [None]: they are the earliest and the latest timestamp among the events
    of the user, each the timestamp of one of those events. *)
Theorem X6_first_and_last_seen :
  forall events : list CloudTrailEvent,
    Forall
      (fun uf =>
         exists t0 t1 : Z,
           first_seen uf = Some t0 /\
           last_seen uf = Some t1 /\
           t0 <= t1 /\
           (forall e : CloudTrailEvent,
               e ∈ events -> user_arn e = uf_user_arn uf ->
               t0 <= event_time e <= t1) /\
           (exists e : CloudTrailEvent,
               e ∈ events /\ user_arn e = uf_user_arn uf /\ event_time e = t0) /\
           (exists e : CloudTrailEvent,
               e ∈ events /\ user_arn e = uf_user_arn uf /\ event_time e = t1))
      (extract_user_features events).
Proof.
  intros events.
  eapply Forall_impl; [apply extract_user_features_spec |].
  intros uf [Huf Hne]. cbv beta.
  set (evts := events_of (uf_user_arn uf) events) in *.
  assert (Hmem : forall e, e ∈ evts <-> user_arn e = uf_user_arn uf /\ e ∈ events).
  { intros e. unfold evts, events_of. rewrite list_elem_of_filter. reflexivity. }
  destruct evts as [| e0 es] eqn:E; [congruence |].
  destruct (fold_min_spec (map event_time es) (event_time e0)) as [Hmin_in Hmin].
  destruct (fold_max_spec (map event_time es) (event_time e0)) as [Hmax_in Hmax].
  change (event_time e0 :: map event_time es) with (map event_time (e0 :: es)) in *.
  rewrite Forall_forall in Hmin, Hmax.
  exists (fold_left Z.min (map event_time es) (event_time e0)),
         (fold_left Z.max (map event_time es) (event_time e0)).
  split; [rewrite Huf; reflexivity |].
  split; [rewrite Huf; reflexivity |].
  split.
  { specialize (Hmin _ Hmax_in). exact Hmin. }
  split.
  { intros e He Harn.
    assert (Hin : event_time e ∈ map event_time (e0 :: es)).
    { apply elem_of_map. exists e. split; [reflexivity |]. apply Hmem. now split. }
    split; [now apply Hmin | now apply Hmax]. }
  split.
  - apply elem_of_map in Hmin_in as (e & He & Hin).
    apply Hmem in Hin as [Harn Hin]. exists e. now repeat split.
  - apply elem_of_map in Hmax_in as (e & He & Hin).
    apply Hmem in Hin as [Harn Hin]. exists e. now repeat split.
Qed.

(** X7.  [_max_consecutive_failures] returns the length of the longest
    block of consecutive failed events in the time-sorted partition: a
    block of that length exists and none is longer.  The value is between
    0 and the number of failed events, and it is 0 only when no event
    failed. *)
Theorem X7_longest_failure_block :
  forall events : list CloudTrailEvent,
    let flags := map failed (sorted_by_time events) in
    let m := _max_consecutive_failures events in
    0 <= m <= count_if failed events /\
    has_block flags (Z.to_nat m) /\
    (forall n : nat, has_block flags n -> Z.of_nat n <= m) /\
    (m = 0 <-> count_if failed events = 0).
Proof.
  intros events flags m.
  assert (Hm : m = longest_run flags) by apply scan_failures_longest.
  assert (Hrange : 0 <= m <= count_if failed events)
    by apply _max_consecutive_failures_range.
  assert (Hmax : forall n : nat, has_block flags n -> Z.of_nat n <= m).
  { intros n Hn. rewrite Hm. now apply block_le_longest_run. }
  split; [exact Hrange |].
  split; [rewrite Hm; apply longest_run_block |].
  split; [exact Hmax |].
  split; [| lia].
  intros Hzero.
  assert (Hcount : count_if failed events = count_if id flags).
  { unfold flags. rewrite count_if_map. unfold id.
    apply count_if_perm. symmetry. apply sorted_by_time_perm. }
  rewrite Hcount.
  destruct (decide (true ∈ flags)) as [Hin | Hout].
  - apply list_elem_of_split in Hin as (before & after & Hsplit).
    specialize (Hmax 1%nat). cbn in Hmax.
    assert (Hblock : has_block flags 1) by (exists before, after; exact Hsplit).
    specialize (Hmax Hblock). lia.
  - clear -Hout. induction flags as [| [] flags IH]; cbn [count_if id].
    + reflexivity.
    + exfalso. apply Hout, list_elem_of_here.
    + rewrite IH; [reflexivity |]. intros H. apply Hout. now apply list_elem_of_further.
Qed.

(** ** The rule engine: catalog order and integer thresholds *)

Section RuleOrder.

Lemma sublist_selected (checks : list (string * bool)) :
  sublist (map fst (List.filter snd checks)) (map fst checks).
Proof.
  induction checks as [| [k b] checks IH]; cbn; [constructor |].
  destruct b; cbn; [now apply sublist_skip | now apply sublist_cons].
Qed.

Lemma catalog_NoDup : NoDup catalog.
Proof. apply (bool_decide_unpack _). vm_compute. exact I. Qed.

Lemma rule_checks_ids (uf : UserFeatures) : map fst (rule_checks uf) = catalog.
Proof. reflexivity. Qed.

Lemma rules_triggered_sublist (uf : UserFeatures) :
  sublist (rules_triggered uf) catalog.
Proof. rewrite <- (rule_checks_ids uf). apply sublist_selected. Qed.

Lemma rules_triggered_NoDup (uf : UserFeatures) : NoDup (rules_triggered uf).
Proof. eapply sublist_NoDup; [apply catalog_NoDup | apply rules_triggered_sublist]. Qed.

Lemma catalog_has_points (r : string) :
  r ∈ catalog -> is_Some (RULE_BASE_SCORES !! r).
Proof.
  unfold catalog. intros H.
  repeat (apply elem_of_cons in H as [-> | H]; [vm_compute; eauto |]).
  inversion H.
Qed.

Lemma triggered_R07 (uf : UserFeatures) :
  "R07_EXCESSIVE_ADMIN_ACTIONS" ∈ rules_triggered uf <-> 5 <= admin_action_count uf.
Proof.
  rewrite elem_of_rules_triggered, <- Z.leb_le. unfold rule_checks. split.
  - intros H. solve_check_membership. congruence.
  - intros ->. solve_check_membership.
Qed.

Lemma triggered_R09 (uf : UserFeatures) :
  "R09_EVENT_BURST" ∈ rules_triggered uf <-> 100 < total_events uf.
Proof.
  rewrite elem_of_rules_triggered, <- Z.ltb_lt. unfold rule_checks. split.
  - intros H. solve_check_membership. congruence.
  - intros ->. solve_check_membership.
Qed.

(** A floored quotient against a fraction, without division. *)
Lemma ratio_above_cross (n : Z) (d : positive) (a t : Z) :
  (n # d < ratio a t)%Q <-> n * Z.max t 1 < Z.pos d * a.
Proof.
  unfold ratio. destruct (Z.max t 1) as [| m | m] eqn:E; try lia.
  unfold Qlt, Qdiv, Qmult, Qinv, inject_Z. cbn. lia.
Qed.

End RuleOrder.

(** X8.  [RuleEngine.evaluate] never raises, and its verdict is a
    selection from the nine catalog identifiers, in catalog order and
    without repetition: every triggered identifier has an entry in
    [RULE_BASE_SCORES], and none is spelled like a breakdown key of the
    scorer. *)
Theorem X8_evaluate_selects_from_catalog :
  forall uf : UserFeatures,
    exists triggered : list string,
      evaluate uf = Some triggered /\
      sublist triggered catalog /\
      NoDup triggered /\
      (length triggered <= 9)%nat /\
      Forall (fun r => r ∈ catalog /\ is_Some (RULE_BASE_SCORES !! r)) triggered /\
      ("ML_ANOMALY" ∉ triggered) /\
      ("CONSECUTIVE_FAIL_PENALTY" ∉ triggered).
Proof.
  intros uf. exists (rules_triggered uf).
  split; [apply evaluate_eq |].
  split; [apply rules_triggered_sublist |].
  split; [apply rules_triggered_NoDup |].
  split.
  { change 9%nat with (length catalog).
    apply sublist_length, rules_triggered_sublist. }
  split.
  { apply Forall_forall. intros r Hr.
    apply rules_triggered_in_catalog in Hr.
    split; [exact Hr | now apply catalog_has_points]. }
  split; intros H; apply rules_triggered_in_catalog in H;
    apply (bool_decide_pack _) in H; vm_compute in H; exact H.
Qed.

(** X9.  Each of the nine rules depends on its own counters only, and the
    ratio rules are strict: with [m] the number of events floored at 1,
    OFF_HOURS_ACCESS triggers exactly when 10 times the off-hours count
    exceeds 3 m, HIGH_RISK_RATIO when 5 times the high-risk count exceeds
    m, HIGH_FAILURE_RATE when 5 times the failed count exceeds 2 m; the
    count rules trigger from 1, 3, 5, 5 and 2, and EVENT_BURST above 100
    events. *)
Theorem X9_rule_thresholds :
  forall uf : UserFeatures,
    let m := Z.max (total_events uf) 1 in
    exists triggered : list string,
      evaluate uf = Some triggered /\
      ("R01_OFF_HOURS_ACCESS" ∈ triggered <-> 3 * m < 10 * off_hours_event_count uf) /\
      ("R02_HIGH_RISK_RATIO" ∈ triggered <-> m < 5 * high_risk_event_count uf) /\
      ("R03_HIGH_RISK_NO_MFA" ∈ triggered <-> 1 <= mfa_missing_high_risk uf) /\
      ("R04_MULTIPLE_SOURCE_IPS" ∈ triggered <-> 3 <= unique_ips uf) /\
      ("R05_HIGH_FAILURE_RATE" ∈ triggered <-> 2 * m < 5 * failed_event_count uf) /\
      ("R06_CONSECUTIVE_FAILURES" ∈ triggered <-> 5 <= consecutive_failures uf) /\
      ("R07_EXCESSIVE_ADMIN_ACTIONS" ∈ triggered <-> 5 <= admin_action_count uf) /\
      ("R08_MULTI_REGION_ACTIVITY" ∈ triggered <-> 2 <= unique_regions uf) /\
      ("R09_EVENT_BURST" ∈ triggered <-> 100 < total_events uf).
Proof.
  intros uf m. exists (rules_triggered uf).
  split; [apply evaluate_eq |].
  split.
  { rewrite triggered_R01. change 0.30%Q with (30 # 100)%Q.
    rewrite ratio_above_cross. fold m. lia. }
  split.
  { rewrite triggered_R02. change 0.20%Q with (20 # 100)%Q.
    rewrite ratio_above_cross. fold m. lia. }
  split; [apply triggered_R03 |].
  split; [apply triggered_R04 |].
  split.
  { rewrite triggered_R05. change 0.40%Q with (40 # 100)%Q.
    rewrite ratio_above_cross. fold m. lia. }
  split; [apply triggered_R06 |].
  split; [apply triggered_R07 |].
  split; [apply triggered_R08 | apply triggered_R09].
Qed.

(** ** The ML detector: the score dict *)

Section ScoreDict.

Context {A : Type} (key : A -> string) (value : nat -> Q).

(** [{key(l[i]): value(i) for i in range(len(l))}]. *)
Let indexed_dict (l : list A) : gmap string Q :=
  fold_left (fun m iu => <[key iu.2 := value iu.1]> m)
            (imap (fun i x => (i, x)) l) ∅.

Lemma indexed_dict_snoc (l : list A) (y : A) :
  indexed_dict (l ++ [y]) = <[key y := value (length l)]> (indexed_dict l).
Proof.
  unfold indexed_dict. rewrite imap_app, fold_left_app. cbn.
  now rewrite Nat.add_0_r.
Qed.

Lemma indexed_dict_dom (l : list A) (k : string) :
  is_Some (indexed_dict l !! k) <-> k ∈ map key l.
Proof.
  induction l as [| y l IH] using rev_ind.
  - unfold indexed_dict. cbn. rewrite lookup_empty. split.
    + intros [? H]. discriminate.
    + intros H. inversion H.
  - rewrite indexed_dict_snoc, map_app, elem_of_app, <- IH. cbn [map].
    rewrite lookup_insert. case_decide as Hk.
    + subst k. split; [intros _; right; apply list_elem_of_here | eauto].
    + split; [now left |]. intros [H | H]; [exact H |].
      apply list_elem_of_singleton in H. congruence.
Qed.

Lemma indexed_dict_lookup (l : list A) (i : nat) (x : A) :
  NoDup (map key l) ->
  l !! i = Some x ->
  indexed_dict l !! key x = Some (value i).
Proof.
  revert i x. induction l as [| y l IH] using rev_ind; intros i x Hnd Hi.
  - discriminate.
  - rewrite indexed_dict_snoc. rewrite map_app in Hnd.
    apply NoDup_app in Hnd as (Hnd & Hfresh & _).
    destruct (decide (i < length l)%nat) as [Hlt | Hge].
    + rewrite lookup_app_l in Hi by exact Hlt.
      rewrite lookup_insert_ne; [now apply IH |].
      intros E. apply (Hfresh (key x)).
      * apply elem_of_map. exists x. split; [reflexivity |].
        eapply list_elem_of_lookup_2. exact Hi.
      * rewrite <- E. apply list_elem_of_here.
    + rewrite lookup_app_r in Hi by lia.
      destruct (i - length l)%nat as [| n] eqn:E; [| destruct n; discriminate].
      injection Hi as ->. replace i with (length l) by lia.
      apply lookup_insert_eq.
Qed.

End ScoreDict.

(** X10.  The dict that [fit_predict] returns has exactly the accounts of
    the batch as keys, so the default of [ml_scores.get(arn, 0.0)] is never
    used for them.  When the ML library is missing or the batch has fewer
    than 2 accounts every score is 0.0; otherwise, for accounts with
    different identifiers, the score of the i-th account is the i-th value
    of the model's decision function on the whole batch. *)
Theorem X10_fit_predict_scores :
  forall (sklearn_available : bool)
         (decision_function : Q -> list UserFeatures -> nat -> Q)
         (contamination : Q) (features_list : list UserFeatures),
    let ml_scores :=
      fit_predict sklearn_available decision_function contamination features_list in
    (forall arn : string,
        is_Some (ml_scores !! arn) <-> arn ∈ map uf_user_arn features_list) /\
    (sklearn_available = false \/ (length features_list < 2)%nat ->
     forall uf : UserFeatures,
       uf ∈ features_list -> ml_scores !! uf_user_arn uf = Some 0%Q) /\
    (sklearn_available = true -> (2 <= length features_list)%nat ->
     NoDup (map uf_user_arn features_list) ->
     forall (i : nat) (uf : UserFeatures),
       features_list !! i = Some uf ->
       ml_scores !! uf_user_arn uf
       = Some (decision_function contamination features_list i)).
Proof.
  intros sk df cont l ml_scores.
  assert (Hneutral : forall arn : string,
             is_Some (neutral_scores l !! arn) <-> arn ∈ map uf_user_arn l).
  { intros arn. unfold neutral_scores. rewrite constant_dict_lookup, lookup_empty.
    destruct (decide (arn ∈ map uf_user_arn l)) as [H | H]; split; intros H'.
    - exact H.
    - eauto.
    - now destruct H' as [? H'].
    - contradiction. }
  split; [| split].
  - intros arn. unfold ml_scores, fit_predict.
    destruct sk; cbn [negb]; [| apply Hneutral].
    destruct (length l <? 2)%nat; [apply Hneutral |].
    apply (indexed_dict_dom uf_user_arn (df cont l)).
  - intros Hsmall uf Huf. unfold ml_scores.
    rewrite (fit_predict_small _ _ _ _ Hsmall). now apply neutral_scores_lookup.
  - intros -> Hlen Hnd i uf Hi. unfold ml_scores, fit_predict. cbn [negb].
    apply Nat.ltb_ge in Hlen. rewrite Hlen.
    now apply (indexed_dict_lookup uf_user_arn (df cont l)).
Qed.

(** ** The risk score: whole numbers, monotonicity, breakdown *)

Section WholeScores.

Local Open Scope Q_scope.

Lemma rule_points_whole (r : string) : exists z : Z, rule_points r == inject_Z z.
Proof.
  unfold rule_points. destruct (RULE_BASE_SCORES !! r) as [pts |] eqn:E; cbn.
  - unfold RULE_BASE_SCORES in E. apply elem_of_list_to_map_2 in E.
    repeat (apply elem_of_cons in E as [E | E];
            [ injection E as _ ->;
              first [ exists 10%Z; reflexivity | exists 15%Z; reflexivity
                    | exists 20%Z; reflexivity | exists 18%Z; reflexivity
                    | exists 8%Z; reflexivity ] | ]).
    inversion E.
  - exists 5%Z. reflexivity.
Qed.

Lemma points_sum_whole (l : list string) : exists z : Z, points_sum l == inject_Z z.
Proof.
  induction l as [| r l (z & IH)].
  - exists 0%Z. reflexivity.
  - destruct (rule_points_whole r) as (p & Hp). exists (p + z)%Z.
    change (points_sum (r :: l)) with (rule_points r + points_sum l).
    rewrite Hp, IH, inject_Z_plus. reflexivity.
Qed.

Lemma ml_points_whole (result : DetectionResult) :
  exists z : Z, ml_points result == inject_Z z.
Proof.
  unfold ml_points. destruct (ml_contributed result);
    [exists 15%Z | exists 0%Z]; reflexivity.
Qed.

(** The penalty is the streak cut off at 10. *)
Lemma consec_penalty_min (uf : UserFeatures) :
  consec_penalty uf == inject_Z (Z.min (consecutive_failures uf) 10).
Proof.
  destruct (Z.le_gt_cases (consecutive_failures uf) 10) as [H | H].
  - rewrite Z.min_l by exact H. now apply consec_penalty_small.
  - rewrite Z.min_r by lia. unfold consec_penalty.
    destruct (py_min_spec (inject_Z (consecutive_failures uf) * 1.0) 10.0)
      as [[Hle _] | [_ ->]]; [| reflexivity].
    exfalso. assert (Hq : inject_Z 10 < inject_Z (consecutive_failures uf))
      by (rewrite <- Zlt_Qlt; lia).
    change (inject_Z 10) with 10 in Hq. lra.
Qed.

Lemma penalty_points_min (uf : UserFeatures) :
  penalty_points uf == inject_Z (Z.max 0 (Z.min (consecutive_failures uf) 10)).
Proof.
  unfold penalty_points.
  pose proof (consec_penalty_min uf) as Hp.
  destruct (Qgtb (consec_penalty uf) 0) eqn:E.
  - apply Qgtb_true in E. rewrite Hp in E.
    change 0 with (inject_Z 0) in E. rewrite <- Zlt_Qlt in E.
    rewrite Z.max_r by lia. exact Hp.
  - apply Qgtb_false in E. rewrite Hp in E.
    change 0 with (inject_Z 0) in E. rewrite <- Zle_Qle in E.
    rewrite Z.max_l by lia. reflexivity.
Qed.

Lemma total_accumulate_whole (result : DetectionResult) (uf : UserFeatures) :
  exists z : Z, (0 <= z)%Z /\ total (accumulate result uf) == inject_Z z.
Proof.
  destruct (points_sum_whole (triggered_rules result)) as (a & Ha).
  destruct (ml_points_whole result) as (b & Hb).
  exists (a + b + Z.max 0 (Z.min (consecutive_failures uf) 10))%Z.
  assert (Heq : total (accumulate result uf)
                == inject_Z (a + b + Z.max 0 (Z.min (consecutive_failures uf) 10))).
  { rewrite total_accumulate, Ha, Hb, penalty_points_min, !inject_Z_plus. reflexivity. }
  split; [| exact Heq].
  pose proof (total_accumulate_nonneg result uf) as Hpos.
  rewrite Heq in Hpos. change 0 with (inject_Z 0) in Hpos.
  now rewrite <- Zle_Qle in Hpos.
Qed.

(** Rounding is the identity on the scores that the scorer computes. *)
Lemma score_is_capped_total (result : DetectionResult) (uf : UserFeatures) :
  score (calculate_risk_score result uf)
  == py_min (total (accumulate result uf)) MAX_SCORE.
Proof.
  unfold calculate_risk_score. cbn [score].
  destruct (total_accumulate_whole result uf) as (z & _ & Hz).
  destruct (py_min_spec (total (accumulate result uf)) MAX_SCORE) as [[_ ->] | [_ ->]].
  - apply Qeq_trans with (inject_Z z); [now apply round2_int | now symmetry].
  - vm_compute. reflexivity.
Qed.

Lemma py_min_mono (a b c : Q) : a <= b -> py_min a c <= py_min b c.
Proof.
  intros H.
  destruct (py_min_spec a c) as [[? ->] | [? ->]];
    destruct (py_min_spec b c) as [[? ->] | [? ->]]; lra.
Qed.

End WholeScores.

(** X11.  Every score that [calculate_risk_score] returns is a whole
    number between 0 and 100, and rounding to two decimals changes nothing:
    the score is the uncapped total when that is at most 100, and 100
    otherwise. *)
Theorem X11_score_is_whole_number :
  forall (result : DetectionResult) (uf : UserFeatures),
    let rs := calculate_risk_score result uf in
    (exists n : Z, 0 <= n <= 100 /\ (score rs == inject_Z n)%Q) /\
    (score rs == py_min (total (accumulate result uf)) MAX_SCORE)%Q /\
    ((total (accumulate result uf) <= 100)%Q ->
     (score rs == total (accumulate result uf))%Q) /\
    ((100 <= total (accumulate result uf))%Q -> (score rs == 100)%Q).
Proof.
  intros result uf rs.
  assert (Hs : (score rs == py_min (total (accumulate result uf)) MAX_SCORE)%Q)
    by apply score_is_capped_total.
  destruct (total_accumulate_whole result uf) as (z & Hz0 & Hz).
  split; [| split; [exact Hs | split]].
  - destruct (py_min_spec (total (accumulate result uf)) MAX_SCORE)
      as [[Hle E] | [Hlt E]]; rewrite E in Hs.
    + exists z. split; [| now rewrite Hs].
      split; [exact Hz0 |]. rewrite Hz in Hle. unfold MAX_SCORE in Hle.
      assert (Hq : (inject_Z z <= inject_Z 100)%Q)
        by (change (inject_Z 100) with 100%Q; lra).
      now rewrite <- Zle_Qle in Hq.
    + exists 100. split; [lia |]. rewrite Hs. reflexivity.
  - intros Hle. rewrite Hs, py_min_id; [reflexivity | unfold MAX_SCORE; lra].
  - intros Hge. rewrite Hs.
    destruct (py_min_spec (total (accumulate result uf)) MAX_SCORE)
      as [[Hle ->] | [Hlt ->]]; unfold MAX_SCORE in *; lra.
Qed.

(** X12.  Triggering more rules never lowers the assessment: with further
    rule identifiers appended to the triggered rules, the score and the
    level are at least what they were. *)
Theorem X12_score_monotone_in_rules :
  forall (result : DetectionResult) (uf : UserFeatures) (more : list string),
    let rs := calculate_risk_score result uf in
    let rs' :=
      calculate_risk_score (with_rules result (triggered_rules result ++ more)) uf in
    (score rs <= score rs')%Q /\
    level_rank (level rs) <= level_rank (level rs').
Proof.
  intros result uf more rs rs'.
  assert (Htot : (total (accumulate result uf)
                  <= total (accumulate (with_rules result (triggered_rules result ++ more)) uf))%Q).
  { rewrite !total_accumulate. cbn [triggered_rules with_rules].
    rewrite points_sum_app.
    change (ml_points (with_rules result (triggered_rules result ++ more)))
      with (ml_points result).
    pose proof (points_sum_nonneg more). lra. }
  split.
  - unfold rs, rs'. rewrite !score_is_capped_total. now apply py_min_mono.
  - unfold rs, rs', calculate_risk_score. cbn [level].
    now apply _level_monotone, py_min_mono.
Qed.

Section RecommendationShape.

Variable result : DetectionResult.

Lemma table_sentence_plain (s : string) :
  s ∈ sentences_of remediation_table result ->
  s <> rec_urgent /\ s <> rec_none /\ s <> rec_ml.
Proof.
  rewrite elem_of_sentences_of. intros (rule & Hin & _).
  unfold remediation_table in Hin.
  repeat (apply elem_of_cons in Hin as [Hin | Hin];
          [ injection Hin as _ ->;
            repeat split; intros E; vm_compute in E; discriminate | ]).
  inversion Hin.
Qed.

Lemma body_sentence_not_urgent (s : string) :
  s ∈ sentences_of remediation_table result
      ++ (if ml_contributed result then [rec_ml] else []) ->
  s <> rec_urgent.
Proof.
  rewrite elem_of_app. intros [H | H].
  - now apply table_sentence_plain in H.
  - destruct (ml_contributed result); [| inversion H].
    apply list_elem_of_singleton in H as ->. intros E. vm_compute in E. discriminate.
Qed.

Lemma body_sentence_not_none (s : string) :
  s ∈ sentences_of remediation_table result
      ++ (if ml_contributed result then [rec_ml] else []) ->
  s <> rec_none.
Proof.
  rewrite elem_of_app. intros [H | H].
  - now apply table_sentence_plain in H.
  - destruct (ml_contributed result); [| inversion H].
    apply list_elem_of_singleton in H as ->. intros E. vm_compute in E. discriminate.
Qed.

End RecommendationShape.

(** X13.  The recommendations of an assessment are never empty; their
    first entry is the urgent directive exactly when the level is CRITICAL,
    that is when the uncapped total reaches 80; and the "no action needed"
    sentence appears only as the single entry of the list, for an
    assessment below CRITICAL without ML contribution. *)
Theorem X13_recommendations_shape :
  forall (result : DetectionResult) (uf : UserFeatures),
    let rs := calculate_risk_score result uf in
    recommendations rs <> [] /\
    (head (recommendations rs) = Some rec_urgent <-> level rs = "CRITICAL") /\
    (level rs = "CRITICAL" <-> (80 <= total (accumulate result uf))%Q) /\
    (rec_none ∈ recommendations rs <-> recommendations rs = [rec_none]) /\
    (recommendations rs = [rec_none] ->
     level rs <> "CRITICAL" /\ ml_contributed result = false).
Proof.
  intros result uf rs.
  set (lv := level rs).
  assert (Hrecs : recommendations rs = recommendations_from remediation_table result lv)
    by apply _recommendations_eq.
  assert (Hlv : lv = "CRITICAL" <-> (80 <= total (accumulate result uf))%Q).
  { unfold lv, rs, calculate_risk_score. cbn [level].
    destruct (_level_cases (py_min (total (accumulate result uf)) MAX_SCORE))
      as [[H E] | [[H E] | [[H E] | [H E]]]]; rewrite E;
      destruct (py_min_spec (total (accumulate result uf)) MAX_SCORE)
        as [[H1 H2] | [H1 H2]]; rewrite H2 in H; unfold MAX_SCORE in *;
      split; intros; try discriminate; try reflexivity; try lra. }
  rewrite Hrecs. unfold recommendations_from, recommendations_before_fallback.
  destruct (String.eqb_spec lv "CRITICAL") as [Hc | Hc].
  - cbn [app]. split; [discriminate |]. split; [tauto |]. split; [exact Hlv |].
    split; [| intros E; injection E as E _; vm_compute in E; discriminate].
    split.
    + intros H. apply elem_of_cons in H as [H | H];
        [vm_compute in H; discriminate | now apply body_sentence_not_none in H].
    + intros E. injection E as E _. vm_compute in E. discriminate.
  - cbn [app].
    destruct (sentences_of remediation_table result
              ++ (if ml_contributed result then [rec_ml] else [])) as [| s body] eqn:E.
    + split; [discriminate |]. split.
      { split; [| contradiction]. cbn. intros H. injection H as H.
        vm_compute in H. discriminate. }
      split; [exact Hlv |]. split.
      { split; [reflexivity | intros _; apply list_elem_of_here]. }
      intros _. split; [exact Hc |].
      destruct (ml_contributed result); [| reflexivity].
      now apply app_eq_nil in E as [_ E].
    + assert (Hs : forall x, x ∈ s :: body -> x <> rec_urgent /\ x <> rec_none).
      { intros x Hx. rewrite <- E in Hx.
        split; [now apply body_sentence_not_urgent in Hx
               | now apply body_sentence_not_none in Hx]. }
      split; [discriminate |]. split.
      { split; [| contradiction]. cbn. intros H. injection H as H.
        destruct (Hs s (list_elem_of_here _ _)) as [Hu Hn]; congruence. }
      split; [exact Hlv |]. split.
      { split.
        - intros H. apply Hs in H as [_ Hn]. congruence.
        - intros H. injection H as H _.
          destruct (Hs s (list_elem_of_here _ _)) as [Hu Hn]; congruence. }
      intros H. injection H as H _. destruct (Hs s (list_elem_of_here _ _)) as [Hu Hn]; congruence.
Qed.

Section BreakdownSum.

Local Open Scope Q_scope.

Lemma pairs_sum_perm (l1 l2 : list (string * Q)) :
  Permutation l1 l2 ->
  foldr (fun kv s => kv.2 + s) 0 l1 == foldr (fun kv s => kv.2 + s) 0 l2.
Proof.
  induction 1 as [| x l l' _ IH | x y l | l l' l'' _ IH1 _ IH2]; cbn.
  - reflexivity.
  - now rewrite IH.
  - ring.
  - now rewrite IH1.
Qed.

(** A fresh key adds its value to the sum of the breakdown. *)
Lemma breakdown_sum_insert (m : gmap string Q) (k : string) (v : Q) :
  m !! k = None -> breakdown_sum (<[k := v]> m) == v + breakdown_sum m.
Proof.
  intros H. unfold breakdown_sum.
  rewrite (pairs_sum_perm _ _ (map_to_list_insert m k v H)). reflexivity.
Qed.

Lemma breakdown_sum_empty : breakdown_sum ∅ == 0.
Proof. unfold breakdown_sum. rewrite map_to_list_empty. reflexivity. Qed.

Lemma breakdown_sum_fold_add_rule (l : list string) (acc : ScoreAcc) :
  NoDup l ->
  (forall r, r ∈ l -> breakdown acc !! r = None) ->
  breakdown_sum (breakdown (fold_left add_rule l acc))
  == breakdown_sum (breakdown acc) + points_sum l.
Proof.
  revert acc. induction l as [| r l IH]; intros acc Hnd Hfresh; cbn [fold_left].
  - cbn. ring.
  - apply NoDup_cons in Hnd as [Hr Hnd].
    rewrite IH; [| exact Hnd |].
    + cbn [add_rule breakdown].
      rewrite breakdown_sum_insert by (apply Hfresh, list_elem_of_here).
      change (points_sum (r :: l)) with (rule_points r + points_sum l). ring.
    + intros x Hx. cbn [add_rule breakdown].
      rewrite lookup_insert_ne by (intros ->; contradiction).
      now apply Hfresh, list_elem_of_further.
Qed.

End BreakdownSum.

(** X14.  When the triggered rules are pairwise different and none is
    spelled like the two keys of the scorer, as for every verdict of the
    rule engine, the breakdown explains the score: its keys are the
    triggered rules plus "ML_ANOMALY" when the ML signal contributed plus
    "CONSECUTIVE_FAIL_PENALTY" when there is a failure streak, each rule is
    bound to its points, and the entries add up to the uncapped total, so
    the score is their sum capped at 100. *)
Theorem X14_breakdown_adds_up :
  forall (result : DetectionResult) (uf : UserFeatures),
    NoDup (triggered_rules result) ->
    "ML_ANOMALY" ∉ triggered_rules result ->
    "CONSECUTIVE_FAIL_PENALTY" ∉ triggered_rules result ->
    let rs := calculate_risk_score result uf in
    (forall key : string,
        is_Some (score_breakdown rs !! key)
        <-> key ∈ triggered_rules result
            \/ (key = "ML_ANOMALY" /\ ml_contributed result = true)
            \/ (key = "CONSECUTIVE_FAIL_PENALTY" /\ 1 <= consecutive_failures uf)) /\
    (forall rule : string,
        rule ∈ triggered_rules result ->
        score_breakdown rs !! rule = Some (rule_points rule)) /\
    (breakdown_sum (score_breakdown rs) == total (accumulate result uf))%Q /\
    (score rs == py_min (breakdown_sum (score_breakdown rs)) MAX_SCORE)%Q.
Proof.
  intros result uf Hnd Hml Hpen rs.
  set (acc0 := {| breakdown := ∅; total := 0.0%Q |}).
  set (acc1 := fold_left add_rule (triggered_rules result) acc0).
  assert (H1 : forall key, breakdown acc1 !! key
                           = if decide (key ∈ triggered_rules result)
                             then Some (rule_points key) else None).
  { intros key. unfold acc1. rewrite breakdown_fold_add_rule. reflexivity. }
  assert (Hgt : Qgtb (consec_penalty uf) 0 = true <-> 1 <= consecutive_failures uf).
  { rewrite Qgtb_true, consec_penalty_min.
    change 0%Q with (inject_Z 0). rewrite <- Zlt_Qlt. lia. }
  assert (Hsum : (breakdown_sum (score_breakdown rs) == total (accumulate result uf))%Q).
  { unfold rs, calculate_risk_score. cbn [score_breakdown].
    rewrite total_accumulate. unfold accumulate. fold acc0. fold acc1.
    assert (Hs1 : (breakdown_sum (breakdown acc1)
                   == points_sum (triggered_rules result))%Q).
    { unfold acc1. rewrite breakdown_sum_fold_add_rule; [| exact Hnd |].
      - cbn [breakdown acc0]. rewrite breakdown_sum_empty. ring.
      - intros r _. apply lookup_empty. }
    assert (Hs2 : (breakdown_sum (breakdown (add_ml_bonus result acc1))
                   == points_sum (triggered_rules result) + ml_points result)%Q).
    { unfold add_ml_bonus, ml_points. destruct (ml_contributed result).
      - cbn [breakdown]. rewrite breakdown_sum_insert, Hs1; [ring |].
        rewrite H1. now rewrite decide_False.
      - rewrite Hs1. ring. }
    unfold add_consec_penalty, penalty_points.
    destruct (Qgtb (consec_penalty uf) 0).
    - cbn [breakdown]. rewrite breakdown_sum_insert, Hs2; [ring |].
      rewrite breakdown_add_ml_bonus by discriminate.
      rewrite H1. now rewrite decide_False.
    - rewrite Hs2. ring. }
  split; [| split; [| split]].
  - intros key. unfold rs, calculate_risk_score, accumulate. cbn [score_breakdown].
    fold acc0. fold acc1. rewrite <- Hgt.
    destruct (decide (key = "CONSECUTIVE_FAIL_PENALTY")) as [-> | Hk1].
    + unfold add_consec_penalty. destruct (Qgtb (consec_penalty uf) 0) eqn:G.
      * cbn [breakdown]. rewrite lookup_insert_eq. split; [intros _ | eauto].
        right. right. split; reflexivity.
      * rewrite breakdown_add_ml_bonus by discriminate.
        rewrite H1, decide_False by exact Hpen. split.
        -- intros [? Hx]. discriminate.
        -- intros [Hx | [[Hx _] | [_ Hx]]]; [contradiction | discriminate | discriminate].
    + rewrite breakdown_add_consec_penalty by exact Hk1.
      destruct (decide (key = "ML_ANOMALY")) as [-> | Hk2].
      * unfold add_ml_bonus. destruct (ml_contributed result) eqn:M.
        -- cbn [breakdown]. rewrite lookup_insert_eq. split; [intros _ | eauto].
           right. left. split; reflexivity.
        -- rewrite H1, decide_False by exact Hml. split.
           ++ intros [? Hx]. discriminate.
           ++ intros [Hx | [[_ Hx] | [Hx _]]]; [contradiction | discriminate | discriminate].
      * rewrite breakdown_add_ml_bonus by exact Hk2. rewrite H1.
        destruct (decide (key ∈ triggered_rules result)) as [Hin | Hout]; split.
        -- intros _. left. exact Hin.
        -- eauto.
        -- intros [? Hx]. discriminate.
        -- intros [Hx | [[Hx _] | [Hx _]]]; contradiction.
  - intros rule Hin. unfold rs, calculate_risk_score, accumulate.
    cbn [score_breakdown]. fold acc0. fold acc1.
    rewrite breakdown_add_consec_penalty by (intros ->; contradiction).
    rewrite breakdown_add_ml_bonus by (intros ->; contradiction).
    rewrite H1. now rewrite decide_True.
  - exact Hsum.
  - unfold rs. rewrite score_is_capped_total. apply py_min_comp. now symmetry.
Qed.

Lemma X14_witness_custom_rule :
  (breakdown_sum (score_breakdown
                    (calculate_risk_score custom_rule_result (features_of_counts bob 3 0 0 0)))
   == total (accumulate custom_rule_result (features_of_counts bob 3 0 0 0)))%Q.
Proof.
  assert (Hnd : NoDup (triggered_rules custom_rule_result))
    by (apply (bool_decide_unpack _); vm_compute; exact I).
  assert (Hml : "ML_ANOMALY" ∉ triggered_rules custom_rule_result)
    by (apply (bool_decide_unpack _); vm_compute; exact I).
  assert (Hpen : "CONSECUTIVE_FAIL_PENALTY" ∉ triggered_rules custom_rule_result)
    by (apply (bool_decide_unpack _); vm_compute; exact I).
  destruct (X14_breakdown_adds_up custom_rule_result (features_of_counts bob 3 0 0 0)
              Hnd Hml Hpen) as (_ & _ & Hsum & _).
  exact Hsum.
Defined.

(** ** Rule identifiers outside the catalog *)

(** C9 as stated does not hold for the returned score.  The nine catalog
    rules alone already reach the cap, so an identifier outside the catalog
    listed after them leaves the score at 100 and contributes nothing to
    it; and an identifier listed twice contributes 10 to the score while
    the breakdown shows it once, with 5. *)
Lemma C9_counterexample_capped_or_repeated :
  "R42_CUSTOM_RULE" ∈ triggered_rules saturated_result /\
  ("R42_CUSTOM_RULE" ∉ catalog) /\
  (score (calculate_risk_score saturated_result quiet_features) == 100)%Q /\
  (score (calculate_risk_score (with_rules saturated_result catalog) quiet_features) == 100)%Q /\
  ~ (score (calculate_risk_score saturated_result quiet_features)
     == score (calculate_risk_score (with_rules saturated_result catalog) quiet_features) + 5)%Q /\
  (score (calculate_risk_score repeated_rule_result quiet_features) == 10)%Q /\
  (score (calculate_risk_score (with_rules repeated_rule_result []) quiet_features) == 0)%Q /\
  score_breakdown (calculate_risk_score repeated_rule_result quiet_features) !! "R42_CUSTOM_RULE"
  = Some 5.0%Q.
Proof.
  split; [apply (bool_decide_unpack _); vm_compute; exact I |].
  split; [apply (bool_decide_unpack _); vm_compute; exact I |].
  split; [vm_compute; reflexivity |].
  split; [vm_compute; reflexivity |].
  split; [vm_compute; discriminate |].
  split; [vm_compute; reflexivity |].
  split; [vm_compute; reflexivity |].
  unfold calculate_risk_score, accumulate. cbn [score_breakdown].
  rewrite breakdown_add_consec_penalty by discriminate.
  rewrite breakdown_add_ml_bonus by discriminate.
  rewrite breakdown_fold_add_rule, decide_True.
  - reflexivity.
  - apply list_elem_of_here.
Qed.

(** C9, amended.  Each occurrence of a triggered rule identifier that is
    not one of the nine catalog identifiers adds the default of 5.0 points
    before the cap: the returned score is the smaller of 100 and the score
    returned without that occurrence plus 5.  It is therefore exactly 5.0
    higher than without the occurrence whenever the latter is at most 95,
    and 100 otherwise; it is never lower and never more than 5.0 higher.
    The identifier is a key of the returned breakdown, bound to 5.0 however
    often it occurs, unless it is spelled like one of the two keys that the
    later steps write. *)
Theorem C9_unknown_rule_adds_five_below_cap :
  forall (result : DetectionResult) (uf : UserFeatures) (rule : string)
         (before after : list string),
    triggered_rules result = before ++ rule :: after ->
    rule ∉ catalog ->
    let rs := calculate_risk_score result uf in
    let rs' := calculate_risk_score (with_rules result (before ++ after)) uf in
    (score rs == py_min (score rs' + 5) MAX_SCORE)%Q /\
    ((score rs' <= 95)%Q -> (score rs == score rs' + 5)%Q) /\
    ((95 <= score rs')%Q -> (score rs == 100)%Q) /\
    (score rs' <= score rs <= score rs' + 5)%Q /\
    (total (accumulate result uf)
     == total (accumulate (with_rules result (before ++ after)) uf) + 5)%Q /\
    is_Some (score_breakdown rs !! rule) /\
    (rule <> "ML_ANOMALY" -> rule <> "CONSECUTIVE_FAIL_PENALTY" ->
     score_breakdown rs !! rule = Some 5.0%Q).
Proof.
  intros result uf rule before after Hsplit Hout rs rs'.
  assert (Hin : rule ∈ triggered_rules result).
  { rewrite Hsplit. apply elem_of_app. right. apply list_elem_of_here. }
  assert (Hpts : rule_points rule = 5.0%Q) by now apply rule_points_unknown.
  assert (Ht : (total (accumulate result uf)
                == total (accumulate (with_rules result (before ++ after)) uf) + 5)%Q).
  { rewrite !total_accumulate. cbn [triggered_rules with_rules].
    rewrite Hsplit, !points_sum_app.
    change (points_sum (rule :: after)) with (rule_points rule + points_sum after)%Q.
    rewrite Hpts.
    change (ml_points (with_rules result (before ++ after))) with (ml_points result).
    lra. }
  assert (Hs : (score rs == py_min (total (accumulate result uf)) MAX_SCORE)%Q)
    by apply score_is_capped_total.
  assert (Hs' : (score rs'
                 == py_min (total (accumulate (with_rules result (before ++ after)) uf))
                      MAX_SCORE)%Q)
    by apply score_is_capped_total.
  assert (Hrules : breakdown (fold_left add_rule (triggered_rules result)
                                {| breakdown := ∅; total := 0.0%Q |}) !! rule
                   = Some 5.0%Q).
  { rewrite breakdown_fold_add_rule, decide_True by exact Hin. now rewrite Hpts. }
  destruct (py_min_spec (total (accumulate result uf)) MAX_SCORE)
    as [[H1 E1] | [H1 E1]]; rewrite E1 in Hs; clear E1;
    destruct (py_min_spec (total (accumulate (with_rules result (before ++ after)) uf))
                MAX_SCORE) as [[H2 E2] | [H2 E2]]; rewrite E2 in Hs'; clear E2;
    unfold MAX_SCORE in *.
  all: split;
    [ destruct (py_min_spec (score rs' + 5) 100.0) as [[H3 ->] | [H3 ->]]; lra |].
  all: split; [intros; lra |].
  all: split; [intros; lra |].
  all: split; [lra |].
  all: split; [exact Ht |].
  all: split.
  all: try (unfold rs, calculate_risk_score, accumulate; cbn [score_breakdown];
            apply breakdown_add_consec_penalty_keeps, breakdown_add_ml_bonus_keeps;
            rewrite Hrules; eauto).
  all: intros Hml Hpen; unfold rs, calculate_risk_score, accumulate;
    cbn [score_breakdown];
    rewrite breakdown_add_consec_penalty by exact Hpen;
    rewrite breakdown_add_ml_bonus by exact Hml; exact Hrules.
Qed.

(** The amended statement at a result that triggers one catalog rule and
    one identifier outside the catalog: the score is 5 higher than without
    the identifier, which the breakdown lists with 5.0. *)
Lemma C9_witness_custom_rule_adds_five :
  (score (calculate_risk_score custom_rule_result quiet_features)
   == score (calculate_risk_score
               (with_rules custom_rule_result ["R03_HIGH_RISK_NO_MFA"]) quiet_features) + 5)%Q /\
  score_breakdown (calculate_risk_score custom_rule_result quiet_features) !! "R42_CUSTOM_RULE"
  = Some 5.0%Q.
Proof.
  assert (Hsplit : triggered_rules custom_rule_result
                   = ["R03_HIGH_RISK_NO_MFA"] ++ "R42_CUSTOM_RULE" :: [])
    by reflexivity.
  assert (Hout : "R42_CUSTOM_RULE" ∉ catalog).
  { apply (bool_decide_unpack _). vm_compute. exact I. }
  destruct (C9_unknown_rule_adds_five_below_cap custom_rule_result quiet_features
              "R42_CUSTOM_RULE" ["R03_HIGH_RISK_NO_MFA"] [] Hsplit Hout)
    as (_ & Hbelow & _ & _ & _ & _ & Hkey).
  split.
  - apply Hbelow. vm_compute. discriminate.
  - apply Hkey; discriminate.
Defined.

(** ** The scoring step and the reported streak *)

Section PipelineFacts.

Lemma mapM_total {A B : Type} (f : A -> option B) (l : list A) :
  (forall x, is_Some (f x)) ->
  exists k : list B, mapM f l = Some k /\ Forall2 (fun x y => f x = Some y) l k.
Proof.
  intros Hf.
  destruct (mapM_is_Some_2 f l) as [k Hk].
  { apply Forall_forall. intros x _. apply Hf. }
  exists k. split; [exact Hk | now apply mapM_Some_1].
Qed.

Lemma detect_one_total (ml_threshold : Q) (ml_scores : gmap string Q)
    (uf : UserFeatures) :
  is_Some (detect_one ml_threshold ml_scores uf).
Proof. destruct (detect_one_eq ml_threshold ml_scores uf) as (r & Hr & _). eauto. Qed.

Lemma features_map_snoc (l : list UserFeatures) (uf : UserFeatures) :
  features_map (l ++ [uf]) = <[uf_user_arn uf := uf]> (features_map l).
Proof. unfold features_map. now rewrite fold_left_app. Qed.

(** With one record per user, the dict by user returns each record under
    its own identifier. *)
Lemma features_map_lookup (l : list UserFeatures) (uf : UserFeatures) :
  NoDup (map uf_user_arn l) ->
  uf ∈ l ->
  features_map l !! uf_user_arn uf = Some uf.
Proof.
  induction l as [| y l IH] using rev_ind; intros Hnd Hin; [inversion Hin |].
  rewrite features_map_snoc. rewrite map_app in Hnd.
  apply NoDup_app in Hnd as (Hnd & Hfresh & _).
  apply elem_of_app in Hin as [Hin | Hin].
  - rewrite lookup_insert_ne; [now apply IH |].
    intros E. apply (Hfresh (uf_user_arn uf)).
    + apply elem_of_map. now exists uf.
    + rewrite <- E. apply list_elem_of_here.
  - apply list_elem_of_singleton in Hin as ->. apply lookup_insert_eq.
Qed.

Lemma lookup_and_score_all (fm : gmap string UserFeatures)
    (l : list UserFeatures) (k : list DetectionResult) :
  Forall2 (fun uf r => dr_user_arn r = uf_user_arn uf) l k ->
  (forall uf, uf ∈ l -> fm !! uf_user_arn uf = Some uf) ->
  Forall2 (fun r rs => (uf ← fm !! dr_user_arn r; Some (calculate_risk_score r uf))
                       = Some rs)
          k (zip_with calculate_risk_score k l).
Proof.
  induction 1 as [| uf r l k Ha _ IH]; intros Hfm; cbn [zip_with]; constructor.
  - rewrite Ha, Hfm by apply list_elem_of_here. reflexivity.
  - apply IH. intros u Hu. now apply Hfm, list_elem_of_further.
Qed.

Lemma scored_arns (k : list DetectionResult) (l : list UserFeatures) :
  length k = length l ->
  map rs_user_arn (zip_with calculate_risk_score k l) = map dr_user_arn k.
Proof.
  revert l. induction k as [| r k IH]; intros [| uf l] Hlen; try discriminate;
    [reflexivity |].
  cbn [zip_with map]. rewrite IH by (now injection Hlen). reflexivity.
Qed.

Lemma anomaly_count_zip (results : list DetectionResult) (scores : list RiskScore) :
  length scores = length results ->
  anomaly_count results scores = count_if is_anomaly results.
Proof.
  unfold anomaly_count. revert scores.
  induction results as [| r k IH]; intros [| rs l] Hlen; try discriminate;
    [reflexivity |].
  cbn [zip zip_with count_if fst]. rewrite (IH l) by (now injection Hlen).
  reflexivity.
Qed.

Lemma anomaly_count_range (results : list DetectionResult) (scores : list RiskScore) :
  0 <= anomaly_count results scores <= Z.of_nat (length results).
Proof.
  unfold anomaly_count.
  pose proof (count_if_range (fun p : DetectionResult * RiskScore => is_anomaly p.1)
                (zip results scores)) as H.
  rewrite length_zip in H. lia.
Qed.

End PipelineFacts.

(** A detection result for a user without feature record makes the
    scoring step fail, as the subscript raises [KeyError]. *)
Lemma score_results_missing_key (features_list : list UserFeatures)
    (detection_results : list DetectionResult) (dr : DetectionResult) :
  dr ∈ detection_results ->
  dr_user_arn dr ∉ map uf_user_arn features_list ->
  score_results features_list detection_results = None.
Proof.
  intros Hin Hout. unfold score_results.
  destruct (mapM _ detection_results) as [k |] eqn:E; [| reflexivity].
  exfalso. apply mapM_Some_1 in E.
  apply list_elem_of_lookup in Hin as [i Hi].
  destruct (Forall2_lookup_l _ _ _ _ _ E Hi) as (rs & _ & Hrs).
  destruct (features_map features_list !! dr_user_arn dr) as [uf |] eqn:Eu;
    [| discriminate].
  apply Hout. clear -Eu. revert Eu. unfold features_map.
  induction features_list as [| y l IH] using rev_ind; [discriminate |].
  rewrite fold_left_app. cbn [fold_left]. rewrite map_app, lookup_insert.
  case_decide as Hy.
  - intros _. apply elem_of_app. right. cbn. rewrite Hy. apply list_elem_of_here.
  - intros H. apply elem_of_app. left. now apply IH.
Qed.

(** X15.  The scoring step of the detect endpoint and of the integration
    test builds a dict of the feature records by user and scores each
    detection result with [features_map[dr.user_arn]].  When the feature
    records have pairwise different users and the detection results list
    the same users in the same order, the lookup finds a record for every
    result, and it is the record at the same position: the step returns one
    risk score per result, computed from the result and the features of its
    own user, in the order of the results; and the count of anomalies in the
    response is the number of detection results with [is_anomaly], between
    0 and the number of users. *)
Theorem X15_scoring_step_finds_features :
  forall (features_list : list UserFeatures)
         (detection_results : list DetectionResult),
    NoDup (map uf_user_arn features_list) ->
    map dr_user_arn detection_results = map uf_user_arn features_list ->
    score_results features_list detection_results
    = Some (zip_with calculate_risk_score detection_results features_list) /\
    length (zip_with calculate_risk_score detection_results features_list)
    = length detection_results /\
    map rs_user_arn (zip_with calculate_risk_score detection_results features_list)
    = map dr_user_arn detection_results /\
    anomaly_count detection_results
      (zip_with calculate_risk_score detection_results features_list)
    = count_if is_anomaly detection_results /\
    0 <= count_if is_anomaly detection_results <= Z.of_nat (length features_list).
Proof.
  intros features results Hnd Harns.
  assert (Hlen : length results = length features).
  { rewrite <- (length_map dr_user_arn results), Harns. apply length_map. }
  assert (Harn : Forall2 (fun uf r => dr_user_arn r = uf_user_arn uf) features results).
  { clear -Harns. revert results Harns.
    induction features as [| uf l IH]; intros [| r k] H; try discriminate;
      constructor.
    - cbn [map] in H. congruence.
    - apply IH. cbn [map] in H. congruence. }
  split.
  { unfold score_results. apply mapM_Some_2.
    apply lookup_and_score_all; [exact Harn |].
    intros uf Huf. now apply features_map_lookup. }
  split; [rewrite length_zip_with; lia |].
  split; [now apply scored_arns |].
  split; [apply anomaly_count_zip; rewrite length_zip_with; lia |].
  rewrite <- Hlen. apply count_if_range.
Qed.

Lemma X15_witness_two_accounts :
  NoDup (map uf_user_arn two_features) /\
  map dr_user_arn two_results = map uf_user_arn two_features /\
  score_results two_features two_results
  = Some (zip_with calculate_risk_score two_results two_features).
Proof.
  assert (Hnd : NoDup (map uf_user_arn two_features)).
  { apply (bool_decide_unpack _). vm_compute. exact I. }
  assert (Harns : map dr_user_arn two_results = map uf_user_arn two_features)
    by reflexivity.
  destruct (X15_scoring_step_finds_features two_features two_results Hnd Harns)
    as (Hscores & _).
  split; [exact Hnd |]. split; [exact Harns | exact Hscores].
Defined.

(** X16.  An account whose longest failure streak is at least 5 is
    always reported: CONSECUTIVE_FAILURES triggers, [is_anomaly] is true,
    the breakdown holds 20 points for the rule and the streak capped at 10
    as penalty, and the score is at least 25. *)
Theorem X16_failure_streak_is_reported :
  forall (uf : UserFeatures) (ml_threshold : Q) (ml_scores : gmap string Q),
    5 <= consecutive_failures uf ->
    exists r : DetectionResult,
      detect_one ml_threshold ml_scores uf = Some r /\
      "R06_CONSECUTIVE_FAILURES" ∈ triggered_rules r /\
      is_anomaly r = true /\
      (detection_method r = "rule" \/ detection_method r = "both") /\
      score_breakdown (calculate_risk_score r uf) !! "R06_CONSECUTIVE_FAILURES"
      = Some 20.0%Q /\
      score_breakdown (calculate_risk_score r uf) !! "CONSECUTIVE_FAIL_PENALTY"
      = Some (consec_penalty uf) /\
      (consec_penalty uf == inject_Z (Z.min (consecutive_failures uf) 10))%Q /\
      (25 <= score (calculate_risk_score r uf))%Q.
Proof.
  intros uf thr scores Hcf.
  destruct (detect_one_eq thr scores uf) as (r & Hr & _ & Htr & _ & Ha & Hm).
  assert (H06 : "R06_CONSECUTIVE_FAILURES" ∈ triggered_rules r)
    by (rewrite Htr; now apply triggered_R06).
  assert (Hfired : (0 <? length (triggered_rules r))%nat = true).
  { destruct (triggered_rules r); [inversion H06 | reflexivity]. }
  assert (Hpen : (consec_penalty uf == inject_Z (Z.min (consecutive_failures uf) 10))%Q)
    by apply consec_penalty_min.
  assert (Hpen5 : (5 <= consec_penalty uf)%Q).
  { rewrite Hpen. change 5%Q with (inject_Z 5). rewrite <- Zle_Qle. lia. }
  assert (Hgt : Qgtb (consec_penalty uf) 0 = true) by (apply Qgtb_true; lra).
  exists r. split; [exact Hr |]. split; [exact H06 |].
  split; [rewrite Ha, Hfired; reflexivity |].
  split.
  { rewrite Hm, Hfired. cbn [andb].
    destruct (Qle_bool (ml_anomaly_score r) thr); [right | left]; reflexivity. }
  split.
  { unfold calculate_risk_score, accumulate. cbn [score_breakdown].
    rewrite breakdown_add_consec_penalty by discriminate.
    rewrite breakdown_add_ml_bonus by discriminate.
    rewrite breakdown_fold_add_rule, decide_True by exact H06.
    vm_compute. reflexivity. }
  split.
  { unfold calculate_risk_score, accumulate, add_consec_penalty.
    cbn [score_breakdown]. rewrite Hgt. cbn [breakdown]. apply lookup_insert_eq. }
  split; [exact Hpen |].
  rewrite score_is_capped_total.
  apply py_min_glb; [| unfold MAX_SCORE; lra].
  rewrite total_accumulate.
  pose proof (points_sum_member _ _ H06) as Hsum.
  replace (rule_points "R06_CONSECUTIVE_FAILURES") with 20.0%Q in Hsum
    by (vm_compute; reflexivity).
  pose proof (ml_points_range r).
  unfold penalty_points. rewrite Hgt. lra.
Qed.

Lemma X16_witness_eleven_events :
  exists r : DetectionResult,
    detect_one default_ml_threshold {[ bob := 0.06%Q ]}
               (features_of_counts bob 11 0 5 5) = Some r /\
    is_anomaly r = true /\
    (25 <= score (calculate_risk_score r (features_of_counts bob 11 0 5 5)))%Q.
Proof.
  assert (Hcf : 5 <= consecutive_failures (features_of_counts bob 11 0 5 5))
    by (cbn; lia).
  destruct (X16_failure_streak_is_reported (features_of_counts bob 11 0 5 5)
              default_ml_threshold {[ bob := 0.06%Q ]} Hcf)
    as (r & Hr & _ & Ha & _ & _ & _ & _ & Hs).
  exists r. split; [exact Hr |]. split; [exact Ha | exact Hs].
Defined.

(** ** The minimal detector beside the service *)

Section MvpBuckets.

Lemma bucket_of_snoc (es : list CloudTrailEvent) (e : CloudTrailEvent) :
  bucket_of (es ++ [e])
  = {| Mvp.events := es ++ [e];
       Mvp.ips := Mvp.ips (bucket_of es) ∪ {[ source_ip e ]};
       Mvp.regions := Mvp.regions (bucket_of es) ∪ {[ aws_region e ]} |}.
Proof.
  unfold bucket_of. cbn [Mvp.ips Mvp.regions].
  rewrite !map_app, !list_to_set_app_L. cbn [map list_to_set foldr].
  now rewrite !union_empty_r_L.
Qed.

Lemma bucket_of_single (e : CloudTrailEvent) :
  bucket_of [e]
  = {| Mvp.events := [e]; Mvp.ips := {[ source_ip e ]};
       Mvp.regions := {[ aws_region e ]} |}.
Proof.
  unfold bucket_of. cbn [map list_to_set foldr]. now rewrite !union_empty_r_L.
Qed.

(** The buckets of the minimal detector are the groups of the service,
    each with every source IP and region of its events. *)
Lemma add_to_bucket_groups (e : CloudTrailEvent)
    (g : list (string * list CloudTrailEvent)) :
  Mvp.add_to_bucket e (map (fun p => (p.1, bucket_of p.2)) g)
  = map (fun p => (p.1, bucket_of p.2)) (append_event e g).
Proof.
  induction g as [| [k ks] g IH]; cbn [map Mvp.add_to_bucket append_event fst snd].
  - unfold Mvp.event_arn. now rewrite bucket_of_single.
  - unfold Mvp.event_arn in *.
    destruct (String.eqb k (user_arn e)); cbn [map fst snd].
    + now rewrite bucket_of_snoc.
    + now rewrite IH.
Qed.

Lemma mvp_buckets (events : list CloudTrailEvent) :
  fold_left (fun buckets e => Mvp.add_to_bucket e buckets) events []
  = map (fun p => (p.1, bucket_of p.2)) (group_by_user events).
Proof.
  induction events as [| e l IH] using rev_ind; [reflexivity |].
  rewrite fold_left_app, group_by_user_snoc. cbn [fold_left].
  now rewrite IH, add_to_bucket_groups.
Qed.

Lemma mvp_extract_features_groups (events : list CloudTrailEvent) :
  Mvp.extract_features events
  = map (fun p => Mvp.bucket_features p.1 (bucket_of p.2)) (group_by_user events).
Proof.
  unfold Mvp.extract_features. rewrite mvp_buckets, map_map. reflexivity.
Qed.

(** All values against the non-empty ones: the empty string is the only
    possible difference. *)
Lemma all_values_split (xs : list string) :
  (list_to_set xs : gset string)
  = truthy_set xs ∪ (if decide ("" ∈ xs) then {[ "" ]} else ∅).
Proof.
  apply set_eq. intros x.
  rewrite elem_of_union, elem_of_list_to_set, elem_of_truthy_set.
  destruct (decide ("" ∈ xs)) as [Hin | Hout].
  - rewrite elem_of_singleton. split.
    + intros Hx. destruct (decide (x = "")) as [-> | Hne]; [now right | now left].
    + intros [[_ Hx] | ->]; assumption.
  - split.
    + intros Hx. left. split; [| exact Hx]. intros ->. contradiction.
    + intros [[_ Hx] | Hx]; [exact Hx | now apply not_elem_of_empty in Hx].
Qed.

Lemma all_values_size (xs : list string) :
  size (list_to_set xs : gset string)
  = (size (truthy_set xs) + (if decide ("" ∈ xs) then 1 else 0))%nat.
Proof.
  rewrite all_values_split, size_union.
  - destruct (decide ("" ∈ xs)); [now rewrite size_singleton | now rewrite size_empty].
  - intros x Hx Hx'. apply elem_of_truthy_set in Hx as [Hne _].
    destruct (decide ("" ∈ xs)).
    + apply elem_of_singleton in Hx'. contradiction.
    + now apply not_elem_of_empty in Hx'.
Qed.

End MvpBuckets.

(** X17.  On the same batch the minimal detector and the service produce
    records for the same users in the same order, with the same numbers of
    events, of high-risk events, of high-risk events without MFA, of failed
    events and of off-hours events.  They differ in three ways: the minimal
    detector counts the empty string as a source IP and as a region, so its
    counts are larger by one exactly when the user has an event with an
    empty value; and it measures the failure streak in input order, which
    agrees with the service when the user's events arrive in time order. *)
Theorem X17_minimal_detector_features :
  forall events : list CloudTrailEvent,
    Forall2
      (fun uf muf =>
         let evts := events_of (uf_user_arn uf) events in
         Mvp.user_arn muf = uf_user_arn uf /\
         Mvp.total_events muf = total_events uf /\
         Mvp.high_risk_events muf = high_risk_event_count uf /\
         Mvp.mfa_missing_high_risk muf = mfa_missing_high_risk uf /\
         Mvp.failed_events muf = failed_event_count uf /\
         Mvp.off_hours_events muf = off_hours_event_count uf /\
         Mvp.unique_ips muf
         = unique_ips uf + (if decide ("" ∈ map source_ip evts) then 1 else 0) /\
         Mvp.unique_regions muf
         = unique_regions uf + (if decide ("" ∈ map aws_region evts) then 1 else 0) /\
         Mvp.consecutive_failures muf = longest_run (map failed evts) /\
         (StronglySorted time_le evts ->
          Mvp.consecutive_failures muf = consecutive_failures uf))
      (extract_user_features events) (Mvp.extract_features events).
Proof.
  intros events. rewrite mvp_extract_features_groups. unfold extract_user_features.
  destruct (group_by_user_spec events) as (_ & Hgrp & _).
  revert Hgrp. generalize (group_by_user events) as g.
  induction g as [| [a es] g IH]; intros Hgrp; cbn [map]; constructor.
  - destruct (Hgrp a es (list_elem_of_here _ _)) as [Hes _].
    cbn [fst snd uf_user_arn user_features]. rewrite <- Hes.
    cbn [Mvp.user_arn Mvp.total_events Mvp.high_risk_events Mvp.mfa_missing_high_risk
         Mvp.failed_events Mvp.off_hours_events Mvp.unique_ips Mvp.unique_regions
         Mvp.consecutive_failures Mvp.bucket_features Mvp.events Mvp.ips
         Mvp.regions bucket_of
         total_events high_risk_event_count mfa_missing_high_risk failed_event_count
         off_hours_event_count unique_ips unique_regions consecutive_failures].
    do 6 (split; [reflexivity |]).
    split.
    { change (unique_ips (user_features a es)) with (Z.of_nat (size (ip_set es))).
      unfold ip_set. rewrite all_values_size.
      destruct (decide ("" ∈ map source_ip es)); lia. }
    split.
    { change (unique_regions (user_features a es))
        with (Z.of_nat (size (region_set es))).
      unfold region_set. rewrite all_values_size.
      destruct (decide ("" ∈ map aws_region es)); lia. }
    split; [apply scan_failures_longest |].
    intros Hsorted.
    change (consecutive_failures (user_features a es))
      with (_max_consecutive_failures es).
    unfold Mvp.max_consec, _max_consecutive_failures.
    now rewrite sorted_by_time_stable.
  - apply IH. intros a' es' Hin. apply Hgrp. now apply list_elem_of_further.
Qed.

Section MvpScore.

Local Open Scope Q_scope.

(** One iteration of the loop of [_score] over the rule table. *)
Let score_step (triggered : list string) :=
  fun (acc : gmap string Q * Q)
      (rule : string * Q * (Mvp.UserFeatures -> option bool)) =>
    if bool_decide (rule.1.1 ∈ triggered)
    then (<[rule.1.1 := rule.1.2]> acc.1, acc.2 + rule.1.2)
    else acc.

Lemma score_fold_ext (t1 t2 : list string)
    (rules : list (string * Q * (Mvp.UserFeatures -> option bool)))
    (acc : gmap string Q * Q) :
  (forall id, id ∈ map (fun rule => rule.1.1) rules -> (id ∈ t1 <-> id ∈ t2)) ->
  fold_left (score_step t1) rules acc = fold_left (score_step t2) rules acc.
Proof.
  revert acc. induction rules as [| rule rules IH]; intros acc H; [reflexivity |].
  cbn [fold_left]. unfold score_step at 2 4.
  rewrite (bool_decide_ext (rule.1.1 ∈ t1) (rule.1.1 ∈ t2))
    by (apply H, list_elem_of_here).
  apply IH. intros id Hid. apply H. now apply list_elem_of_further.
Qed.

Lemma score_fold_nonneg (t : list string)
    (rules : list (string * Q * (Mvp.UserFeatures -> option bool)))
    (acc : gmap string Q * Q) :
  Forall (fun rule => 0 <= rule.1.2) rules ->
  0 <= acc.2 -> 0 <= (fold_left (score_step t) rules acc).2.
Proof.
  intros H. revert acc. induction H as [| rule rules Hr _ IH]; intros acc Hacc;
    [exact Hacc |].
  cbn [fold_left]. apply IH. unfold score_step.
  destruct (bool_decide (rule.1.1 ∈ t)); cbn [snd]; [lra | exact Hacc].
Qed.

Lemma score_fold_other_key (t : list string)
    (rules : list (string * Q * (Mvp.UserFeatures -> option bool)))
    (acc : gmap string Q * Q) (key : string) :
  key ∉ map (fun rule => rule.1.1) rules ->
  (fold_left (score_step t) rules acc).1 !! key = acc.1 !! key.
Proof.
  revert acc. induction rules as [| rule rules IH]; intros acc H; [reflexivity |].
  cbn [fold_left]. rewrite IH.
  - unfold score_step. destruct (bool_decide (rule.1.1 ∈ t)); [| reflexivity].
    cbn [fst]. apply lookup_insert_ne. intros E. apply H. rewrite <- E.
    apply list_elem_of_here.
  - intros Hin. apply H. now apply list_elem_of_further.
Qed.

Lemma mvp_rules_points_nonneg : Forall (fun rule => 0 <= rule.1.2) Mvp.RULES.
Proof. unfold Mvp.RULES. repeat constructor; cbn; lra. Qed.

Lemma mvp_score_range (uf : Mvp.UserFeatures) (t : list string) (ml : bool) :
  0 <= (Mvp._score uf t ml).1 <= 100.
Proof.
  unfold Mvp._score. fold (score_step t). cbn [fst].
  pose proof (score_fold_nonneg t Mvp.RULES (∅, 0.0) mvp_rules_points_nonneg) as H0.
  specialize (H0 ltac:(cbn; lra)).
  set (acc := fold_left (score_step t) Mvp.RULES (∅, 0.0)) in *.
  set (pen := py_min (inject_Z (Mvp.consecutive_failures uf) * 1.0) 10.0).
  split.
  - apply py_min_glb; [| lra].
    destruct ml, (Qgtb pen 0) eqn:G; cbn [snd]; try apply Qgtb_true in G; lra.
  - pose proof (py_min_le_r
                  (if Qgtb pen 0
                   then (<["CONSEC_PENALTY" := pen]>
                           (if ml then (<["ML_ANOMALY" := 15.0]> acc.1, acc.2 + 15.0)
                            else acc).1,
                         (if ml then (<["ML_ANOMALY" := 15.0]> acc.1, acc.2 + 15.0)
                          else acc).2 + pen)
                   else if ml then (<["ML_ANOMALY" := 15.0]> acc.1, acc.2 + 15.0)
                        else acc).2 100.0) as H.
    lra.
Qed.

Lemma mvp_score_ext (uf : Mvp.UserFeatures) (t1 t2 : list string) (ml : bool) :
  (forall id, id ∈ map (fun rule => rule.1.1) Mvp.RULES -> (id ∈ t1 <-> id ∈ t2)) ->
  Mvp._score uf t1 ml = Mvp._score uf t2 ml.
Proof.
  intros H. unfold Mvp._score. fold (score_step t1). fold (score_step t2).
  now rewrite (score_fold_ext t1 t2 Mvp.RULES _ H).
Qed.

Lemma mvp_score_no_ml_key (uf : Mvp.UserFeatures) (t : list string) :
  (Mvp._score uf t false).2 !! "ML_ANOMALY" = None.
Proof.
  unfold Mvp._score. fold (score_step t). cbn [snd].
  destruct (Qgtb _ 0); cbn [fst].
  - rewrite lookup_insert_ne by discriminate.
    rewrite score_fold_other_key; [apply lookup_empty |].
    apply (bool_decide_unpack _). vm_compute. exact I.
  - rewrite score_fold_other_key; [apply lookup_empty |].
    apply (bool_decide_unpack _). vm_compute. exact I.
Qed.

End MvpScore.

(** X18.  The score of the minimal detector lies between 0 and 100 and
    depends on the triggered list only through which of the nine
    identifiers of its rule table occur in it: order and repetition do not
    matter, and an identifier outside the table adds nothing, where the
    service adds 5 points. *)
Theorem X18_minimal_score_reads_table_only :
  forall (uf : Mvp.UserFeatures) (triggered : list string) (ml_anomaly : bool),
    (0 <= (Mvp._score uf triggered ml_anomaly).1 <= 100)%Q /\
    (forall triggered' : list string,
        (forall id : string,
            id ∈ map (fun rule => rule.1.1) Mvp.RULES ->
            (id ∈ triggered <-> id ∈ triggered')) ->
        Mvp._score uf triggered ml_anomaly = Mvp._score uf triggered' ml_anomaly) /\
    (forall unknown : string,
        unknown ∉ map (fun rule => rule.1.1) Mvp.RULES ->
        Mvp._score uf (unknown :: triggered) ml_anomaly
        = Mvp._score uf triggered ml_anomaly) /\
    Mvp._score uf (triggered ++ triggered) ml_anomaly
    = Mvp._score uf triggered ml_anomaly /\
    Mvp._score uf (reverse triggered) ml_anomaly
    = Mvp._score uf triggered ml_anomaly.
Proof.
  intros uf t ml.
  split; [apply mvp_score_range |].
  split; [intros t' H; now apply mvp_score_ext |].
  split; [| split].
  - intros unknown Hout. apply mvp_score_ext. intros id Hid.
    rewrite elem_of_cons. split; [| now right].
    intros [-> | H]; [contradiction | exact H].
  - apply mvp_score_ext. intros id _. rewrite elem_of_app. tauto.
  - apply mvp_score_ext. intros id _. apply elem_of_reverse.
Qed.

Section MvpDetectFacts.

Lemma Forall2_Forall_r_elem {A B : Type} (P : A -> B -> Prop) (Q : B -> Prop)
    (l : list A) (k : list B) :
  Forall2 P l k ->
  (forall x y, x ∈ l -> P x y -> Q y) ->
  Forall Q k.
Proof.
  induction 1 as [| x y l k Hxy _ IH]; intros H; constructor.
  - apply (H x y); [apply list_elem_of_here | exact Hxy].
  - apply IH. intros x' y' Hx'. apply H. now apply list_elem_of_further.
Qed.

(** The entry that one iteration of the loop appends. *)
Lemma mvp_detect_one_eq (ml_result : gmap string bool) (uf : Mvp.UserFeatures) :
  exists o : MvpDetect.Output,
    MvpDetect.detect_one ml_result uf = Some o /\
    MvpDetect.user_arn o = Mvp.user_arn uf /\
    MvpDetect.triggered_rules o = map fst (List.filter snd (mvp_rule_checks uf)) /\
    MvpDetect.risk_score o
    = round2 (Mvp._score uf (MvpDetect.triggered_rules o)
                         (default false (ml_result !! Mvp.user_arn uf))).1 /\
    MvpDetect.score_breakdown o
    = (Mvp._score uf (MvpDetect.triggered_rules o)
                  (default false (ml_result !! Mvp.user_arn uf))).2 /\
    MvpDetect.is_anomaly o
    = (0 <? length (MvpDetect.triggered_rules o))%nat
      || default false (ml_result !! Mvp.user_arn uf) /\
    MvpDetect.detection_method o
    = (if (0 <? length (MvpDetect.triggered_rules o))%nat
          && default false (ml_result !! Mvp.user_arn uf) then "both"
       else if (0 <? length (MvpDetect.triggered_rules o))%nat then "rule"
       else if default false (ml_result !! Mvp.user_arn uf) then "ml"
       else "none").
Proof.
  unfold MvpDetect.detect_one. rewrite mvp_triggered_eq. cbn [mbind option_bind].
  eexists. split; [reflexivity |].
  cbn [MvpDetect.user_arn MvpDetect.triggered_rules MvpDetect.risk_score
       MvpDetect.score_breakdown MvpDetect.is_anomaly MvpDetect.detection_method].
  repeat split; reflexivity.
Qed.

Lemma mvp_detect_one_total (ml_result : gmap string bool) (uf : Mvp.UserFeatures) :
  is_Some (MvpDetect.detect_one ml_result uf).
Proof. destruct (mvp_detect_one_eq ml_result uf) as (o & Ho & _). eauto. Qed.

Lemma mvp_entries_arns (ml_result : gmap string bool)
    (l : list Mvp.UserFeatures) (k : list MvpDetect.Output) :
  Forall2 (fun uf o => MvpDetect.detect_one ml_result uf = Some o) l k ->
  map MvpDetect.user_arn k = map Mvp.user_arn l.
Proof.
  induction 1 as [| uf o l k Ho _ IH]; [reflexivity |].
  destruct (mvp_detect_one_eq ml_result uf) as (o' & Ho' & Harn & _).
  cbn [map]. rewrite IH. f_equal. congruence.
Qed.

End MvpDetectFacts.

(** X19.  [detect] of the minimal detector never raises.  It returns one
    entry per user, sorted by risk score with the highest first, and
    nothing for an empty batch; every risk score lies between 0 and 100 and
    [is_anomaly] is true exactly when the method is not "none".  When the
    batch has fewer than 2 users or the ML library is missing, no entry is
    attributed to the ML model: the method is "rule" or "none", an entry is
    an anomaly exactly when a rule triggered, and its breakdown has no
    "ML_ANOMALY" key. *)
Theorem X19_minimal_detect :
  forall (sklearn_available : bool)
         (fit_predict : list Mvp.UserFeatures -> nat -> Z)
         (events : list CloudTrailEvent),
    exists output : list MvpDetect.Output,
      MvpDetect.detect sklearn_available fit_predict events = Some output /\
      Permutation (map MvpDetect.user_arn output)
                  (map Mvp.user_arn (Mvp.extract_features events)) /\
      StronglySorted
        (fun a b => (MvpDetect.risk_score b <= MvpDetect.risk_score a)%Q) output /\
      (events = [] -> output = []) /\
      Forall
        (fun o =>
           (0 <= MvpDetect.risk_score o <= 100)%Q /\
           (MvpDetect.is_anomaly o = true <-> MvpDetect.detection_method o <> "none"))
        output /\
      (sklearn_available = false \/ (length (Mvp.extract_features events) < 2)%nat ->
       Forall
         (fun o =>
            (MvpDetect.detection_method o = "rule"
             \/ MvpDetect.detection_method o = "none") /\
            (MvpDetect.is_anomaly o = true <-> MvpDetect.triggered_rules o <> []) /\
            MvpDetect.score_breakdown o !! "ML_ANOMALY" = None)
         output).
Proof.
  intros sk fp events.
  set (features := Mvp.extract_features events).
  set (ml_result := Mvp._ml_anomalies sk fp features).
  destruct (mapM_total (MvpDetect.detect_one ml_result) features
              (mvp_detect_one_total ml_result)) as (entries & Hmap & Hpair).
  exists (sort_desc MvpDetect.risk_score entries).
  assert (Hperm : Permutation (sort_desc MvpDetect.risk_score entries) entries)
    by apply sort_desc_perm.
  split.
  { unfold MvpDetect.detect. fold features. fold ml_result.
    destruct features as [| uf l] eqn:E.
    - inversion Hpair; subst. reflexivity.
    - rewrite Hmap. reflexivity. }
  split.
  { rewrite Hperm, (mvp_entries_arns ml_result features entries Hpair).
    reflexivity. }
  split; [apply sort_desc_sorted |].
  split.
  { intros ->. inversion Hpair; subst. reflexivity. }
  split.
  { rewrite Hperm. eapply Forall2_Forall_r_elem; [exact Hpair |].
    intros uf o _ Ho. cbv beta.
    destruct (mvp_detect_one_eq ml_result uf) as (o' & Ho' & _ & _ & Hs & _ & Ha & Hm).
    assert (o' = o) by congruence. subst o'. split.
    - rewrite Hs. pose proof (mvp_score_range uf (MvpDetect.triggered_rules o)
                                (default false (ml_result !! Mvp.user_arn uf))) as Hr.
      split; [apply (round2_lower 0) | apply (round2_upper 100)];
        [change (inject_Z 0) with 0%Q | change (inject_Z 100) with 100%Q]; tauto.
    - rewrite Ha, Hm.
      destruct (0 <? length (MvpDetect.triggered_rules o))%nat,
        (default false (ml_result !! Mvp.user_arn uf)); cbn;
        split; intros; congruence || discriminate. }
  intros Hsmall. rewrite Hperm.
  eapply Forall2_Forall_r_elem; [exact Hpair |].
  intros uf o Hin Ho. cbv beta.
  destruct (mvp_detect_one_eq ml_result uf) as (o' & Ho' & _ & _ & _ & Hb & Ha & Hm).
  assert (o' = o) by congruence. subst o'.
  assert (Hml : default false (ml_result !! Mvp.user_arn uf) = false).
  { unfold ml_result. now rewrite (mvp_small_batch_not_flagged sk fp features uf Hsmall Hin). }
  rewrite Hml in Hb, Ha, Hm. rewrite Ha, Hm, Hb.
  split; [| split].
  - destruct (0 <? length (MvpDetect.triggered_rules o))%nat; cbn; tauto.
  - destruct (MvpDetect.triggered_rules o); cbn; split; intros; congruence.
  - apply mvp_score_no_ml_key.
Qed.

(** ** Flagged and unflagged accounts *)

Section FlagFacts.

Local Open Scope Q_scope.

Lemma rule_points_catalog_min (r : string) : r ∈ catalog -> 8 <= rule_points r.
Proof.
  intros Hr. unfold rule_points.
  destruct (catalog_has_points r Hr) as [pts E]. rewrite E. cbn.
  now apply rule_points_known in E as [_ [E _]].
Qed.

Lemma sentences_of_no_rules (table : list (string * string)) (result : DetectionResult) :
  triggered_rules result = [] -> sentences_of table result = [].
Proof.
  intros E. unfold sentences_of. rewrite E.
  induction table as [| [k s] table IH]; [reflexivity |]. cbn.
  rewrite bool_decide_eq_false_2 by (intros H; inversion H). exact IH.
Qed.

End FlagFacts.

(** X20.  The score separates flagged from unflagged accounts.  A result
    of [detect] with [is_anomaly] false has no triggered rule and no ML
    contribution: its score is the failure streak, at most 4, its level is
    LOW and its only recommendation is the "no action needed" sentence.  A
    result with [is_anomaly] true scores at least 8. *)
Theorem X20_score_separates_flagged :
  forall (uf : UserFeatures) (ml_threshold : Q) (ml_scores : gmap string Q),
    exists r : DetectionResult,
      detect_one ml_threshold ml_scores uf = Some r /\
      (is_anomaly r = false ->
       triggered_rules r = [] /\
       detection_method r = "none" /\
       (score (calculate_risk_score r uf)
        == inject_Z (Z.max 0 (consecutive_failures uf)))%Q /\
       (score (calculate_risk_score r uf) <= 4)%Q /\
       level (calculate_risk_score r uf) = "LOW" /\
       recommendations (calculate_risk_score r uf) = [rec_none]) /\
      (is_anomaly r = true -> (8 <= score (calculate_risk_score r uf))%Q).
Proof.
  intros uf thr scores.
  destruct (detect_one_eq thr scores uf) as (r & Hr & _ & Htr & _ & Ha & Hm).
  exists r. split; [exact Hr |]. split.
  - intros Hfalse. rewrite Hfalse in Ha. symmetry in Ha.
    apply orb_false_iff in Ha as [Hrule Hml].
    rewrite Hrule, Hml in Hm. cbn in Hm.
    assert (Hnil : triggered_rules r = []).
    { destruct (triggered_rules r); [reflexivity | discriminate]. }
    assert (Hnoml : ml_contributed r = false)
      by (unfold ml_contributed; rewrite Hm; reflexivity).
    assert (Hcf : consecutive_failures uf < 5).
    { destruct (Z.lt_ge_cases (consecutive_failures uf) 5) as [H | H]; [exact H |].
      apply triggered_R06 in H. rewrite <- Htr, Hnil in H. inversion H. }
    assert (Htotal : (total (accumulate r uf)
                      == inject_Z (Z.max 0 (consecutive_failures uf)))%Q).
    { rewrite total_accumulate, Hnil, penalty_points_min. unfold ml_points.
      rewrite Hnoml. cbn [points_sum foldr].
      replace (Z.min (consecutive_failures uf) 10) with (consecutive_failures uf) by lia.
      ring. }
    assert (Hle : (inject_Z (Z.max 0 (consecutive_failures uf)) <= 4)%Q).
    { change 4%Q with (inject_Z 4). rewrite <- Zle_Qle. lia. }
    assert (Hscore : (score (calculate_risk_score r uf)
                      == inject_Z (Z.max 0 (consecutive_failures uf)))%Q).
    { rewrite score_is_capped_total, (py_min_comp _ _ _ Htotal).
      rewrite py_min_id; [reflexivity | unfold MAX_SCORE; lra]. }
    assert (Hlevel : level (calculate_risk_score r uf) = "LOW").
    { unfold calculate_risk_score. cbn [level].
      destruct (_level_cases (py_min (total (accumulate r uf)) MAX_SCORE))
        as [[H E] | [[H E] | [[H E] | [H E]]]]; try exact E; exfalso;
        pose proof (py_min_le_l (total (accumulate r uf)) MAX_SCORE); lra. }
    split; [exact Hnil |]. split; [exact Hm |]. split; [exact Hscore |].
    split; [rewrite Hscore; exact Hle |]. split; [exact Hlevel |].
    change (recommendations (calculate_risk_score r uf))
      with (_recommendations r uf (level (calculate_risk_score r uf))).
    rewrite Hlevel, _recommendations_eq.
    unfold recommendations_from, recommendations_before_fallback.
    rewrite (sentences_of_no_rules _ _ Hnil), Hnoml. reflexivity.
  - intros Htrue. rewrite score_is_capped_total.
    apply py_min_glb; [| unfold MAX_SCORE; lra].
    rewrite total_accumulate.
    pose proof (points_sum_nonneg (triggered_rules r)).
    pose proof (ml_points_range r). pose proof (penalty_points_range uf).
    rewrite Htrue in Ha. symmetry in Ha. apply orb_true_iff in Ha as [Hrule | Hml].
    + destruct (triggered_rules r) as [| x rest] eqn:E; [discriminate |].
      assert (Hx : x ∈ rules_triggered uf) by (rewrite <- Htr; apply list_elem_of_here).
      apply rules_triggered_in_catalog, rule_points_catalog_min in Hx.
      change (points_sum (x :: rest)) with (rule_points x + points_sum rest)%Q.
      pose proof (points_sum_nonneg rest). lra.
    + assert (Hc : ml_contributed r = true).
      { unfold ml_contributed. rewrite Hm, Hml.
        destruct (0 <? length (triggered_rules r))%nat; reflexivity. }
      unfold ml_points in *. rewrite Hc in *. unfold ML_ANOMALY_BONUS. lra.
Qed.

(** ** The feature vector of the minimal detector *)

(** X21.  [to_vector] never raises and yields nine components; for the
    records that [extract_features] produces, the three ratio components
    (off-hours, high-risk and failed events over the number of events) lie
    between 0 and 1. *)
Theorem X21_minimal_vector :
  forall uf : Mvp.UserFeatures,
    exists v : list Q,
      MvpDetect.to_vector uf = Some v /\
      length v = 9%nat /\
      v !! 1%nat = Some (ratio (Mvp.off_hours_events uf) (Mvp.total_events uf)) /\
      v !! 2%nat = Some (ratio (Mvp.high_risk_events uf) (Mvp.total_events uf)) /\
      v !! 5%nat = Some (ratio (Mvp.failed_events uf) (Mvp.total_events uf)) /\
      (forall events : list CloudTrailEvent,
          uf ∈ Mvp.extract_features events ->
          Forall (fun i => exists x : Q, v !! i = Some x /\ (0 <= x <= 1)%Q)
                 [1%nat; 2%nat; 5%nat]).
Proof.
  intros uf. unfold MvpDetect.to_vector. rewrite !truediv_floored.
  cbn [mbind option_bind]. eexists. split; [reflexivity |].
  split; [reflexivity |]. do 3 (split; [reflexivity |]).
  intros events Hin. rewrite mvp_extract_features_groups in Hin.
  apply elem_of_map in Hin as ([a es] & -> & Hg).
  destruct (group_by_user_spec events) as (_ & Hgrp & _).
  destruct (Hgrp a es Hg) as [_ Hne].
  assert (Hlen : 1 <= Z.of_nat (length es)) by (destruct es; [congruence | cbn; lia]).
  assert (Hratio : forall p : CloudTrailEvent -> bool,
             (0 <= ratio (count_if p es) (Z.of_nat (length es)) <= 1)%Q).
  { intros p. pose proof (count_if_range p es) as Hr. unfold ratio.
    rewrite Z.max_l by lia. split.
    - apply Qle_shift_div_l.
      + change 0%Q with (inject_Z 0). rewrite <- Zlt_Qlt. lia.
      + rewrite Qmult_0_l. change 0%Q with (inject_Z 0). rewrite <- Zle_Qle. lia.
    - apply Qle_shift_div_r.
      + change 0%Q with (inject_Z 0). rewrite <- Zlt_Qlt. lia.
      + rewrite Qmult_1_l. rewrite <- Zle_Qle. lia. }
  cbn [fst snd Mvp.bucket_features Mvp.off_hours_events Mvp.high_risk_events
       Mvp.failed_events Mvp.total_events Mvp.events bucket_of].
  repeat constructor; eexists; (split; [reflexivity | apply Hratio]).
Qed.
